(** * The MCP stdio protocol engine of the tool servers

    A shallow embedding of the framing, dispatch and response-envelope code
    that the iTick server ([iTickMCPServer]), the Hong Kong Government
    open-data server ([HKGovMCPServer]) and the Hong Kong Observatory
    server ([HKOMCPServer]) share.

    JavaScript strings are represented by their UTF-8 bytes ([string]); a
    lone UTF-16 surrogate, which only a [\u] escape can produce, is kept as
    its three-byte generalised encoding.  The newline that delimits frames
    is the single byte 10, which never occurs inside a multi-byte
    sequence. *)

From Stdlib Require Import String Ascii List Bool Arith NArith Lia Sorted.
Import ListNotations.
Local Open Scope string_scope.
Local Open Scope list_scope.

(** String concatenation, JavaScript's [+] on strings. *)
Infix "+++" := String.append (right associativity, at level 60).

(** ** Strings *)

Definition LF : ascii := "010"%char.
Definition DQUOTE : ascii := "034"%char.
Definition BACKSLASH : ascii := "092"%char.

(** [s.split('\n')]: the pieces between newlines; never an empty array. *)
Fixpoint split (s : string) : list string :=
  match s with
  | EmptyString => [""]
  | String c r =>
      if Ascii.eqb c LF then "" :: split r
      else match split r with
           | [] => [String c ""]
           | piece :: pieces => String c piece :: pieces
           end
  end.

(** [lines.pop()]: the array without its last element, and that element
    ([undefined], here [None], on an empty array). *)
Definition pop (lines : list string) : list string * option string :=
  match lines with
  | [] => ([], None)
  | _ => (removelast lines, Some (last lines ""))
  end.

Fixpoint count_LF (s : string) : nat :=
  match s with
  | EmptyString => 0
  | String c r => (if Ascii.eqb c LF then 1 else 0) + count_LF r
  end.

Definition join_chunks (chunks : list string) : string :=
  fold_right String.append "" chunks.

(** [is_prefix p s]: [s] starts with [p]; [contains s p]: [p] occurs in [s]
    ([s.includes(p)]). *)
Fixpoint is_prefix (p s : string) : bool :=
  match p, s with
  | EmptyString, _ => true
  | String a p', String b s' => Ascii.eqb a b && is_prefix p' s'
  | String _ _, EmptyString => false
  end.

Fixpoint contains (s p : string) : bool :=
  is_prefix p s ||
  match s with
  | EmptyString => false
  | String _ s' => contains s' p
  end.

(** ** The Frame Reader

    The first three statements of the ['data'] listener:
    [buffer += chunk; const lines = buffer.split('\n'); buffer = lines.pop();]
    [pop] of the never-empty [split] result is a string; were it
    [undefined], the next [buffer += chunk] would read it as the text
    ["undefined"].  A chunk is what [stdin] hands to the listener after
    [setEncoding('utf8')]: text, with no character cut in two. *)
Definition read_chunk (buffer chunk : string) : list string * string :=
  let (lines, tail) := pop (split (buffer +++ chunk)) in
  (lines, match tail with Some b => b | None => "undefined" end).

(** The frames handed on by a sequence of ['data'] events, and the buffer
    left behind. *)
Fixpoint read_chunks (buffer : string) (chunks : list string)
  : list string * string :=
  match chunks with
  | [] => ([], buffer)
  | chunk :: later =>
      let (lines, buffer') := read_chunk buffer chunk in
      let (frames, final) := read_chunks buffer' later in
      (lines ++ frames, final)
  end.

Local Set Warnings "-register-all".

(** ** JavaScript values

    The values [JSON.parse] can return and the object literals the servers
    build, together with [undefined].  A number is carried as the decimal
    literal that denotes it; the program never computes with numbers, and
    what the engine does with one (printing it, testing it for zero) is
    left to the [Engine] below.  An object is the list of its own
    properties in enumeration order. *)
Inductive value : Type :=
| JUndefined
| JNull
| JBool (b : bool)
| JNum (literal : string)
| JStr (s : string)
| JArr (elems : list value)
| JObj (props : list (string * value)).

(** The outcome of evaluating code that may throw.  Every value thrown in
    these servers is an [Error] object ([new Error(...)], a [TypeError] or
    [SyntaxError] raised by the engine, the error of a failed request), of
    which only [.message] is ever read. *)
Inductive completion (A : Type) : Type :=
| Normal (a : A)
| Throw (message : string).
Arguments Normal {A} a.
Arguments Throw {A} message.

Definition bind {A B} (c : completion A) (k : A -> completion B)
  : completion B :=
  match c with
  | Normal a => k a
  | Throw m => Throw m
  end.

Notation "x <- c ;; k" := (bind c (fun x => k))
  (at level 61, c at next level, right associativity).

(** What is specific to the JavaScript engine: the wording of its error
    messages and its treatment of numbers. *)
Class Engine : Type := {
  (** [e.message] of the [SyntaxError] that [JSON.parse(text)] throws *)
  SyntaxError_message : string -> string;
  (** [e.message] of the [TypeError] for reading property [key] of [null]
      or [undefined] *)
  TypeError_read : value -> string -> string;
  (** [e.message] of the [TypeError] for an object that has no primitive
      value *)
  TypeError_primitive : string;
  (** [String(n)] for the number denoted by a literal *)
  Number_toString : string -> string;
  (** whether the literal denotes [0] or [-0] *)
  Number_isZero : string -> bool
}.

(** The own property [key] of an object, [undefined] when there is none.
    No property name read by the servers ([method], [id], [params], [name],
    [arguments] and the tool arguments) is inherited from a prototype, so
    on arrays and primitives the result is [undefined] as well. *)
Fixpoint own (props : list (string * value)) (key : string) : value :=
  match props with
  | [] => JUndefined
  | (k, v) :: rest => if String.eqb k key then v else own rest key
  end.

Definition prop (v : value) (key : string) : value :=
  match v with
  | JObj props => own props key
  | _ => JUndefined
  end.

Section Operators.
Context {engine : Engine}.

(** [v.key] *)
Definition Get (v : value) (key : string) : completion value :=
  match v with
  | JUndefined | JNull => Throw (TypeError_read v key)
  | _ => Normal (prop v key)
  end.

(** [v?.key] *)
Definition OptGet (v : value) (key : string) : value :=
  match v with
  | JUndefined | JNull => JUndefined
  | _ => prop v key
  end.

Definition ToBoolean (v : value) : bool :=
  match v with
  | JUndefined | JNull => false
  | JBool b => b
  | JNum literal => negb (Number_isZero literal)
  | JStr s => negb (String.eqb s "")
  | JArr _ | JObj _ => true
  end.

(** [a || b] *)
Definition or_else (a b : value) : value :=
  if ToBoolean a then a else b.

(** [v === "s"] for a string literal, as in a [switch] over string cases. *)
Definition is_str (v : value) (s : string) : bool :=
  match v with
  | JStr t => String.eqb t s
  | _ => false
  end.

Definition has_own (props : list (string * value)) (key : string) : bool :=
  existsb (fun kv => String.eqb (fst kv) key) props.

(** [`${v}`]: the string conversion of a template literal.  An array is
    joined with commas, [null] and [undefined] elements giving the empty
    string.  An object without an own [toString] inherits
    [Object.prototype.toString]; an own [toString] is data, not a function,
    and then neither it nor [valueOf] yields a primitive. *)
Fixpoint ToString (v : value) : completion string :=
  match v with
  | JUndefined => Normal "undefined"
  | JNull => Normal "null"
  | JBool true => Normal "true"
  | JBool false => Normal "false"
  | JNum literal => Normal (Number_toString literal)
  | JStr s => Normal s
  | JArr elems =>
      (fix join (l : list value) : completion string :=
         match l with
         | [] => Normal ""
         | x :: rest =>
             s <- match x with
                  | JUndefined | JNull => Normal ""
                  | _ => ToString x
                  end ;;
             match rest with
             | [] => Normal s
             | _ => t <- join rest ;; Normal (s +++ "," +++ t)
             end
         end) elems
  | JObj props =>
      if has_own props "toString" then Throw TypeError_primitive
      else Normal "[object Object]"
  end.

End Operators.

(** ** JSON.parse

    The JSON grammar (ECMA-404), read in one pass over the text by a
    pushdown automaton: a stack of the containers that are open, and what
    is expected next. *)

Definition code (c : ascii) : N := N_of_ascii c.

Definition is_ws (c : ascii) : bool :=
  let n := code c in
  (n =? 32)%N || (n =? 9)%N || (n =? 10)%N || (n =? 13)%N.

Definition is_digit (c : ascii) : bool :=
  let n := code c in (48 <=? n)%N && (n <=? 57)%N.

Definition is_delimiter (c : ascii) : bool :=
  is_ws c ||
  existsb (Ascii.eqb c)
    ["{"; "}"; "["; "]"; ","; ":"; DQUOTE]%char.

(** The number grammar: an optional minus sign; then a single zero, or a
    non-zero digit and further digits; then optionally a point and one or
    more digits; then optionally [e] or [E], an optional sign and one or
    more digits. *)
Inductive num_state : Type :=
| NStart | NMinus | NZero | NInt | NDot | NFrac
| NExp | NExpSign | NExpDigits | NBad.

Definition is_e (c : ascii) : bool :=
  Ascii.eqb c "e"%char || Ascii.eqb c "E"%char.

Definition num_step (st : num_state) (c : ascii) : num_state :=
  match st with
  | NStart =>
      if Ascii.eqb c "-"%char then NMinus
      else if Ascii.eqb c "0"%char then NZero
      else if is_digit c then NInt else NBad
  | NMinus =>
      if Ascii.eqb c "0"%char then NZero
      else if is_digit c then NInt else NBad
  | NZero =>
      if Ascii.eqb c "."%char then NDot
      else if is_e c then NExp else NBad
  | NInt =>
      if is_digit c then NInt
      else if Ascii.eqb c "."%char then NDot
      else if is_e c then NExp else NBad
  | NDot => if is_digit c then NFrac else NBad
  | NFrac =>
      if is_digit c then NFrac
      else if is_e c then NExp else NBad
  | NExp =>
      if Ascii.eqb c "+"%char || Ascii.eqb c "-"%char then NExpSign
      else if is_digit c then NExpDigits else NBad
  | NExpSign => if is_digit c then NExpDigits else NBad
  | NExpDigits => if is_digit c then NExpDigits else NBad
  | NBad => NBad
  end.

Fixpoint num_run (st : num_state) (s : string) : num_state :=
  match s with
  | EmptyString => st
  | String c r => num_run (num_step st c) r
  end.

Definition is_number (s : string) : bool :=
  match num_run NStart s with
  | NZero | NInt | NFrac | NExpDigits => true
  | _ => false
  end.

(** A maximal run of characters between delimiters is [null], [true],
    [false] or a number. *)
Definition word_value (w : string) : option value :=
  if String.eqb w "null" then Some JNull
  else if String.eqb w "true" then Some (JBool true)
  else if String.eqb w "false" then Some (JBool false)
  else if is_number w then Some (JNum w)
  else None.

Definition text_of (rev_chars : list ascii) : string :=
  fold_left (fun s c => String c s) rev_chars "".

(** Property keys that are array indices enumerate first, in ascending
    order; the others follow in creation order.  Defining a key again
    keeps its place. *)
Fixpoint decimal (s : string) (acc : N) : option N :=
  match s with
  | EmptyString => Some acc
  | String c r =>
      if is_digit c then decimal r (acc * 10 + (code c - 48))%N else None
  end.

Definition array_index (key : string) : option N :=
  match key with
  | EmptyString => None
  | String c r =>
      if Ascii.eqb c "0"%char && negb (String.eqb r "") then None
      else match decimal key 0 with
           | Some n => if (n <=? 4294967294)%N then Some n else None
           | None => None
           end
  end.

Definition enumerates_before (k k' : string) : bool :=
  match array_index k, array_index k' with
  | Some i, Some j => (i <? j)%N
  | Some _, None => true
  | None, _ => false
  end.

Fixpoint obj_set (props : list (string * value)) (k : string) (v : value)
  : list (string * value) :=
  match props with
  | [] => [(k, v)]
  | (k', v') :: rest =>
      if String.eqb k' k then (k, v) :: rest
      else if enumerates_before k k' then (k, v) :: props
      else (k', v') :: obj_set rest k v
  end.

(** UTF-8 of a code point; a surrogate code unit gets the three-byte
    form. *)
Definition utf8 (cp : N) : list ascii :=
  let b := ascii_of_N in
  if (cp <? 128)%N then [b cp]
  else if (cp <? 2048)%N then
    [b (192 + cp / 64); b (128 + cp mod 64)]%N
  else if (cp <? 65536)%N then
    [b (224 + cp / 4096); b (128 + (cp / 64) mod 64); b (128 + cp mod 64)]%N
  else
    [b (240 + cp / 262144); b (128 + (cp / 4096) mod 64);
     b (128 + (cp / 64) mod 64); b (128 + cp mod 64)]%N.

Definition is_high_surrogate (u : N) : bool :=
  (55296 <=? u)%N && (u <=? 56319)%N.
Definition is_low_surrogate (u : N) : bool :=
  (56320 <=? u)%N && (u <=? 57343)%N.

Definition hex_value (c : ascii) : option N :=
  let n := code c in
  if is_digit c then Some (n - 48)%N
  else if (97 <=? n)%N && (n <=? 102)%N then Some (n - 87)%N
  else if (65 <=? n)%N && (n <=? 70)%N then Some (n - 55)%N
  else None.

Inductive container : Type :=
| CArr (elems_rev : list value)
| CObj (props : list (string * value))
| CObjV (props : list (string * value)) (key : string).

Inductive escape : Type :=
| ENone
| EBackslash
| EHex (digits : list N).

Inductive pstate : Type :=
| PValue (stk : list container) (may_close : bool)
| PKey (stk : list container) (may_close : bool)
| PColon (stk : list container) (key : string)
| PAfter (stk : list container)
| PDone (v : value)
| PWord (stk : list container) (w_rev : list ascii)
| PString (stk : list container) (is_key : bool) (s_rev : list ascii)
    (high : option N) (esc : escape)
| PFail.

(** A value is complete: it is the whole text, an array element or a
    property value. *)
Definition complete (stk : list container) (v : value) : pstate :=
  match stk with
  | [] => PDone v
  | CArr acc :: outer => PAfter (CArr (v :: acc) :: outer)
  | CObjV props key :: outer => PAfter (CObj (obj_set props key v) :: outer)
  | CObj _ :: _ => PFail
  end.

(** A character outside words and strings. *)
Definition step_token (st : pstate) (c : ascii) : pstate :=
  match st with
  | PValue stk may_close =>
      if is_ws c then st
      else if Ascii.eqb c "["%char then PValue (CArr [] :: stk) true
      else if Ascii.eqb c "{"%char then PKey (CObj [] :: stk) true
      else if Ascii.eqb c DQUOTE then PString stk false [] None ENone
      else if Ascii.eqb c "]"%char then
        match may_close, stk with
        | true, CArr acc :: outer => complete outer (JArr (rev acc))
        | _, _ => PFail
        end
      else if is_delimiter c then PFail
      else PWord stk [c]
  | PKey stk may_close =>
      if is_ws c then st
      else if Ascii.eqb c DQUOTE then PString stk true [] None ENone
      else if Ascii.eqb c "}"%char then
        match may_close, stk with
        | true, CObj props :: outer => complete outer (JObj props)
        | _, _ => PFail
        end
      else PFail
  | PColon stk key =>
      if is_ws c then st
      else if Ascii.eqb c ":"%char then
        match stk with
        | CObj props :: outer => PValue (CObjV props key :: outer) false
        | _ => PFail
        end
      else PFail
  | PAfter stk =>
      if is_ws c then st
      else if Ascii.eqb c ","%char then
        match stk with
        | CArr _ :: _ => PValue stk false
        | CObj _ :: _ => PKey stk false
        | _ => PFail
        end
      else if Ascii.eqb c "]"%char then
        match stk with
        | CArr acc :: outer => complete outer (JArr (rev acc))
        | _ => PFail
        end
      else if Ascii.eqb c "}"%char then
        match stk with
        | CObj props :: outer => complete outer (JObj props)
        | _ => PFail
        end
      else PFail
  | PDone _ => if is_ws c then st else PFail
  | _ => PFail
  end.

(** String contents are collected in reverse.  A high surrogate from a
    [\u] escape waits for a low one to pair with. *)
Definition flush (s_rev : list ascii) (high : option N) : list ascii :=
  match high with
  | Some h => rev (utf8 h) ++ s_rev
  | None => s_rev
  end.

Definition add_unit (s_rev : list ascii) (high : option N) (u : N)
  : list ascii * option N :=
  match high with
  | Some h =>
      if is_low_surrogate u then
        (rev (utf8 (65536 + (h - 55296) * 1024 + (u - 56320))%N) ++ s_rev,
         None)
      else if is_high_surrogate u then (flush s_rev high, Some u)
      else (rev (utf8 u) ++ flush s_rev high, None)
  | None =>
      if is_high_surrogate u then (s_rev, Some u)
      else (rev (utf8 u) ++ s_rev, None)
  end.

Definition unescape (c : ascii) : option ascii :=
  if Ascii.eqb c DQUOTE || Ascii.eqb c BACKSLASH || Ascii.eqb c "/"%char
  then Some c
  else if Ascii.eqb c "b"%char then Some "008"%char
  else if Ascii.eqb c "f"%char then Some "012"%char
  else if Ascii.eqb c "n"%char then Some "010"%char
  else if Ascii.eqb c "r"%char then Some "013"%char
  else if Ascii.eqb c "t"%char then Some "009"%char
  else None.

Definition step_char (st : pstate) (c : ascii) : pstate :=
  match st with
  | PWord stk w =>
      if is_delimiter c then
        match word_value (text_of w) with
        | Some v => step_token (complete stk v) c
        | None => PFail
        end
      else PWord stk (c :: w)
  | PString stk is_key s high ENone =>
      if Ascii.eqb c DQUOTE then
        let str := text_of (flush s high) in
        if is_key then PColon stk str else complete stk (JStr str)
      else if Ascii.eqb c BACKSLASH then PString stk is_key s high EBackslash
      else if (code c <? 32)%N then PFail
      else PString stk is_key (c :: flush s high) None ENone
  | PString stk is_key s high EBackslash =>
      if Ascii.eqb c "u"%char then PString stk is_key s high (EHex [])
      else match unescape c with
           | Some d => PString stk is_key (d :: flush s high) None ENone
           | None => PFail
           end
  | PString stk is_key s high (EHex digits) =>
      match hex_value c, digits with
      | None, _ => PFail
      | Some d, [d1; d2; d3] =>
          let (s', high') :=
            add_unit s high (((d1 * 16 + d2) * 16 + d3) * 16 + d)%N in
          PString stk is_key s' high' ENone
      | Some d, _ => PString stk is_key s high (EHex (digits ++ [d]))
      end
  | _ => step_token st c
  end.

Fixpoint run_parser (st : pstate) (text : string) : pstate :=
  match text with
  | EmptyString => st
  | String c rest => run_parser (step_char st c) rest
  end.

Definition parse_json (text : string) : option value :=
  match run_parser (PValue [] false) text with
  | PDone v => Some v
  | PWord [] w => word_value (text_of w)
  | _ => None
  end.

(** [JSON.parse(text)] *)
Definition JSON_parse {engine : Engine} (text : string) : completion value :=
  match parse_json text with
  | Some v => Normal v
  | None => Throw (SyntaxError_message text)
  end.

(** JSON texts are written below with an apostrophe wherever the text has
    a double quote; [quoted] puts the double quotes back. *)
Fixpoint quoted (s : string) : string :=
  match s with
  | EmptyString => EmptyString
  | String c r =>
      String (if Ascii.eqb c "'"%char then DQUOTE else c) (quoted r)
  end.

(** [!line.trim()]: the line consists of white space and line terminators
    only (the code points 9 to 13, 32, U+00A0, U+1680, U+2000 to U+200A,
    U+2028, U+2029, U+202F, U+205F, U+3000 and U+FEFF). *)
Fixpoint blank (s : string) : bool :=
  match s with
  | EmptyString => true
  | String c r =>
      let n := code c in
      if ((9 <=? n) && (n <=? 13) || (n =? 32))%N then blank r
      else match r with
           | String c1 r1 =>
               let n1 := code c1 in
               if ((n =? 194) && (n1 =? 160))%N then blank r1
               else match r1 with
                    | String c2 r2 =>
                        let n2 := code c2 in
                        if ((n =? 225) && (n1 =? 154) && (n2 =? 128)
                            || (n =? 226) && (n1 =? 128) &&
                               ((128 <=? n2) && (n2 <=? 138) || (n2 =? 168)
                                || (n2 =? 169) || (n2 =? 175))
                            || (n =? 226) && (n1 =? 129) && (n2 =? 159)
                            || (n =? 227) && (n1 =? 128) && (n2 =? 128)
                            || (n =? 239) && (n1 =? 187) && (n2 =? 191))%N
                        then blank r2
                        else false
                    | EmptyString => false
                    end
           | EmptyString => false
           end
  end.

(** ** The servers *)

Definition MCP_PROTOCOL_VERSION : string := "2024-11-05".

(** A request to an external collaborator that is under way: the API
    method a tool maps to ([getPrice], [getKMBETA], ...), which has made
    its HTTP request and waits for the reply, and its arguments.  The
    result of the method reaches the engine as the settlement of the
    promise that [handleToolsCall] awaits. *)
Inductive upstream : Type :=
| Call (method : string) (args : list value).

(** What differs between the server classes. *)
Record server : Type := {
  SERVER_NAME : string;
  SERVER_VERSION : string;
  defineTools : list value;
  (** [handleToolCall(toolName, args)] up to the first [await] of the
      API method it calls: [Normal] when the method has made its request
      and waits for the reply, [Throw] when an exception ends the call
      before anything is awaited *)
  handleToolCall : value -> value -> completion upstream
}.

Definition iTick_tools : list value :=
  [JObj [
    ("name", JStr "itick_search_symbol");
    ("description", JStr "Search for stock symbol information (搜索股票代碼)");
    ("inputSchema", JObj [
      ("type", JStr "object");
      ("properties", JObj [
        ("type", JObj [
          ("type", JStr "string");
          ("enum", JArr [JStr "stock"; JStr "crypto"; JStr "forex"; JStr "index"]);
          ("description", JStr "Asset type");
          ("default", JStr "stock")]);
        ("region", JObj [
          ("type", JStr "string");
          ("enum", JArr [JStr "hk"; JStr "us"; JStr "cn"; JStr "sg"; JStr "jp"]);
          ("description", JStr "Market region: hk (香港), us (美國), cn (中國), sg (新加坡), jp (日本)");
          ("default", JStr "hk")]);
        ("code", JObj [
          ("type", JStr "string");
          ("description", JStr "Stock code or symbol (股票代碼)")])]);
      ("required", JArr [JStr "code"])])];
   JObj [
    ("name", JStr "itick_get_price");
    ("description", JStr "Get real-time stock price (獲取實時股票價格)");
    ("inputSchema", JObj [
      ("type", JStr "object");
      ("properties", JObj [
        ("region", JObj [
          ("type", JStr "string");
          ("enum", JArr [JStr "hk"; JStr "us"; JStr "cn"; JStr "sg"; JStr "jp"]);
          ("description", JStr "Market region");
          ("default", JStr "hk")]);
        ("code", JObj [
          ("type", JStr "string");
          ("description", JStr "Stock code (股票代碼)")])]);
      ("required", JArr [JStr "code"])])];
   JObj [
    ("name", JStr "itick_get_kline");
    ("description", JStr "Get stock K-line/historical data (獲取股票K線/歷史數據)");
    ("inputSchema", JObj [
      ("type", JStr "object");
      ("properties", JObj [
        ("region", JObj [
          ("type", JStr "string");
          ("enum", JArr [JStr "hk"; JStr "us"; JStr "cn"; JStr "sg"; JStr "jp"]);
          ("description", JStr "Market region");
          ("default", JStr "hk")]);
        ("code", JObj [
          ("type", JStr "string");
          ("description", JStr "Stock code (股票代碼)")]);
        ("period", JObj [
          ("type", JStr "string");
          ("enum", JArr [JStr "1m"; JStr "5m"; JStr "15m"; JStr "30m"; JStr "1h"; JStr "1d"; JStr "1w"; JStr "1M"]);
          ("description", JStr "Time period: 1m, 5m, 15m, 30m, 1h, 1d, 1w, 1M");
          ("default", JStr "1d")]);
        ("limit", JObj [
          ("type", JStr "number");
          ("description", JStr "Number of data points");
          ("default", JNum "30")])]);
      ("required", JArr [JStr "code"])])];
   JObj [
    ("name", JStr "itick_get_quote");
    ("description", JStr "Get detailed stock quote (獲取詳細股票報價)");
    ("inputSchema", JObj [
      ("type", JStr "object");
      ("properties", JObj [
        ("region", JObj [
          ("type", JStr "string");
          ("enum", JArr [JStr "hk"; JStr "us"; JStr "cn"; JStr "sg"; JStr "jp"]);
          ("description", JStr "Market region");
          ("default", JStr "hk")]);
        ("code", JObj [
          ("type", JStr "string");
          ("description", JStr "Stock code (股票代碼)")])]);
      ("required", JArr [JStr "code"])])];
   JObj [
    ("name", JStr "itick_get_depth");
    ("description", JStr "Get order book depth (獲取盤口深度)");
    ("inputSchema", JObj [
      ("type", JStr "object");
      ("properties", JObj [
        ("region", JObj [
          ("type", JStr "string");
          ("enum", JArr [JStr "hk"; JStr "us"; JStr "cn"; JStr "sg"; JStr "jp"]);
          ("description", JStr "Market region");
          ("default", JStr "hk")]);
        ("code", JObj [
          ("type", JStr "string");
          ("description", JStr "Stock code (股票代碼)")])]);
      ("required", JArr [JStr "code"])])];
   JObj [
    ("name", JStr "itick_get_trades");
    ("description", JStr "Get recent trades (獲取最近成交)");
    ("inputSchema", JObj [
      ("type", JStr "object");
      ("properties", JObj [
        ("region", JObj [
          ("type", JStr "string");
          ("enum", JArr [JStr "hk"; JStr "us"; JStr "cn"; JStr "sg"; JStr "jp"]);
          ("description", JStr "Market region");
          ("default", JStr "hk")]);
        ("code", JObj [
          ("type", JStr "string");
          ("description", JStr "Stock code (股票代碼)")])]);
      ("required", JArr [JStr "code"])])]].

Definition HKGov_tools : list value :=
  [JObj [
    ("name", JStr "hko_local_forecast");
    ("description", JStr "Get Hong Kong local weather forecast (香港本地天氣預報)");
    ("inputSchema", JObj [
      ("type", JStr "object");
      ("properties", JObj [
        ("language", JObj [
          ("type", JStr "string");
          ("enum", JArr [JStr "en"; JStr "tc"; JStr "sc"]);
          ("description", JStr "Language: en (English), tc (繁體中文), sc (簡體中文)");
          ("default", JStr "tc")])])])];
   JObj [
    ("name", JStr "hko_9day_forecast");
    ("description", JStr "Get Hong Kong 9-day weather forecast (香港9天天氣預報)");
    ("inputSchema", JObj [
      ("type", JStr "object");
      ("properties", JObj [
        ("language", JObj [
          ("type", JStr "string");
          ("enum", JArr [JStr "en"; JStr "tc"; JStr "sc"]);
          ("description", JStr "Language: en (English), tc (繁體中文), sc (簡體中文)");
          ("default", JStr "tc")])])])];
   JObj [
    ("name", JStr "hko_current_weather");
    ("description", JStr "Get current weather conditions in Hong Kong (香港實時天氣)");
    ("inputSchema", JObj [
      ("type", JStr "object");
      ("properties", JObj [
        ("language", JObj [
          ("type", JStr "string");
          ("enum", JArr [JStr "en"; JStr "tc"; JStr "sc"]);
          ("description", JStr "Language: en (English), tc (繁體中文), sc (簡體中文)");
          ("default", JStr "tc")])])])];
   JObj [
    ("name", JStr "hko_weather_warnings");
    ("description", JStr "Get weather warnings in Hong Kong (香港天氣警告)");
    ("inputSchema", JObj [
      ("type", JStr "object");
      ("properties", JObj [
        ("language", JObj [
          ("type", JStr "string");
          ("enum", JArr [JStr "en"; JStr "tc"; JStr "sc"]);
          ("description", JStr "Language: en (English), tc (繁體中文), sc (簡體中文)");
          ("default", JStr "tc")])])])];
   JObj [
    ("name", JStr "hko_special_tips");
    ("description", JStr "Get special weather tips for Hong Kong (香港特別天氣提示)");
    ("inputSchema", JObj [
      ("type", JStr "object");
      ("properties", JObj [
        ("language", JObj [
          ("type", JStr "string");
          ("enum", JArr [JStr "en"; JStr "tc"; JStr "sc"]);
          ("description", JStr "Language: en (English), tc (繁體中文), sc (簡體中文)");
          ("default", JStr "tc")])])])];
   JObj [
    ("name", JStr "hko_earthquake_info");
    ("description", JStr "Get earthquake information (地震資訊)");
    ("inputSchema", JObj [
      ("type", JStr "object");
      ("properties", JObj [
        ("language", JObj [
          ("type", JStr "string");
          ("enum", JArr [JStr "en"; JStr "tc"; JStr "sc"]);
          ("description", JStr "Language: en (English), tc (繁體中文), sc (簡體中文)");
          ("default", JStr "tc")])])])];
   JObj [
    ("name", JStr "td_traffic_speed");
    ("description", JStr "Get Hong Kong traffic speed map data (香港交通速度圖)");
    ("inputSchema", JObj [
      ("type", JStr "object");
      ("properties", JObj [])])];
   JObj [
    ("name", JStr "ha_ae_waiting_time");
    ("description", JStr "Get A&E waiting time for Hong Kong hospitals (公立醫院急症室輪候時間)");
    ("inputSchema", JObj [
      ("type", JStr "object");
      ("properties", JObj [])])];
   JObj [
    ("name", JStr "kmb_get_routes");
    ("description", JStr "Get all KMB bus routes (九巴路線列表)");
    ("inputSchema", JObj [
      ("type", JStr "object");
      ("properties", JObj [])])];
   JObj [
    ("name", JStr "kmb_get_stops");
    ("description", JStr "Get all KMB bus stops (九巴巴士站列表)");
    ("inputSchema", JObj [
      ("type", JStr "object");
      ("properties", JObj [])])];
   JObj [
    ("name", JStr "kmb_get_eta");
    ("description", JStr "Get KMB bus ETA for a specific stop and route (查詢九巴到站時間)");
    ("inputSchema", JObj [
      ("type", JStr "object");
      ("properties", JObj [
        ("stop_id", JObj [
          ("type", JStr "string");
          ("description", JStr "Stop ID (巴士站編號)")]);
        ("route", JObj [
          ("type", JStr "string");
          ("description", JStr "Route number (路線號碼)")]);
        ("direction", JObj [
          ("type", JStr "string");
          ("enum", JArr [JStr "inbound"; JStr "outbound"]);
          ("description", JStr "Direction: inbound or outbound")])]);
      ("required", JArr [JStr "stop_id"; JStr "route"; JStr "direction"])])]].

Definition HKO_tools : list value :=
  [JObj [
    ("name", JStr "hko_local_forecast");
    ("description", JStr "Get Hong Kong local weather forecast (香港本地天氣預報)");
    ("inputSchema", JObj [
      ("type", JStr "object");
      ("properties", JObj [
        ("language", JObj [
          ("type", JStr "string");
          ("enum", JArr [JStr "en"; JStr "tc"; JStr "sc"]);
          ("description", JStr "Language: en (English), tc (繁體中文), sc (簡體中文)");
          ("default", JStr "tc")])])])];
   JObj [
    ("name", JStr "hko_9day_forecast");
    ("description", JStr "Get Hong Kong 9-day weather forecast (香港9天天氣預報)");
    ("inputSchema", JObj [
      ("type", JStr "object");
      ("properties", JObj [
        ("language", JObj [
          ("type", JStr "string");
          ("enum", JArr [JStr "en"; JStr "tc"; JStr "sc"]);
          ("description", JStr "Language: en (English), tc (繁體中文), sc (簡體中文)");
          ("default", JStr "tc")])])])];
   JObj [
    ("name", JStr "hko_current_weather");
    ("description", JStr "Get current weather conditions in Hong Kong (香港實時天氣)");
    ("inputSchema", JObj [
      ("type", JStr "object");
      ("properties", JObj [
        ("language", JObj [
          ("type", JStr "string");
          ("enum", JArr [JStr "en"; JStr "tc"; JStr "sc"]);
          ("description", JStr "Language: en (English), tc (繁體中文), sc (簡體中文)");
          ("default", JStr "tc")])])])];
   JObj [
    ("name", JStr "hko_weather_warnings");
    ("description", JStr "Get weather warnings in Hong Kong (香港天氣警告)");
    ("inputSchema", JObj [
      ("type", JStr "object");
      ("properties", JObj [
        ("language", JObj [
          ("type", JStr "string");
          ("enum", JArr [JStr "en"; JStr "tc"; JStr "sc"]);
          ("description", JStr "Language: en (English), tc (繁體中文), sc (簡體中文)");
          ("default", JStr "tc")])])])];
   JObj [
    ("name", JStr "hko_special_tips");
    ("description", JStr "Get special weather tips for Hong Kong (香港特別天氣提示)");
    ("inputSchema", JObj [
      ("type", JStr "object");
      ("properties", JObj [
        ("language", JObj [
          ("type", JStr "string");
          ("enum", JArr [JStr "en"; JStr "tc"; JStr "sc"]);
          ("description", JStr "Language: en (English), tc (繁體中文), sc (簡體中文)");
          ("default", JStr "tc")])])])];
   JObj [
    ("name", JStr "hko_earthquake_info");
    ("description", JStr "Get earthquake information (地震資訊)");
    ("inputSchema", JObj [
      ("type", JStr "object");
      ("properties", JObj [
        ("language", JObj [
          ("type", JStr "string");
          ("enum", JArr [JStr "en"; JStr "tc"; JStr "sc"]);
          ("description", JStr "Language: en (English), tc (繁體中文), sc (簡體中文)");
          ("default", JStr "tc")])])])];
   JObj [
    ("name", JStr "hko_tsunami_info");
    ("description", JStr "Get tsunami information (海嘯資訊)");
    ("inputSchema", JObj [
      ("type", JStr "object");
      ("properties", JObj [
        ("language", JObj [
          ("type", JStr "string");
          ("enum", JArr [JStr "en"; JStr "tc"; JStr "sc"]);
          ("description", JStr "Language: en (English), tc (繁體中文), sc (簡體中文)");
          ("default", JStr "tc")])])])];
   JObj [
    ("name", JStr "hko_all_weather");
    ("description", JStr "Get all weather information at once (獲取所有天氣資訊)");
    ("inputSchema", JObj [
      ("type", JStr "object");
      ("properties", JObj [
        ("language", JObj [
          ("type", JStr "string");
          ("enum", JArr [JStr "en"; JStr "tc"; JStr "sc"]);
          ("description", JStr "Language: en (English), tc (繁體中文), sc (簡體中文)");
          ("default", JStr "tc")])])])]].

(** ** Requests to the collaborators

    [https.request] and [http.request] (Node's [ClientRequest]) throw at
    once, with a [TypeError] of code [ERR_UNESCAPED_CHARACTERS], when the
    path has a character outside U+0021..U+00FF; host, port, method and
    headers are constants of the servers that pass.  In the executor of
    the promise the servers wrap the request in, the exception rejects
    the promise, and no request is made. *)
Definition ERR_UNESCAPED_CHARACTERS : string :=
  "Request path contains unescaped characters".

(** [INVALID_PATH_REGEX.test(path)] on the UTF-8 bytes of [path]: a
    character up to U+007F is one byte, a character from U+0080 to U+00FF
    is a lead byte 194 or 195 and one more byte, and every other character
    starts with a greater byte. *)
Fixpoint unescaped_characters (path : string) : bool :=
  match path with
  | EmptyString => false
  | String c r =>
      let n := code c in
      if (n <? 33)%N then true
      else if (n <? 128)%N then unescaped_characters r
      else if (n =? 194)%N || (n =? 195)%N then
        match r with
        | EmptyString => true
        | String _ r' => unescaped_characters r'
        end
      else true
  end.

Section Servers.
Context {engine : Engine}.

(** [fetchITick(path)], [httpsRequest(hostname, path)],
    [httpRequest(hostname, path)] and [fetchHKO(path)] up to the return
    of the promise: rejected when the request is refused, and otherwise
    waiting for the reply. *)
Definition request (path : string) : completion string :=
  if unescaped_characters path then Throw ERR_UNESCAPED_CHARACTERS
  else Normal path.

(** An API method up to its [await]: the path is built, the request is
    made, and the method waits for the reply.  An exception on the way
    rejects the promise of the method before anything is awaited. *)
Definition awaiting (path : completion string) (call : upstream)
  : completion upstream :=
  p <- path ;;
  _ <- request p ;;
  Normal call.

(** *** iTick *)

(** The paths the six API methods ask [api.itick.org] for. *)
Definition searchSymbol_path (type region code : value) : completion string :=
  t <- ToString type ;;
  r <- ToString region ;;
  c <- ToString code ;;
  Normal ("/symbol/list?type=" +++ t +++ "&region=" +++ r +++ "&code=" +++ c).

Definition getPrice_path (region code : value) : completion string :=
  r <- ToString region ;;
  c <- ToString code ;;
  Normal ("/quote?region=" +++ r +++ "&code=" +++ c).

Definition getKline_path (region code period limit : value)
  : completion string :=
  r <- ToString region ;;
  c <- ToString code ;;
  p <- ToString period ;;
  l <- ToString limit ;;
  Normal ("/kline?region=" +++ r +++ "&code=" +++ c +++ "&period=" +++ p
          +++ "&limit=" +++ l).

Definition getQuote_path (region code : value) : completion string :=
  r <- ToString region ;;
  c <- ToString code ;;
  Normal ("/quote?region=" +++ r +++ "&code=" +++ c).

Definition getDepth_path (region code : value) : completion string :=
  r <- ToString region ;;
  c <- ToString code ;;
  Normal ("/depth?region=" +++ r +++ "&code=" +++ c).

Definition getTrades_path (region code : value) : completion string :=
  r <- ToString region ;;
  c <- ToString code ;;
  Normal ("/trades?region=" +++ r +++ "&code=" +++ c).

Definition searchSymbol (type region code : value) : completion upstream :=
  awaiting (searchSymbol_path type region code)
    (Call "searchSymbol" [type; region; code]).

Definition getPrice (region code : value) : completion upstream :=
  awaiting (getPrice_path region code) (Call "getPrice" [region; code]).

Definition getKline (region code period limit : value)
  : completion upstream :=
  awaiting (getKline_path region code period limit)
    (Call "getKline" [region; code; period; limit]).

Definition getQuote (region code : value) : completion upstream :=
  awaiting (getQuote_path region code) (Call "getQuote" [region; code]).

Definition getDepth (region code : value) : completion upstream :=
  awaiting (getDepth_path region code) (Call "getDepth" [region; code]).

Definition getTrades (region code : value) : completion upstream :=
  awaiting (getTrades_path region code) (Call "getTrades" [region; code]).

(** [iTickMCPServer.handleToolCall] *)
Definition iTick_handleToolCall (toolName args : value)
  : completion upstream :=
  let region := or_else (OptGet args "region") (JStr "hk") in
  let code := OptGet args "code" in
  if negb (ToBoolean code) then Throw "Stock code is required"
  else if is_str toolName "itick_search_symbol" then
    searchSymbol (or_else (OptGet args "type") (JStr "stock")) region code
  else if is_str toolName "itick_get_price" then
    getPrice region code
  else if is_str toolName "itick_get_kline" then
    getKline region code
      (or_else (OptGet args "period") (JStr "1d"))
      (or_else (OptGet args "limit") (JNum "30"))
  else if is_str toolName "itick_get_quote" then
    getQuote region code
  else if is_str toolName "itick_get_depth" then
    getDepth region code
  else if is_str toolName "itick_get_trades" then
    getTrades region code
  else
    name <- ToString toolName ;;
    Throw ("Unknown tool: " +++ name).

(** *** HK Gov *)

(** [`${prefix}${lang}`], the path of the observatory's data sets. *)
Definition with_lang (prefix : string) (lang : value) : completion string :=
  l <- ToString lang ;;
  Normal (prefix +++ l).

Definition getHKOLocalForecast (lang : value) : completion upstream :=
  awaiting
    (with_lang "/weatherAPI/opendata/weather.php?dataType=flw&lang=" lang)
    (Call "getHKOLocalForecast" [lang]).

Definition getHKO9DayForecast (lang : value) : completion upstream :=
  awaiting
    (with_lang "/weatherAPI/opendata/weather.php?dataType=fnd&lang=" lang)
    (Call "getHKO9DayForecast" [lang]).

Definition getHKOCurrentWeather (lang : value) : completion upstream :=
  awaiting
    (with_lang "/weatherAPI/opendata/weather.php?dataType=rhrread&lang="
       lang)
    (Call "getHKOCurrentWeather" [lang]).

Definition getHKOWarnings (lang : value) : completion upstream :=
  awaiting
    (with_lang "/weatherAPI/opendata/weather.php?dataType=warnsum&lang="
       lang)
    (Call "getHKOWarnings" [lang]).

Definition getHKOSpecialTips (lang : value) : completion upstream :=
  awaiting
    (with_lang "/weatherAPI/opendata/weather.php?dataType=swt&lang=" lang)
    (Call "getHKOSpecialTips" [lang]).

Definition getHKOEarthquake (lang : value) : completion upstream :=
  awaiting
    (with_lang "/weatherAPI/opendata/earthquake.php?dataType=eqinfo&lang="
       lang)
    (Call "getHKOEarthquake" [lang]).

(** [HK_APIS.tdTraffic.endpoints.trafficSpeed] *)
Definition getTrafficSpeed : completion upstream :=
  awaiting (Normal "/v1/transport/traffic-speed-map")
    (Call "getTrafficSpeed" []).

(** [HK_APIS.ha.endpoints.aewaiting], over [httpRequest] *)
Definition getAEWaitingTime : completion upstream :=
  awaiting (Normal "/opendata/aed/aedwtdata-en.json")
    (Call "getAEWaitingTime" []).

(** [HK_APIS.busEta.endpoints.kmbRoutes] *)
Definition getKMBRoutes : completion upstream :=
  awaiting (Normal "/v1/transport/kmb/route/") (Call "getKMBRoutes" []).

(** [HK_APIS.busEta.endpoints.kmbStops] *)
Definition getKMBStops : completion upstream :=
  awaiting (Normal "/v1/transport/kmb/stop/") (Call "getKMBStops" []).

(** The path [getKMBETA(stop_id, route, direction)] asks
    [HK_APIS.busEta.baseUrl] for:
    [`/v1/transport/kmb/eta/${stop_id}/${route}/${direction}/`]. *)
Definition getKMBETA_path (stop_id route direction : value)
  : completion string :=
  s <- ToString stop_id ;;
  r <- ToString route ;;
  d <- ToString direction ;;
  Normal ("/v1/transport/kmb/eta/" +++ s +++ "/" +++ r +++ "/" +++ d +++ "/").

Definition getKMBETA (stop_id route direction : value)
  : completion upstream :=
  awaiting (getKMBETA_path stop_id route direction)
    (Call "getKMBETA" [stop_id; route; direction]).

(** [HKGovMCPServer.handleToolCall] *)
Definition HKGov_handleToolCall (toolName args : value)
  : completion upstream :=
  let lang := or_else (OptGet args "language") (JStr "tc") in
  if is_str toolName "hko_local_forecast" then
    getHKOLocalForecast lang
  else if is_str toolName "hko_9day_forecast" then
    getHKO9DayForecast lang
  else if is_str toolName "hko_current_weather" then
    getHKOCurrentWeather lang
  else if is_str toolName "hko_weather_warnings" then
    getHKOWarnings lang
  else if is_str toolName "hko_special_tips" then
    getHKOSpecialTips lang
  else if is_str toolName "hko_earthquake_info" then
    getHKOEarthquake lang
  else if is_str toolName "td_traffic_speed" then
    getTrafficSpeed
  else if is_str toolName "ha_ae_waiting_time" then
    getAEWaitingTime
  else if is_str toolName "kmb_get_routes" then
    getKMBRoutes
  else if is_str toolName "kmb_get_stops" then
    getKMBStops
  else if is_str toolName "kmb_get_eta" then
    stop_id <- Get args "stop_id" ;;
    route <- Get args "route" ;;
    direction <- Get args "direction" ;;
    getKMBETA stop_id route direction
  else
    name <- ToString toolName ;;
    Throw ("Unknown tool: " +++ name).

(** *** HKO *)

Definition getLocalForecast (lang : value) : completion upstream :=
  awaiting
    (with_lang "/weatherAPI/opendata/weather.php?dataType=flw&lang=" lang)
    (Call "getLocalForecast" [lang]).

Definition get9DayForecast (lang : value) : completion upstream :=
  awaiting
    (with_lang "/weatherAPI/opendata/weather.php?dataType=fnd&lang=" lang)
    (Call "get9DayForecast" [lang]).

Definition getCurrentWeather (lang : value) : completion upstream :=
  awaiting
    (with_lang "/weatherAPI/opendata/weather.php?dataType=rhrread&lang="
       lang)
    (Call "getCurrentWeather" [lang]).

Definition getWeatherWarnings (lang : value) : completion upstream :=
  awaiting
    (with_lang "/weatherAPI/opendata/weather.php?dataType=warnsum&lang="
       lang)
    (Call "getWeatherWarnings" [lang]).

Definition getSpecialTips (lang : value) : completion upstream :=
  awaiting
    (with_lang "/weatherAPI/opendata/weather.php?dataType=swt&lang=" lang)
    (Call "getSpecialTips" [lang]).

Definition getEarthquakeInfo (lang : value) : completion upstream :=
  awaiting
    (with_lang "/weatherAPI/opendata/earthquake.php?dataType=eqinfo&lang="
       lang)
    (Call "getEarthquakeInfo" [lang]).

Definition getTsunamiInfo (lang : value) : completion upstream :=
  awaiting
    (with_lang "/weatherAPI/opendata/tsunami.php?dataType=tsinfo&lang="
       lang)
    (Call "getTsunamiInfo" [lang]).

(** [getAllWeather]: the four paths are built and the four requests
    made one after the other, each in the executor of its own promise, so
    that an exception while a path is built ends the method at once,
    while a refused request only rejects its promise; [Promise.all] then
    rejects with the first rejection in the order of the array. *)
Definition getAllWeather (lang : value) : completion upstream :=
  flw <- with_lang "/weatherAPI/opendata/weather.php?dataType=flw&lang="
           lang ;;
  rhrread <- with_lang
               "/weatherAPI/opendata/weather.php?dataType=rhrread&lang="
               lang ;;
  warnsum <- with_lang
               "/weatherAPI/opendata/weather.php?dataType=warnsum&lang="
               lang ;;
  swt <- with_lang "/weatherAPI/opendata/weather.php?dataType=swt&lang="
           lang ;;
  _ <- request flw ;;
  _ <- request rhrread ;;
  _ <- request warnsum ;;
  _ <- request swt ;;
  Normal (Call "getAllWeather" [lang]).

(** [HKOMCPServer.handleToolCall] *)
Definition HKO_handleToolCall (toolName args : value)
  : completion upstream :=
  let lang := or_else (OptGet args "language") (JStr "tc") in
  if is_str toolName "hko_local_forecast" then
    getLocalForecast lang
  else if is_str toolName "hko_9day_forecast" then
    get9DayForecast lang
  else if is_str toolName "hko_current_weather" then
    getCurrentWeather lang
  else if is_str toolName "hko_weather_warnings" then
    getWeatherWarnings lang
  else if is_str toolName "hko_special_tips" then
    getSpecialTips lang
  else if is_str toolName "hko_earthquake_info" then
    getEarthquakeInfo lang
  else if is_str toolName "hko_tsunami_info" then
    getTsunamiInfo lang
  else if is_str toolName "hko_all_weather" then
    getAllWeather lang
  else
    name <- ToString toolName ;;
    Throw ("Unknown tool: " +++ name).

Definition iTick : server := {|
  SERVER_NAME := "itick-mcp-server";
  SERVER_VERSION := "1.0.0";
  defineTools := iTick_tools;
  handleToolCall := iTick_handleToolCall
|}.

Definition HKGov : server := {|
  SERVER_NAME := "hk-gov-mcp-server";
  SERVER_VERSION := "1.0.0";
  defineTools := HKGov_tools;
  handleToolCall := HKGov_handleToolCall
|}.

Definition HKO : server := {|
  SERVER_NAME := "hko-mcp-server";
  SERVER_VERSION := "1.0.0";
  defineTools := HKO_tools;
  handleToolCall := HKO_handleToolCall
|}.

(** The names under which a server lists its tools. *)
Definition tool_names (srv : server) : list value :=
  map (fun tool => prop tool "name") (defineTools srv).

Definition registered (srv : server) (name : string) : Prop :=
  In (JStr name) (tool_names srv).

(** ** The Protocol Handler *)

Section Handler.
Variable srv : server.

Definition handleInitialize (id : value) : value :=
  JObj [("jsonrpc", JStr "2.0");
        ("id", id);
        ("result",
         JObj [("protocolVersion", JStr MCP_PROTOCOL_VERSION);
               ("capabilities", JObj [("tools", JObj [])]);
               ("serverInfo",
                JObj [("name", JStr (SERVER_NAME srv));
                      ("version", JStr (SERVER_VERSION srv))])])].

(** [this.tools] is passed in. *)
Definition handleToolsList (this_tools : list value) (id : value) : value :=
  JObj [("jsonrpc", JStr "2.0");
        ("id", id);
        ("result", JObj [("tools", JArr this_tools)])].

(** The two [return] statements of [handleToolsCall]. *)
Definition tool_result (id result : value) : value :=
  JObj [("jsonrpc", JStr "2.0");
        ("id", id);
        ("result",
         JObj [("content", JArr [result]); ("isError", JBool false)])].

Definition tool_failure (id : value) (message : string) : value :=
  JObj [("jsonrpc", JStr "2.0");
        ("id", id);
        ("result",
         JObj [("content",
                JArr [JObj [("type", JStr "text");
                            ("text", JStr ("Error: " +++ message))]]);
               ("isError", JBool true)])].

(** The promise [handleToolsCall] returns: fulfilled with a response
    before the event loop takes its next event (nothing was awaited but
    promises that are already settled), or waiting for a collaborator on
    behalf of request [id]. *)
Inductive promise : Type :=
| Fulfilled (response : value)
| Pending (id : value) (call : upstream).

(** [handleToolsCall(id, params)].  The [try] block covers the reading of
    [params.name] and [params.arguments] and the awaited dispatch.  The
    promise is [Pending] when the API method of the tool has made its
    request and waits for the reply; an exception before that, in the
    dispatcher or in the method while it builds the path and makes the
    request, is caught at once. *)
Definition handleToolsCall (id params : value) : promise :=
  match
    name <- Get params "name" ;;
    arguments <- Get params "arguments" ;;
    handleToolCall srv name arguments
  with
  | Normal call => Pending id call
  | Throw message => Fulfilled (tool_failure id message)
  end.

(** The rest of [handleToolsCall] once the collaborator has answered or
    failed: the awaited [handleToolCall] returns [result] or throws. *)
Definition handleToolsCall_settled (id : value) (o : completion value)
  : value :=
  match o with
  | Normal result => tool_result id result
  | Throw message => tool_failure id message
  end.

Definition method_not_found (id : value) (method : string) : value :=
  JObj [("jsonrpc", JStr "2.0");
        ("id", id);
        ("error",
         JObj [("code", JNum "-32601");
               ("message", JStr ("Method not found: " +++ method))])].

Definition parse_error (message : string) : value :=
  JObj [("jsonrpc", JStr "2.0");
        ("error",
         JObj [("code", JNum "-32700");
               ("message", JStr ("Parse error: " +++ message))])].

(** The [try] block of the loop body, up to [await]. *)
Definition try_block (this_tools : list value) (line : string)
  : completion promise :=
  message <- JSON_parse line ;;
  method <- Get message "method" ;;
  if is_str method "initialize" then
    id <- Get message "id" ;;
    Normal (Fulfilled (handleInitialize id))
  else if is_str method "tools/list" then
    id <- Get message "id" ;;
    Normal (Fulfilled (handleToolsList this_tools id))
  else if is_str method "tools/call" then
    id <- Get message "id" ;;
    params <- Get message "params" ;;
    Normal (handleToolsCall id params)
  else
    id <- Get message "id" ;;
    method' <- Get message "method" ;;
    name <- ToString method' ;;
    Normal (Fulfilled (method_not_found id name)).

(** One iteration of [for (const line of lines)], as far as it gets
    without waiting. *)
Inductive iteration : Type :=
| Skipped
| Written (response : value)
| Suspended (id : value) (call : upstream).

Definition iterate (this_tools : list value) (line : string) : iteration :=
  if blank line then Skipped
  else match try_block this_tools line with
       | Normal (Fulfilled response) => Written response
       | Normal (Pending id call) => Suspended id call
       | Throw message => Written (parse_error message)
       end.

End Handler.
End Servers.

(** ** The Session Loop

    Node delivers one event at a time to [run]'s listeners: a chunk of
    standard input (['data']), the end of standard input (['end']), or,
    between those, the answer of a collaborator, which resumes the listener
    invocation that awaits it.  A listener invocation runs until it has
    gone through its lines or has to wait.  Several invocations, each for
    its own chunk, can be waiting at the same time; an invocation is named
    by the number of its chunk. *)

(** A listener invocation waiting at [await this.handleToolsCall(...)]:
    the line it is at, the request it waits for and the lines it has yet to
    go through. *)
Record task : Type := {
  chunk_no : nat;
  line_no : nat;
  awaited_id : value;
  awaited_call : upstream;
  remaining : list string
}.

(** One [stdout.write(JSON.stringify(response) + '\n')].  [origin], the
    chunk and the line in it that the response answers, is bookkeeping for
    stating properties; the program does not have it. *)
Record output : Type := {
  origin : nat * nat;
  response : value
}.

Record session : Type := {
  alive : bool;              (* [process.exit] has not been called *)
  buffer : string;           (* [let buffer] of [run] *)
  this_tools : list value;   (* [this.tools] *)
  chunks_seen : nat;         (* number of ['data'] events so far *)
  tasks : list task;
  stdout : list output
}.

Inductive event : Type :=
| Data (chunk : string)
| Settle (chunk : nat) (o : completion value)
| End.

Section Session.
Context {engine : Engine}.
Variable srv : server.

(** [new Server()] followed by [run()]: the constructor fills [this.tools]. *)
Definition start : session := {|
  alive := true;
  buffer := "";
  this_tools := defineTools srv;
  chunks_seen := 0;
  tasks := [];
  stdout := []
|}.

Definition write (o : nat * nat) (r : value) (s : session) : session := {|
  alive := alive s;
  buffer := buffer s;
  this_tools := this_tools s;
  chunks_seen := chunks_seen s;
  tasks := tasks s;
  stdout := stdout s ++ [{| origin := o; response := r |}]
|}.

Definition suspend (t : task) (s : session) : session := {|
  alive := alive s;
  buffer := buffer s;
  this_tools := this_tools s;
  chunks_seen := chunks_seen s;
  tasks := tasks s ++ [t];
  stdout := stdout s
|}.

Definition waits_for (c : nat) (t : task) : bool := Nat.eqb (chunk_no t) c.

Definition resume (c : nat) (s : session) : session := {|
  alive := alive s;
  buffer := buffer s;
  this_tools := this_tools s;
  chunks_seen := chunks_seen s;
  tasks := filter (fun t => negb (waits_for c t)) (tasks s);
  stdout := stdout s
|}.

(** [for (const line of lines)] from line [i] of chunk [c] on. *)
Fixpoint run_lines (c i : nat) (lines : list string) (s : session)
  : session :=
  match lines with
  | [] => s
  | line :: rest =>
      match iterate srv (this_tools s) line with
      | Skipped => run_lines c (S i) rest s
      | Written r => run_lines c (S i) rest (write (c, i) r s)
      | Suspended id call =>
          suspend {| chunk_no := c; line_no := i; awaited_id := id;
                     awaited_call := call; remaining := rest |} s
      end
  end.

(** The ['data'] listener. *)
Definition on_data (chunk : string) (s : session) : session :=
  let (lines, buffer') := read_chunk (buffer s) chunk in
  run_lines (chunks_seen s) 0 lines
    {| alive := alive s;
       buffer := buffer';
       this_tools := this_tools s;
       chunks_seen := S (chunks_seen s);
       tasks := tasks s;
       stdout := stdout s |}.

(** The collaborator awaited by the listener invocation of chunk [c]
    answers or fails: the response is written and the loop goes on. *)
Definition on_settle (c : nat) (o : completion value) (s : session)
  : session :=
  match find (waits_for c) (tasks s) with
  | None => s
  | Some t =>
      run_lines c (S (line_no t)) (remaining t)
        (write (c, line_no t) (handleToolsCall_settled (awaited_id t) o)
           (resume c s))
  end.

(** The ['end'] listener: [process.exit(0)]. *)
Definition on_end (s : session) : session := {|
  alive := false;
  buffer := buffer s;
  this_tools := this_tools s;
  chunks_seen := chunks_seen s;
  tasks := [];
  stdout := stdout s
|}.

Definition step (s : session) (e : event) : session :=
  if alive s then
    match e with
    | Data chunk => on_data chunk s
    | Settle c o => on_settle c o s
    | End => on_end s
    end
  else s.

Definition run (events : list event) : session :=
  fold_left step events start.

Definition responses (s : session) : list value :=
  map response (stdout s).

End Session.

(** ** An engine to run examples with

    The messages are worded after V8's.  Numbers are printed as they were
    written, which is what V8 prints for an integer that was written
    without sign, leading zero, fraction or exponent; a literal is taken
    for zero when its digits before the exponent are all zeros. *)
Fixpoint zero_literal (literal : string) : bool :=
  match literal with
  | EmptyString => true
  | String c r =>
      if is_e c then true
      else (Ascii.eqb c "0"%char || Ascii.eqb c "-"%char
            || Ascii.eqb c "."%char) && zero_literal r
  end.

Definition sample_engine : Engine := {|
  SyntaxError_message := fun text => "Unexpected token in JSON";
  TypeError_read := fun v key =>
    "Cannot read properties of "
    +++ match v with JNull => "null" | _ => "undefined" end
    +++ " (reading '" +++ key +++ "')";
  TypeError_primitive := "Cannot convert object to primitive value";
  Number_toString := fun literal => literal;
  Number_isZero := zero_literal
|}.

(** A frame: a JSON text, written with apostrophes, and its newline. *)
Definition frame (text : string) : string := quoted text +++ String LF "".

Definition text_content (text : string) : value :=
  JObj [("type", JStr "text"); ("text", JStr text)].

(** ** Notions used in the statements *)

(** A character that cannot begin a JSON value and is not a delimiter. *)
Definition junk (c : ascii) : bool :=
  negb (is_delimiter c || is_digit c
        || existsb (Ascii.eqb c) ["n"; "t"; "f"; "-"]%char).

(** The parser has seen nothing but white space, or has failed, or is in a
    word that began with a junk character. *)
Definition stuck (st : pstate) : Prop :=
  st = PValue [] false \/ st = PFail \/
  exists w first, st = PWord [] (w ++ [first]) /\ junk first = true.

(** No value is left half-built: a state that is done holds a value other
    than [undefined]. *)
Definition defined_result (st : pstate) : Prop :=
  match st with
  | PDone v => v <> JUndefined
  | _ => True
  end.

(** How a response reads on the wire: [JSON.stringify] leaves out a
    property whose value is [undefined]. *)
Definition has_field (r : value) (key : string) : bool :=
  match prop r key with
  | JUndefined => false
  | _ => true
  end.

(** [r.error.code], [r.result.isError] and [r.result.content[0].text] *)
Definition error_code (r : value) : value := prop (prop r "error") "code".

Definition isError (r : value) : value := prop (prop r "result") "isError".

Definition content_text (r : value) : value :=
  match prop (prop r "result") "content" with
  | JArr (first :: _) => prop first "text"
  | _ => JUndefined
  end.

(** The order in which frames were read, on their origins: by chunk, then
    by line within the chunk. *)
Definition read_before (a b : output) : Prop :=
  fst (origin a) < fst (origin b)
  \/ (fst (origin a) = fst (origin b) /\ snd (origin a) < snd (origin b)).

(** The same for two frames of one chunk, and nothing said otherwise. *)
Definition read_before_in_chunk (a b : output) : Prop :=
  fst (origin a) = fst (origin b) -> snd (origin a) < snd (origin b).

(** Every response to a frame of chunk [c] written so far is to a line
    before line [i]. *)
Definition chunk_written_up_to (c i : nat) (outs : list output) : Prop :=
  Forall (fun o => fst (origin o) = c -> snd (origin o) < i) outs.

(** Every ['data'] event among [events], delivered from state [s] on,
    finds no listener invocation waiting. *)
Fixpoint serial {engine : Engine} (srv : server) (s : session)
    (events : list event) : Prop :=
  match events with
  | [] => True
  | e :: later =>
      match e with
      | Data _ => tasks s = []
      | _ => True
      end
      /\ serial srv (step srv s e) later
  end.

(** What holds of a session between events, for the order of responses
    within a chunk. *)
Record orderly (s : session) : Prop := {
  outputs_seen :
    Forall (fun o => fst (origin o) < chunks_seen s) (stdout s);
  tasks_seen :
    Forall (fun t => chunk_no t < chunks_seen s) (tasks s);
  tasks_ahead :
    Forall (fun t => chunk_written_up_to (chunk_no t) (line_no t) (stdout s))
      (tasks s);
  outputs_sorted :
    StronglySorted read_before_in_chunk (stdout s)
}.

(** The same for a session in which at most the listener invocation of
    the latest chunk is waiting. *)
Record in_sequence (s : session) : Prop := {
  seq_outputs_seen :
    Forall (fun o => fst (origin o) < chunks_seen s) (stdout s);
  seq_sorted :
    StronglySorted read_before (stdout s);
  seq_tasks :
    tasks s = []
    \/ exists t, tasks s = [t] /\ S (chunk_no t) = chunks_seen s
                 /\ chunk_written_up_to (chunk_no t) (line_no t) (stdout s)
}.

(** The chunks delivered before the input ends. *)
Fixpoint chunks_of (events : list event) : list string :=
  match events with
  | [] => []
  | Data chunk :: later => chunk :: chunks_of later
  | Settle _ _ :: later => chunks_of later
  | End :: _ => []
  end.

(** A text cut into chunks of one byte. *)
Fixpoint bytes (s : string) : list string :=
  match s with
  | EmptyString => []
  | String c r => String c "" :: bytes r
  end.

(** ** Notions for the accounting of frames *)

(** The lines that are not passed over. *)
Definition nonblank (lines : list string) : nat :=
  length (filter (fun line => negb (blank line)) lines).

(** What a waiting listener invocation still has to answer: the request
    it awaits and the lines after it. *)
Definition owed (t : task) : nat := S (nonblank (remaining t)).

Definition outstanding (s : session) : nat :=
  list_sum (map owed (tasks s)).

(** At most one invocation waits per chunk, and only for chunks that have
    arrived. *)
Record tracked (s : session) : Prop := {
  tracked_seen : Forall (fun t => chunk_no t < chunks_seen s) (tasks s);
  tracked_once : NoDup (map chunk_no (tasks s))
}.

(** A JSON-RPC response: version ["2.0"] and, on the wire, either a
    [result] or an [error]. *)
Definition envelope (r : value) : Prop :=
  prop r "jsonrpc" = JStr "2.0"
  /\ (has_field r "result" = true /\ has_field r "error" = false
      \/ has_field r "result" = false /\ has_field r "error" = true).

(** ** JSON.stringify

    [JSON.stringify(v)] without indentation, as the servers and the
    command-line client call it.  [number_json] is the engine's JSON text
    of the number a literal denotes ([String(n)] for a finite number). *)

Definition hex_digit (n : N) : ascii :=
  if (n <? 10)%N then ascii_of_N (48 + n) else ascii_of_N (87 + n).

(** [\uXXXX], in lower-case digits. *)
Definition u_escape (u : N) : string :=
  String BACKSLASH
    (String "u"
       (String (hex_digit (u / 4096))
          (String (hex_digit ((u / 256) mod 16))
             (String (hex_digit ((u / 16) mod 16))
                (String (hex_digit (u mod 16)) ""))))).

(** The characters of a string between the quotes: the quote and the
    backslash get a backslash, the control characters their short escape
    or [\u00XX], and a lone surrogate (three bytes from 237, 160 on) its
    [\uDXXX]. *)
Fixpoint quote_chars (s : string) : string :=
  match s with
  | EmptyString => EmptyString
  | String c r =>
      let n := code c in
      if Ascii.eqb c DQUOTE || Ascii.eqb c BACKSLASH then
        String BACKSLASH (String c (quote_chars r))
      else if (n =? 8)%N then String BACKSLASH (String "b" (quote_chars r))
      else if (n =? 9)%N then String BACKSLASH (String "t" (quote_chars r))
      else if (n =? 10)%N then String BACKSLASH (String "n" (quote_chars r))
      else if (n =? 12)%N then String BACKSLASH (String "f" (quote_chars r))
      else if (n =? 13)%N then String BACKSLASH (String "r" (quote_chars r))
      else if (n <? 32)%N then u_escape n +++ quote_chars r
      else
        match r with
        | String c1 (String c2 r2) =>
            if ((n =? 237) && (160 <=? code c1))%N then
              u_escape (53248 + (code c1 - 128) * 64 + (code c2 - 128))%N
              +++ quote_chars r2
            else String c (quote_chars r)
        | _ => String c (quote_chars r)
        end
  end.

Definition quote (s : string) : string :=
  String DQUOTE (quote_chars s +++ String DQUOTE "").

Fixpoint join_with (sep : string) (pieces : list string) : string :=
  match pieces with
  | [] => ""
  | [piece] => piece
  | piece :: rest => piece +++ sep +++ join_with sep rest
  end.

Section Stringify.
Variable number_json : string -> string.

(** [None] is [undefined]: the result for [undefined] itself.  In an
    array [undefined] is written [null]; a property whose value is
    [undefined] is left out. *)
Fixpoint JSON_stringify (v : value) : option string :=
  match v with
  | JUndefined => None
  | JNull => Some "null"
  | JBool true => Some "true"
  | JBool false => Some "false"
  | JNum literal => Some (number_json literal)
  | JStr s => Some (quote s)
  | JArr elems =>
      Some ("[" +++
            join_with ","
              ((fix items (l : list value) : list string :=
                  match l with
                  | [] => []
                  | x :: rest =>
                      match JSON_stringify x with
                      | Some text => text
                      | None => "null"
                      end :: items rest
                  end) elems)
            +++ "]")
  | JObj props =>
      Some ("{" +++
            join_with ","
              ((fix members (l : list (string * value)) : list string :=
                  match l with
                  | [] => []
                  | (k, x) :: rest =>
                      match JSON_stringify x with
                      | Some text => (quote k +++ ":" +++ text) :: members rest
                      | None => members rest
                      end
                  end) props)
            +++ "}")
  end.

(** [JSON.stringify(message)] as a string operand; [undefined] reads
    ["undefined"] there. *)
Definition message_text (message : value) : string :=
  match JSON_stringify message with
  | Some text => text
  | None => "undefined"
  end.

(** [JSON.stringify(message) + '\n'] *)
Definition wire_line (message : value) : string :=
  message_text message +++ String LF "".

(** Everything written to a stream, in order. *)
Definition wire (messages : list value) : string :=
  join_chunks (map wire_line messages).

End Stringify.

(** The number literals that occur in a value. *)
Fixpoint literals (v : value) : list string :=
  match v with
  | JNum literal => [literal]
  | JArr elems =>
      (fix all (l : list value) : list string :=
         match l with
         | [] => []
         | x :: rest => literals x ++ all rest
         end) elems
  | JObj props =>
      (fix all (l : list (string * value)) : list string :=
         match l with
         | [] => []
         | (_, x) :: rest => literals x ++ all rest
         end) props
  | _ => []
  end.

(** ** The command-line client of the HK Gov server ([hk-gov]) *)

(** [s.trim()]: [s] without the white space and line terminators at
    its two ends. *)
Fixpoint trim_start (s : string) : string :=
  match s with
  | EmptyString => EmptyString
  | String c r =>
      let n := code c in
      if ((9 <=? n) && (n <=? 13) || (n =? 32))%N then trim_start r
      else match r with
           | String c1 r1 =>
               let n1 := code c1 in
               if ((n =? 194) && (n1 =? 160))%N then trim_start r1
               else match r1 with
                    | String c2 r2 =>
                        let n2 := code c2 in
                        if ((n =? 225) && (n1 =? 154) && (n2 =? 128)
                            || (n =? 226) && (n1 =? 128) &&
                               ((128 <=? n2) && (n2 <=? 138) || (n2 =? 168)
                                || (n2 =? 169) || (n2 =? 175))
                            || (n =? 226) && (n1 =? 129) && (n2 =? 159)
                            || (n =? 227) && (n1 =? 128) && (n2 =? 128)
                            || (n =? 239) && (n1 =? 187) && (n2 =? 191))%N
                        then trim_start r2
                        else s
                    | EmptyString => s
                    end
           | EmptyString => s
           end
  end.

Fixpoint trim_end (s : string) : string :=
  if blank s then EmptyString
  else match s with
       | EmptyString => EmptyString
       | String c r => String c (trim_end r)
       end.

Definition trim (s : string) : string := trim_end (trim_start s).

(** The [COMMANDS] table of [hk-gov]: command, tool and description. *)
Definition COMMANDS : list (string * (string * string)) :=
  [("weather", ("hko_local_forecast", "本地天氣預報"));
   ("forecast", ("hko_9day_forecast", "9天天氣預報"));
   ("current", ("hko_current_weather", "實時天氣"));
   ("warnings", ("hko_weather_warnings", "天氣警告"));
   ("tips", ("hko_special_tips", "特別天氣提示"));
   ("earthquake", ("hko_earthquake_info", "地震資訊"));
   ("traffic", ("td_traffic_speed", "交通速度"));
   ("ae", ("ha_ae_waiting_time", "急症室輪候時間"));
   ("hospital", ("ha_ae_waiting_time", "急症室輪候時間"));
   ("kmb-routes", ("kmb_get_routes", "九巴路線"));
   ("kmb-stops", ("kmb_get_stops", "九巴巴士站"))].

(** [args.includes('--tc') ? 'tc' : args.includes('--sc') ? 'sc' : 'tc'] *)
Definition includes (args : list string) (flag : string) : bool :=
  existsb (String.eqb flag) args.

Definition language_option (args : list string) : string :=
  if includes args "--tc" then "tc"
  else if includes args "--sc" then "sc" else "tc".

(** The three requests of [callMCPTool]. *)
Definition initRequest : value :=
  JObj [("jsonrpc", JStr "2.0");
        ("id", JNum "1");
        ("method", JStr "initialize");
        ("params",
         JObj [("protocolVersion", JStr "2024-11-05");
               ("capabilities", JObj []);
               ("clientInfo",
                JObj [("name", JStr "hk-gov-cli");
                      ("version", JStr "1.0.0")])])].

Definition listRequest : value :=
  JObj [("jsonrpc", JStr "2.0");
        ("id", JNum "2");
        ("method", JStr "tools/list")].

Definition callRequest (toolName args : value) : value :=
  JObj [("jsonrpc", JStr "2.0");
        ("id", JNum "3");
        ("method", JStr "tools/call");
        ("params", JObj [("name", toolName); ("arguments", args)])].

(** [content?.[0]?.text] for the value of [response.result?.content]: the
    [text] of the first element of an array, or of the property [0] of an
    object; a string has characters, which have no [text]. *)
Definition first_text (content : value) : value :=
  match content with
  | JArr (first :: _) => OptGet first "text"
  | JObj props => OptGet (own props "0") "text"
  | _ => JUndefined
  end.

Section Client.
Context {engine : Engine}.
Variable number_json : string -> string.

(** What [callMCPTool] writes to the server, one write after the other,
    before it ends the server's input. *)
Definition callMCPTool_writes (toolName args : value) : list string :=
  [wire_line number_json initRequest;
   wire_line number_json listRequest;
   wire_line number_json (callRequest toolName args)].

(** The body of the loop over the lines: the text of the line's
    response, or [undefined], or an exception that the [catch]
    swallows. *)
Definition line_text (line : string) : completion value :=
  response <- JSON_parse line ;;
  result <- Get response "result" ;;
  Normal (first_text (OptGet result "content")).

(** [for (let i = lines.length - 1; i >= 0; i--)], over the lines from the
    last one; [None] when the loop ends without resolving. *)
Fixpoint scan (lines_from_last : list string) : option value :=
  match lines_from_last with
  | [] => None
  | line :: earlier =>
      match line_text line with
      | Normal text => if ToBoolean text then Some text else scan earlier
      | Throw _ => scan earlier
      end
  end.

(** The ['close'] listener of [callMCPTool]: the promise is rejected
    when the server's exit code is not [0], and otherwise resolved with
    the text found, or with the whole output. *)
Definition callMCPTool_close (exit_code : value) (output errorOutput : string)
  : completion value :=
  if match exit_code with
     | JNum literal => Number_isZero literal
     | _ => false
     end
  then
    match scan (rev (split (trim output))) with
    | Some text => Normal text
    | None => Normal (JStr output)
    end
  else
    code <- ToString exit_code ;;
    Throw ("Server exited with code " +++ code +++ ": " +++ errorOutput).

End Client.

(** ** The iTick collaborator: how replies are shown *)

Section iTick_api.
Context {engine : Engine}.

(** [JSON.stringify(v, null, 2)] as a template operand; the indented form
    is the engine's. *)
Variable JSON_stringify_indented : value -> string.

(** The ['end'] listener of [fetchITick]: the promise is resolved with
    the parsed body, or with the body itself when it is not JSON. *)
Definition fetched (body : string) : value :=
  match JSON_parse body with
  | Normal data => data
  | Throw _ => JStr body
  end.

(** [v !== 0] *)
Definition strict_ne_zero (v : value) : bool :=
  match v with
  | JNum literal => negb (Number_isZero literal)
  | _ => true
  end.

Definition formatPrice (data : value) : completion string :=
  code <- Get data "code" ;;
  if strict_ne_zero code then
    msg <- ToString (or_else (prop data "msg") (JStr "Unknown error")) ;;
    Normal ("❌ 獲取價格失敗
錯誤: " +++ msg)
  else
  let d := prop data "data" in
  s_n <- (x <- Get d "n" ;; ToString x) ;;
  s_c <- (x <- Get d "c" ;; ToString x) ;;
  s_p <- (x <- Get d "p" ;; ToString x) ;;
  s_d <- (x <- Get d "d" ;; ToString x) ;;
  s_dp <- (x <- Get d "dp" ;; ToString x) ;;
  s_h <- (x <- Get d "h" ;; ToString x) ;;
  s_l <- (x <- Get d "l" ;; ToString x) ;;
  s_o <- (x <- Get d "o" ;; ToString x) ;;
  s_pc <- (x <- Get d "pc" ;; ToString x) ;;
  s_v <- (x <- Get d "v" ;; ToString x) ;;
  s_t <- (x <- Get d "t" ;; ToString x) ;;
  Normal ("
╔══════════════════════════════════════════════════════════╗
║              實時價格 / Real-time Price                    ║
╠══════════════════════════════════════════════════════════╣
📈 股票: "
          +++ s_n
          +++ " ("
          +++ s_c
          +++ ")
💰 最新價: "
          +++ s_p
          +++ "
📊 漲跌: "
          +++ s_d
          +++ " ("
          +++ s_dp
          +++ "%)
📈 最高: "
          +++ s_h
          +++ "
📉 最低: "
          +++ s_l
          +++ "
📊 開盤: "
          +++ s_o
          +++ "
📊 昨收: "
          +++ s_pc
          +++ "
📈 成交量: "
          +++ s_v
          +++ "
🕐 時間: "
          +++ s_t
          +++ "
╚══════════════════════════════════════════════════════════╝
").

Definition formatQuote (data : value) : completion string :=
  code <- Get data "code" ;;
  if strict_ne_zero code then
    msg <- ToString (or_else (prop data "msg") (JStr "Unknown error")) ;;
    Normal ("❌ 獲取報價失敗
錯誤: " +++ msg)
  else
    Normal ("
╔══════════════════════════════════════════════════════════╗
║              詳細報價 / Detailed Quote                     ║
╠══════════════════════════════════════════════════════════╣
"
            +++ JSON_stringify_indented (prop data "data")
            +++ "
╚══════════════════════════════════════════════════════════╝
").

Definition formatDepth (data : value) : completion string :=
  code <- Get data "code" ;;
  if strict_ne_zero code then
    msg <- ToString (or_else (prop data "msg") (JStr "Unknown error")) ;;
    Normal ("❌ 獲取盤口失敗
錯誤: " +++ msg)
  else
    Normal ("
╔══════════════════════════════════════════════════════════╗
║              盤口深度 / Order Book Depth                   ║
╠══════════════════════════════════════════════════════════╣
"
            +++ JSON_stringify_indented (prop data "data")
            +++ "
╚══════════════════════════════════════════════════════════╝
").

Definition formatTrades (data : value) : completion string :=
  code <- Get data "code" ;;
  if strict_ne_zero code then
    msg <- ToString (or_else (prop data "msg") (JStr "Unknown error")) ;;
    Normal ("❌ 獲取成交失敗
錯誤: " +++ msg)
  else
    Normal ("
╔══════════════════════════════════════════════════════════╗
║              最近成交 / Recent Trades                      ║
╠══════════════════════════════════════════════════════════╣
"
            +++ JSON_stringify_indented (prop data "data")
            +++ "
╚══════════════════════════════════════════════════════════╝
").

(** What [getPrice], [getQuote], [getDepth] and [getTrades] return once
    [fetchITick] has resolved with [data]. *)
Definition text_result (text : completion string) : completion value :=
  t <- text ;;
  Normal (JObj [("type", JStr "text"); ("text", JStr t)]).

Definition getPrice_result (data : value) : completion value :=
  text_result (formatPrice data).

Definition getQuote_result (data : value) : completion value :=
  text_result (formatQuote data).

Definition getDepth_result (data : value) : completion value :=
  text_result (formatDepth data).

Definition getTrades_result (data : value) : completion value :=
  text_result (formatTrades data).

End iTick_api.

(** The notice the iTick formatters give for a reply that reports a
    failure: a headline, then the message of the reply. *)
Definition failure_notice (headline message : string) : string :=
  headline +++ String LF "錯誤: " +++ message.

(** The path a call of one of the six API methods asks for: the argument
    of [fetchITick] in the method's first statement. *)
Definition iTick_request {engine : Engine} (u : upstream)
  : option (completion string) :=
  match u with
  | Call method [a; b; c; d] =>
      if String.eqb method "getKline" then Some (getKline_path a b c d)
      else None
  | Call method [a; b; c] =>
      if String.eqb method "searchSymbol" then Some (searchSymbol_path a b c)
      else None
  | Call method [a; b] =>
      if String.eqb method "getPrice" then Some (getPrice_path a b)
      else if String.eqb method "getQuote" then Some (getQuote_path a b)
      else if String.eqb method "getDepth" then Some (getDepth_path a b)
      else if String.eqb method "getTrades" then Some (getTrades_path a b)
      else None
  | _ => None
  end.

(** What a line contributes to the output at once, and whether it is
    dealt with at once. *)
Definition written {engine : Engine} (srv : server) (tools : list value)
    (line : string) : list value :=
  match iterate srv tools line with
  | Written r => [r]
  | _ => []
  end.

Definition quiet {engine : Engine} (srv : server) (tools : list value)
    (line : string) : bool :=
  match iterate srv tools line with
  | Suspended _ _ => false
  | _ => true
  end.

(** ** The command-line client of iTick ([itick]) *)

(** [args[n]] of [process.argv.slice(2)]. *)
Definition argv (args : list string) (n : nat) : value :=
  match nth_error args n with
  | Some word => JStr word
  | None => JUndefined
  end.

(** A parameter with a default value: the default is taken when the
    argument is [undefined]. *)
Definition default_parameter (v d : value) : value :=
  match v with
  | JUndefined => d
  | _ => v
  end.

Section iTick_cli.
Context {engine : Engine}.

(** The argument of [fetchITick] in [COMMANDS.search], [COMMANDS.price]
    and [COMMANDS.kline]. *)
Definition cli_search_path (code region : value) : completion string :=
  let region := default_parameter region (JStr "hk") in
  r <- ToString region ;;
  c <- ToString code ;;
  Normal ("/symbol/list?type=stock&region=" +++ r +++ "&code=" +++ c).

Definition cli_price_path (code region : value) : completion string :=
  let region := default_parameter region (JStr "hk") in
  r <- ToString region ;;
  c <- ToString code ;;
  Normal ("/quote?region=" +++ r +++ "&code=" +++ c).

Definition cli_kline_path (code region period : value)
  : completion string :=
  let region := default_parameter region (JStr "hk") in
  let period := default_parameter period (JStr "1d") in
  r <- ToString region ;;
  c <- ToString code ;;
  p <- ToString period ;;
  Normal ("/kline?region=" +++ r +++ "&code=" +++ c +++ "&period=" +++ p
          +++ "&limit=30").

(** What [main] asks iTick for, if anything: with no command or
    [--help] the usage is shown; a command with no handler of its own in
    [COMMANDS] leads to no request; a handler is called with [args[1]]
    and [args[2]]. *)
Definition itick_cli_request (args : list string)
  : option (completion string) :=
  match argv args 0 with
  | JStr cmd =>
      if String.eqb cmd "" || String.eqb cmd "--help" then None
      else if String.eqb cmd "search" then
        Some (cli_search_path (argv args 1) (argv args 2))
      else if String.eqb cmd "price" then
        Some (cli_price_path (argv args 1) (argv args 2))
      else if String.eqb cmd "kline" then
        Some (cli_kline_path (argv args 1) (argv args 2) JUndefined)
      else None
  | _ => None
  end.

End iTick_cli.

(** An argument that is absent, or a string of characters that may all
    stand in the path of a request. *)
Definition plain (v : value) : bool :=
  match v with
  | JUndefined => true
  | JStr s => negb (unescaped_characters s)
  | _ => false
  end.

(** * Properties *)

(** ** The Frame Reader *)

Lemma split_nonempty (s : string) : split s <> [].
Proof.
  induction s as [|c r IH]; simpl; [discriminate|].
  destruct (Ascii.eqb c LF); [discriminate|].
  destruct (split r); discriminate.
Qed.

Lemma append_assoc (a b c : string) : (a +++ b) +++ c = a +++ b +++ c.
Proof. induction a as [|x a IH]; simpl; [reflexivity | now rewrite IH]. Qed.

Lemma append_empty_r (a : string) : a +++ "" = a.
Proof. induction a as [|x a IH]; simpl; [reflexivity | now rewrite IH]. Qed.

(** Splitting a text that arrives in two parts: the lines completed by the
    first part, then the split of its unfinished line followed by the
    second part. *)
Lemma split_app (a b : string) :
  split (a +++ b) = removelast (split a) ++ split (last (split a) "" +++ b).
Proof.
  induction a as [|c r IH]; [reflexivity|].
  cbn [String.append split].
  destruct (Ascii.eqb c LF) eqn:Ec.
  - rewrite IH.
    pose proof (split_nonempty r) as Hr.
    destruct (split r) as [|p ps]; [contradiction|].
    reflexivity.
  - rewrite IH.
    pose proof (split_nonempty r) as Hr.
    destruct (split r) as [|p ps]; [contradiction|].
    destruct ps as [|q qs].
    + cbn [removelast last app String.append split]. rewrite Ec.
      reflexivity.
    + reflexivity.
Qed.

Lemma split_no_LF (s : string) : count_LF s = 0 -> split s = [s].
Proof.
  induction s as [|c r IH]; [reflexivity|].
  simpl. destruct (Ascii.eqb c LF); [discriminate|].
  intros H. rewrite (IH H). reflexivity.
Qed.

Lemma split_length (s : string) : length (split s) = S (count_LF s).
Proof.
  induction s as [|c r IH]; [reflexivity|].
  simpl. destruct (Ascii.eqb c LF); simpl; [now rewrite IH|].
  destruct (split r); simpl in *; lia.
Qed.

Lemma split_pieces_no_LF (s : string) :
  Forall (fun piece => count_LF piece = 0) (split s).
Proof.
  induction s as [|c r IH]; simpl.
  - repeat constructor.
  - destruct (Ascii.eqb c LF) eqn:Ec.
    + constructor; [reflexivity | exact IH].
    + destruct (split r) as [|p ps]; [repeat constructor; simpl; now rewrite Ec|].
      inversion IH; subst. constructor; [|assumption].
      simpl. now rewrite Ec.
Qed.

Lemma last_split_no_LF (s : string) : count_LF (last (split s) "") = 0.
Proof.
  pose proof (split_pieces_no_LF s) as H.
  pose proof (split_nonempty s) as Hne.
  induction H as [|p ps Hp Hps IH]; [contradiction|].
  destruct ps; [exact Hp|].
  apply IH. discriminate.
Qed.

Lemma last_app_r {A} (l l' : list A) (d : A) :
  l' <> [] -> last (l ++ l') d = last l' d.
Proof.
  intros H. induction l as [|x l IH]; [reflexivity|].
  cbn [app last]. destruct (l ++ l') eqn:E; [|exact IH].
  apply app_eq_nil in E. destruct E. contradiction.
Qed.

Lemma read_chunk_spec (buffer chunk : string) :
  read_chunk buffer chunk =
  (removelast (split (buffer +++ chunk)),
   last (split (buffer +++ chunk)) "").
Proof.
  unfold read_chunk, pop.
  pose proof (split_nonempty (buffer +++ chunk)) as H.
  destruct (split (buffer +++ chunk)); [contradiction | reflexivity].
Qed.

(** A chunk that is one line and its newline, on an empty buffer. *)
Lemma split_line (line rest : string) :
  count_LF line = 0 ->
  split (line +++ String LF rest) = line :: split rest.
Proof.
  induction line as [|c r IH]; intros H.
  - cbn [String.append split]. rewrite Ascii.eqb_refl. reflexivity.
  - cbn [count_LF] in H. cbn [String.append split].
    destruct (Ascii.eqb c LF); [discriminate|].
    rewrite (IH H). reflexivity.
Qed.

Lemma read_one_line (line : string) :
  count_LF line = 0 ->
  read_chunk "" (line +++ String LF "") = ([line], "").
Proof.
  intros H. unfold read_chunk. cbn [String.append].
  rewrite (split_line line "" H). reflexivity.
Qed.

Lemma read_chunks_spec (chunks : list string) (buffer : string) :
  count_LF buffer = 0 ->
  read_chunks buffer chunks =
  (removelast (split (buffer +++ join_chunks chunks)),
   last (split (buffer +++ join_chunks chunks)) "").
Proof.
  revert buffer.
  induction chunks as [|chunk later IH]; intros buffer Hb.
  - simpl. rewrite append_empty_r, (split_no_LF _ Hb). reflexivity.
  - cbn [read_chunks join_chunks fold_right].
    rewrite read_chunk_spec.
    rewrite (IH _ (last_split_no_LF _)).
    fold (join_chunks later).
    rewrite <- append_assoc, (split_app (buffer +++ chunk)).
    pose proof (split_nonempty
                  (last (split (buffer +++ chunk)) "" +++ join_chunks later)).
    rewrite removelast_app, last_app_r by assumption.
    reflexivity.
Qed.

(** C2.  However the input is cut into chunks, single bytes included, the
    frames the Frame Reader hands on are the pieces but the last of the
    whole input split at newlines, and the last piece is the buffer it
    keeps; there are as many frames as newlines have arrived. *)
Theorem frame_reader_chunking_transparent (chunks : list string) :
  read_chunks "" chunks =
  (removelast (split (join_chunks chunks)),
   last (split (join_chunks chunks)) "")
  /\ length (fst (read_chunks "" chunks)) = count_LF (join_chunks chunks).
Proof.
  pose proof (read_chunks_spec chunks "" eq_refl) as H.
  simpl in H. split; [exact H|].
  rewrite H. cbn [fst].
  pose proof (split_length (join_chunks chunks)) as Hl.
  pose proof (split_nonempty (join_chunks chunks)) as Hne.
  destruct (split (join_chunks chunks)) as [|p ps] using rev_ind;
    [contradiction|].
  rewrite removelast_last. rewrite length_app in Hl. simpl in Hl. lia.
Qed.

Lemma join_bytes (s : string) : join_chunks (bytes s) = s.
Proof.
  induction s as [|c r IH]; [reflexivity|].
  cbn [bytes join_chunks fold_right String.append].
  fold (join_chunks (bytes r)). now rewrite IH.
Qed.

(** In particular the input may arrive one byte at a time. *)
Corollary one_byte_at_a_time (s : string) :
  read_chunks "" (bytes s) = read_chunks "" [s].
Proof.
  rewrite !read_chunks_spec by reflexivity.
  rewrite join_bytes. cbn [join_chunks fold_right].
  now rewrite append_empty_r.
Qed.

(** ** A blank line is not a JSON text *)

Lemma num_run_bad (s : string) : num_run NBad s = NBad.
Proof. induction s; simpl; auto. Qed.

Lemma text_of_snoc (w : list ascii) (c : ascii) :
  text_of (w ++ [c]) = String c (text_of w).
Proof. unfold text_of. rewrite fold_left_app. reflexivity. Qed.

Lemma junk_word (c : ascii) (r : string) :
  junk c = true -> word_value (String c r) = None.
Proof.
  unfold junk. rewrite negb_true_iff, !orb_false_iff.
  intros [[_ Hd] Hx]. cbn [existsb] in Hx.
  rewrite !orb_false_iff in Hx. destruct Hx as (Hn & Ht & Hf & Hm & _).
  unfold word_value. cbn [String.eqb].
  rewrite Hn, Ht, Hf. cbn [andb].
  unfold is_number. cbn [num_run num_step]. rewrite Hm, Hd.
  destruct (Ascii.eqb_spec c "0"%char) as [->|_]; [discriminate Hd|].
  rewrite num_run_bad. reflexivity.
Qed.

Lemma stuck_step (st : pstate) (c : ascii) :
  stuck st -> is_ws c || junk c = true -> stuck (step_char st c).
Proof.
  intros Hst Hc.
  assert (Hcases : is_ws c = true \/ (is_ws c = false /\ junk c = true)).
  { destruct (is_ws c); [left; reflexivity | right; split; auto]. }
  destruct Hst as [-> | [-> | (w & first & -> & Hfirst)]].
  - destruct Hcases as [Hw | [Hw Hj]]; cbn [step_char step_token];
      rewrite Hw; [left; reflexivity|].
    pose proof Hj as Hj'. unfold junk in Hj'.
    rewrite negb_true_iff, !orb_false_iff in Hj'.
    destruct Hj' as [[Hdel _] _]. pose proof Hdel as Hdel'.
    unfold is_delimiter in Hdel'. rewrite Hw in Hdel'.
    cbn [orb existsb] in Hdel'. rewrite !orb_false_iff in Hdel'.
    destruct Hdel' as (Ha & Hb & Hc' & Hd & He & Hf & Hg & _).
    rewrite Hc', Ha, Hg, Hd, Hdel.
    right; right. exists [], c. split; [reflexivity | exact Hj].
  - right; left. reflexivity.
  - cbn [step_char].
    destruct (is_delimiter c) eqn:Hdel.
    + rewrite text_of_snoc, (junk_word _ _ Hfirst). right; left. reflexivity.
    + right; right. exists (c :: w), first. split; [reflexivity | exact Hfirst].
Qed.

Lemma blank_byte (c : ascii) :
  ((9 <=? code c) && (code c <=? 13) || (code c =? 32)
   || (128 <=? code c))%N = true ->
  is_ws c || junk c = true.
Proof.
  destruct c as [[] [] [] [] [] [] [] []]; vm_compute; intros H;
    first [reflexivity | discriminate H].
Qed.

Lemma stuck_run (n : nat) :
  forall (s : string) (st : pstate),
    String.length s <= n -> stuck st -> blank s = true ->
    stuck (run_parser st s).
Proof.
  induction n as [|n IH]; intros s st Hlen Hst Hb.
  - destruct s; [exact Hst | simpl in Hlen; lia].
  - destruct s as [|c r]; [exact Hst|].
    simpl in Hlen. cbn [blank] in Hb. cbn [run_parser].
    destruct ((9 <=? code c) && (code c <=? 13) || (code c =? 32))%N eqn:E1.
    + apply IH; [lia | | exact Hb].
      apply stuck_step; [exact Hst|]. apply blank_byte. now rewrite E1.
    + destruct r as [|c1 r1]; [discriminate|].
      simpl in Hlen. cbn [run_parser].
      destruct ((code c =? 194) && (code c1 =? 160))%N eqn:E2.
      * apply andb_prop in E2. destruct E2 as [Ea Eb].
        apply N.eqb_eq in Ea, Eb.
        apply IH; [lia | | exact Hb].
        apply stuck_step; [apply stuck_step; [exact Hst|]|];
          apply blank_byte; [rewrite Ea | rewrite Eb];
          apply orb_true_r.
      * destruct r1 as [|c2 r2]; [discriminate|].
        simpl in Hlen. cbn [run_parser].
        match type of Hb with (if ?cond then _ else _) = _ =>
          destruct cond eqn:E3; [|discriminate] end.
        apply IH; [lia | | exact Hb].
        assert (H128 : (128 <=? code c)%N = true
                       /\ (128 <=? code c1)%N = true
                       /\ (128 <=? code c2)%N = true).
        { repeat match type of E3 with
                 | (_ || _) = true => apply orb_prop in E3; destruct E3 as [E3|E3]
                 end;
            repeat match goal with
                   | H : (_ && _) = true |- _ =>
                       apply andb_prop in H; destruct H
                   | H : (_ || _) = true |- _ =>
                       apply orb_prop in H; destruct H
                   | H : (_ =? _)%N = true |- _ => apply N.eqb_eq in H
                   | H : (_ <=? _)%N = true |- _ => apply N.leb_le in H
                   end;
            repeat split; apply N.leb_le; lia. }
        destruct H128 as (Ha & Hb1 & Hc).
        repeat apply stuck_step; try exact Hst;
          apply blank_byte; first [now rewrite Ha, orb_true_r
                                  | now rewrite Hb1, orb_true_r
                                  | now rewrite Hc, orb_true_r].
Qed.

Lemma valid_json_not_blank (line : string) (v : value) :
  parse_json line = Some v -> blank line = false.
Proof.
  intros Hp. destruct (blank line) eqn:Hb; [|reflexivity].
  exfalso.
  pose proof (stuck_run (String.length line) line (PValue [] false)
                (le_n _) (or_introl eq_refl) Hb) as Hst.
  unfold parse_json in Hp.
  destruct Hst as [H | [H | (w & first & H & Hfirst)]]; rewrite H in Hp;
    try discriminate.
  rewrite text_of_snoc, (junk_word _ _ Hfirst) in Hp. discriminate.
Qed.

(** ** [JSON.parse] never returns [undefined] *)

Lemma word_value_defined (w : string) (v : value) :
  word_value w = Some v -> v <> JUndefined.
Proof.
  unfold word_value.
  repeat match goal with
         | |- context [if ?b then _ else _] => destruct b
         end; intros H; inversion H; discriminate.
Qed.

Lemma complete_defined (stk : list container) (v : value) :
  v <> JUndefined -> defined_result (complete stk v).
Proof.
  intros Hv. destruct stk as [|[] outer]; simpl; auto.
Qed.

Lemma step_token_defined (st : pstate) (c : ascii) :
  defined_result st -> defined_result (step_token st c).
Proof.
  intros Hst. destruct st; cbn [step_token]; try exact I;
    repeat match goal with
           | |- context [if ?b then _ else _] => destruct b
           | |- context [match ?x with _ => _ end] => destruct x
           end;
    try exact I; try exact Hst; apply complete_defined; discriminate.
Qed.

Lemma step_char_defined (st : pstate) (c : ascii) :
  defined_result st -> defined_result (step_char st c).
Proof.
  intros Hst. destruct st; try (apply step_token_defined; exact Hst).
  - cbn [step_char]. destruct (is_delimiter c); [|exact I].
    destruct (word_value (text_of w_rev)) eqn:E; [|exact I].
    apply step_token_defined, complete_defined.
    exact (word_value_defined _ _ E).
  - cbn [step_char]. destruct esc.
    + repeat match goal with
             | |- context [if ?b then _ else _] => destruct b
             end; try exact I.
      apply complete_defined. discriminate.
    + repeat match goal with
             | |- context [if ?b then _ else _] => destruct b
             | |- context [match ?x with _ => _ end] => destruct x
             end; exact I.
    + repeat match goal with
             | |- context [let (_, _) := ?x in _] => destruct x
             | |- context [match ?x with _ => _ end] => destruct x
             end; exact I.
Qed.

Lemma run_parser_defined (text : string) (st : pstate) :
  defined_result st -> defined_result (run_parser st text).
Proof.
  revert st. induction text as [|c r IH]; intros st Hst; [exact Hst|].
  apply IH, step_char_defined, Hst.
Qed.

Lemma parsed_value_defined (text : string) (v : value) :
  parse_json text = Some v -> v <> JUndefined.
Proof.
  unfold parse_json.
  pose proof (run_parser_defined text (PValue [] false) I) as H.
  destruct (run_parser (PValue [] false) text); try discriminate.
  - intros E. inversion E; subst. exact H.
  - destruct stk; [|discriminate]. apply word_value_defined.
Qed.

(** ** The Protocol Handler *)

Section Handler_properties.
Context {engine : Engine}.
Variable srv : server.

Lemma JSON_parse_Normal (line : string) (message : value) :
  JSON_parse line = Normal message -> parse_json line = Some message.
Proof.
  unfold JSON_parse. destruct (parse_json line); intros H; inversion H.
  reflexivity.
Qed.

Lemma Get_defined (v : value) (key : string) :
  v <> JUndefined -> v <> JNull -> Get v key = Normal (prop v key).
Proof. destruct v; intros H1 H2; try reflexivity; contradiction. Qed.

Lemma Get_of_prop (v : value) (key : string) (s : string) :
  prop v key = JStr s -> forall key', Get v key' = Normal (prop v key').
Proof. destruct v; intros H key'; try reflexivity; discriminate. Qed.

(** What one iteration over a line does to the session. *)
Lemma run_lines_written (c i : nat) (line : string) (rest : list string)
    (s : session) (r : value) :
  iterate srv (this_tools s) line = Written r ->
  run_lines srv c i (line :: rest) s
  = run_lines srv c (S i) rest (write (c, i) r s).
Proof. intros H. cbn [run_lines]. rewrite H. reflexivity. Qed.

(** A line that is empty once trimmed is passed over. *)
Lemma blank_frame_skipped (c i : nat) (line : string) (rest : list string)
    (s : session) :
  blank line = true ->
  run_lines srv c i (line :: rest) s = run_lines srv c (S i) rest s.
Proof.
  intros Hb. cbn [run_lines]. unfold iterate. rewrite Hb. reflexivity.
Qed.

(** C5, amended.  A frame that is neither empty nor all white space and
    is not valid JSON gets exactly one response, a top-level error with
    code -32700 and no id, and the loop goes on to the frames after it;
    the process is not ended by it. *)
Theorem malformed_frame_gets_parse_error
    (c i : nat) (line : string) (rest : list string) (s : session) :
  blank line = false ->
  parse_json line = None ->
  let r := parse_error (SyntaxError_message line) in
  run_lines srv c i (line :: rest) s
  = run_lines srv c (S i) rest (write (c, i) r s)
  /\ stdout (write (c, i) r s)
     = stdout s ++ [{| origin := (c, i); response := r |}]
  /\ alive (write (c, i) r s) = alive s
  /\ error_code r = JNum "-32700"
  /\ has_field r "id" = false
  /\ has_field r "result" = false.
Proof.
  intros Hb Hp r. repeat split.
  apply run_lines_written.
  unfold iterate, try_block, JSON_parse. rewrite Hb, Hp. reflexivity.
Qed.

(** C7, amended.  A frame that is valid JSON other than [null], and whose
    method is none of [initialize], [tools/list] and [tools/call] and has a
    string conversion, is answered by a top-level error with code -32601,
    the message ["Method not found: "] followed by the method, and the id
    of the request. *)
Theorem unknown_method_response
    (tools : list value) (line : string) (message : value) (name : string) :
  JSON_parse line = Normal message ->
  message <> JNull ->
  is_str (prop message "method") "initialize" = false ->
  is_str (prop message "method") "tools/list" = false ->
  is_str (prop message "method") "tools/call" = false ->
  ToString (prop message "method") = Normal name ->
  let r := method_not_found (prop message "id") name in
  iterate srv tools line = Written r
  /\ error_code r = JNum "-32601"
  /\ prop (prop r "error") "message" = JStr ("Method not found: " +++ name)
  /\ prop r "id" = prop message "id"
  /\ has_field r "result" = false.
Proof.
  intros Hp Hnull H1 H2 H3 Hname r. repeat split.
  pose proof (JSON_parse_Normal _ _ Hp) as Hp'.
  pose proof (parsed_value_defined _ _ Hp') as Hdef.
  unfold iterate, try_block.
  rewrite (valid_json_not_blank _ _ Hp'), Hp. cbn [bind].
  rewrite !(Get_defined _ _ Hdef Hnull). cbn [bind].
  rewrite H1, H2, H3, Hname. reflexivity.
Qed.

(** A frame that is answered at once and arrives alone, with its
    newline, while the buffer is empty: the ['data'] listener appends its
    response and leaves the rest of the session as it was. *)
Lemma frame_answered_at_once (s : session) (line : string) (r : value) :
  alive s = true -> buffer s = "" -> count_LF line = 0 ->
  iterate srv (this_tools s) line = Written r ->
  step srv s (Data (line +++ String LF ""))
  = {| alive := true;
       buffer := "";
       this_tools := this_tools s;
       chunks_seen := S (chunks_seen s);
       tasks := tasks s;
       stdout := stdout s
                 ++ [{| origin := (chunks_seen s, 0); response := r |}] |}.
Proof.
  intros Ha Hb Hc Hit. unfold step, on_data.
  rewrite Ha, Hb, (read_one_line line Hc).
  cbn [run_lines this_tools]. rewrite Hit. reflexivity.
Qed.

(** C8.  An [initialize] request is answered with its own id and the
    fixed announcement: the protocol version, the capabilities
    [{tools: {}}] and the name and version the server is configured with.
    The loop writes this response, and nothing else, and goes on to the
    next line; handling the request leaves the buffer, the tool table,
    the waiting handlers and the liveness of the session as they were.
    So it is for a session in any state reached by [run] to which the
    request arrives as a line of its own. *)
Theorem initialize_response
    (tools : list value) (line : string) (message : value) :
  JSON_parse line = Normal message ->
  prop message "method" = JStr "initialize" ->
  let r := handleInitialize srv (prop message "id") in
  iterate srv tools line = Written r
  /\ prop r "id" = prop message "id"
  /\ prop r "result"
     = JObj [("protocolVersion", JStr "2024-11-05");
             ("capabilities", JObj [("tools", JObj [])]);
             ("serverInfo",
              JObj [("name", JStr (SERVER_NAME srv));
                    ("version", JStr (SERVER_VERSION srv))])]
  /\ has_field r "error" = false
  /\ (forall (c i : nat) (rest : list string) (s : session),
        let s' := write (c, i) r s in
        run_lines srv c i (line :: rest) s = run_lines srv c (S i) rest s'
        /\ buffer s' = buffer s /\ this_tools s' = this_tools s
        /\ tasks s' = tasks s /\ alive s' = alive s
        /\ chunks_seen s' = chunks_seen s
        /\ stdout s' = stdout s ++ [{| origin := (c, i); response := r |}])
  /\ (forall events : list event,
        let s := run srv events in
        alive s = true -> buffer s = "" -> count_LF line = 0 ->
        let s1 := run srv (events ++ [Data (line +++ String LF "")]) in
        responses s1 = responses s ++ [r]
        /\ buffer s1 = buffer s /\ this_tools s1 = this_tools s
        /\ tasks s1 = tasks s /\ alive s1 = alive s).
Proof.
  intros Hp Hm r.
  assert (Hit : forall tools', iterate srv tools' line = Written r).
  { intros tools'. pose proof (JSON_parse_Normal _ _ Hp) as Hp'.
    unfold iterate, try_block.
    rewrite (valid_json_not_blank _ _ Hp'), Hp. cbn [bind].
    rewrite !(Get_of_prop _ _ _ Hm). cbn [bind].
    rewrite Hm. reflexivity. }
  split; [apply Hit|]. do 3 (split; [reflexivity|]). split.
  - intros c i rest s s'. split; [|repeat split].
    apply run_lines_written, Hit.
  - intros events s Ha Hb Hc s1. unfold s1, run.
    rewrite fold_left_app. cbn [fold_left]. fold (run srv events). fold s.
    rewrite (frame_answered_at_once s line r Ha Hb Hc (Hit _)).
    unfold responses. cbn [stdout buffer this_tools tasks alive].
    rewrite map_app, Ha, Hb. repeat split.
Qed.

(** C10.  The frame [null] is valid JSON, and the server answers it with
    the top-level error with code -32700 and no id: reading [.method] of
    [null] throws inside the [try] block whose [catch] writes the parse
    error.  The loop writes this response and goes on to the next line;
    sent to a fresh server the frame gives this one response, and sent
    to a session in any state reached by [run], as a line of its own,
    it adds this response to the output. *)
Theorem null_frame_reported_as_parse_error :
  exists line : string,
    line = "null"
    /\ JSON_parse line = Normal JNull
    /\ let r := parse_error (TypeError_read JNull "method") in
       (forall tools, iterate srv tools line = Written r)
       /\ (forall (c i : nat) (rest : list string) (s : session),
             run_lines srv c i (line :: rest) s
             = run_lines srv c (S i) rest (write (c, i) r s))
       /\ responses (run srv [Data (line +++ String LF "")]) = [r]
       /\ (forall events : list event,
             let s := run srv events in
             alive s = true -> buffer s = "" ->
             let s1 := run srv (events ++ [Data (line +++ String LF "")]) in
             responses s1 = responses s ++ [r]
             /\ tasks s1 = tasks s /\ alive s1 = true)
       /\ error_code r = JNum "-32700"
       /\ has_field r "id" = false
       /\ has_field r "result" = false.
Proof.
  exists "null". split; [reflexivity|]. split; [reflexivity|].
  intros r.
  assert (Hit : forall tools, iterate srv tools "null" = Written r)
    by reflexivity.
  split; [exact Hit|]. split; [|split; [|split]].
  - intros c i rest s. apply run_lines_written, Hit.
  - unfold run. cbn [fold_left].
    rewrite (frame_answered_at_once (start srv) "null" r
               eq_refl eq_refl eq_refl (Hit _)).
    reflexivity.
  - intros events s Ha Hb s1. unfold s1, run.
    rewrite fold_left_app. cbn [fold_left]. fold (run srv events). fold s.
    rewrite (frame_answered_at_once s "null" r Ha Hb eq_refl (Hit _)).
    unfold responses. cbn [stdout tasks alive].
    rewrite map_app. repeat split.
  - repeat split.
Qed.

End Handler_properties.

(** ** The Tool Dispatcher *)

Section Dispatcher_properties.
Context {engine : Engine}.

Lemma iTick_tool_names :
  tool_names iTick
  = map JStr ["itick_search_symbol"; "itick_get_price"; "itick_get_kline";
              "itick_get_quote"; "itick_get_depth"; "itick_get_trades"].
Proof. reflexivity. Qed.

Lemma HKGov_tool_names :
  tool_names HKGov
  = map JStr ["hko_local_forecast"; "hko_9day_forecast";
              "hko_current_weather"; "hko_weather_warnings";
              "hko_special_tips"; "hko_earthquake_info"; "td_traffic_speed";
              "ha_ae_waiting_time"; "kmb_get_routes"; "kmb_get_stops";
              "kmb_get_eta"].
Proof. reflexivity. Qed.

Lemma HKO_tool_names :
  tool_names HKO
  = map JStr ["hko_local_forecast"; "hko_9day_forecast";
              "hko_current_weather"; "hko_weather_warnings";
              "hko_special_tips"; "hko_earthquake_info"; "hko_tsunami_info";
              "hko_all_weather"].
Proof. reflexivity. Qed.

Lemma not_listed (names : list string) (name : string) :
  ~ In (JStr name) (map JStr names) ->
  forall n, In n names -> is_str (JStr name) n = false.
Proof.
  intros H n Hn. cbn [is_str].
  destruct (String.eqb_spec name n) as [->|]; [|reflexivity].
  exfalso. apply H, in_map, Hn.
Qed.

Ltac not_a_case H :=
  rewrite ?(H _ (or_introl eq_refl)),
    ?(H _ (or_intror (or_introl eq_refl))),
    ?(H _ (or_intror (or_intror (or_introl eq_refl)))),
    ?(H _ (or_intror (or_intror (or_intror (or_introl eq_refl))))),
    ?(H _ (or_intror (or_intror (or_intror (or_intror (or_introl eq_refl)))))),
    ?(H _ (or_intror (or_intror (or_intror (or_intror (or_intror
             (or_introl eq_refl))))))),
    ?(H _ (or_intror (or_intror (or_intror (or_intror (or_intror
             (or_intror (or_introl eq_refl)))))))),
    ?(H _ (or_intror (or_intror (or_intror (or_intror (or_intror
             (or_intror (or_intror (or_introl eq_refl))))))))),
    ?(H _ (or_intror (or_intror (or_intror (or_intror (or_intror
             (or_intror (or_intror (or_intror (or_introl eq_refl)))))))))),
    ?(H _ (or_intror (or_intror (or_intror (or_intror (or_intror
             (or_intror (or_intror (or_intror (or_intror
             (or_introl eq_refl))))))))))),
    ?(H _ (or_intror (or_intror (or_intror (or_intror (or_intror
             (or_intror (or_intror (or_intror (or_intror (or_intror
             (or_introl eq_refl)))))))))))).

(** The [default] branch of the HK Gov server's [switch]. *)
Lemma HKGov_unknown_tool (name : string) (args : value) :
  ~ registered HKGov name ->
  handleToolCall HKGov (JStr name) args = Throw ("Unknown tool: " +++ name).
Proof.
  unfold registered. rewrite HKGov_tool_names. intros H.
  pose proof (not_listed _ _ H) as Hn.
  cbn [handleToolCall HKGov]. unfold HKGov_handleToolCall.
  not_a_case Hn. reflexivity.
Qed.

(** The [default] branch of the HKO server's [switch]. *)
Lemma HKO_unknown_tool (name : string) (args : value) :
  ~ registered HKO name ->
  handleToolCall HKO (JStr name) args = Throw ("Unknown tool: " +++ name).
Proof.
  unfold registered. rewrite HKO_tool_names. intros H.
  pose proof (not_listed _ _ H) as Hn.
  cbn [handleToolCall HKO]. unfold HKO_handleToolCall.
  not_a_case Hn. reflexivity.
Qed.

(** The iTick server checks [code] first, and only then the tool name. *)
Lemma iTick_unknown_tool (name : string) (args : value) :
  ~ registered iTick name ->
  handleToolCall iTick (JStr name) args
  = Throw (if ToBoolean (OptGet args "code") then "Unknown tool: " +++ name
           else "Stock code is required").
Proof.
  unfold registered. rewrite iTick_tool_names. intros H.
  pose proof (not_listed _ _ H) as Hn.
  cbn [handleToolCall iTick]. unfold iTick_handleToolCall.
  destruct (ToBoolean (OptGet args "code")); [|reflexivity].
  cbn [negb]. not_a_case Hn. reflexivity.
Qed.

Lemma handleToolsCall_throw (srv : server) (id params : value)
    (name : string) (message : string) :
  prop params "name" = JStr name ->
  handleToolCall srv (JStr name) (prop params "arguments") = Throw message ->
  handleToolsCall srv id params = Fulfilled (tool_failure id message).
Proof.
  intros Hname Hthrow. unfold handleToolsCall.
  rewrite !(Get_of_prop _ _ _ Hname). cbn [bind].
  rewrite Hname, Hthrow. reflexivity.
Qed.

Lemma contains_suffix (p s : string) : contains (p +++ s) s = true.
Proof.
  induction p as [|c p IH].
  - assert (H : is_prefix s s = true).
    { induction s as [|c s IH]; [reflexivity|].
      simpl. rewrite Ascii.eqb_refl. exact IH. }
    destruct s; simpl in *; [reflexivity | now rewrite H].
  - cbn [String.append contains]. rewrite IH. apply orb_true_r.
Qed.

(** C3, amended.  When [params.name] is a string that names no tool of the
    server, the dispatcher fails by throwing, and [handleToolsCall] turns
    that into a tool-level failure: a response with the id of the request
    whose [result.isError] is [true] and which has no top-level [error]
    field. *)
Theorem unknown_tool_is_tool_level_failure
    (srv : server) (id params : value) (name : string) :
  srv = iTick \/ srv = HKGov \/ srv = HKO ->
  prop params "name" = JStr name ->
  ~ registered srv name ->
  exists message : string,
    handleToolCall srv (JStr name) (prop params "arguments") = Throw message
    /\ handleToolsCall srv id params = Fulfilled (tool_failure id message)
    /\ isError (tool_failure id message) = JBool true
    /\ has_field (tool_failure id message) "error" = false
    /\ prop (tool_failure id message) "id" = id.
Proof.
  intros [-> | [-> | ->]] Hname Hun.
  - eexists. split; [apply iTick_unknown_tool, Hun|].
    split; [|repeat split].
    apply (handleToolsCall_throw _ _ _ _ _ Hname), iTick_unknown_tool, Hun.
  - eexists. split; [apply HKGov_unknown_tool, Hun|].
    split; [|repeat split].
    apply (handleToolsCall_throw _ _ _ _ _ Hname), HKGov_unknown_tool, Hun.
  - eexists. split; [apply HKO_unknown_tool, Hun|].
    split; [|repeat split].
    apply (handleToolsCall_throw _ _ _ _ _ Hname), HKO_unknown_tool, Hun.
Qed.

Lemma iterate_tools_call (srv : server) (tools : list value) (line : string)
    (message : value) :
  JSON_parse line = Normal message ->
  prop message "method" = JStr "tools/call" ->
  iterate srv tools line
  = match handleToolsCall srv (prop message "id") (prop message "params")
    with
    | Fulfilled r => Written r
    | Pending id call => Suspended id call
    end.
Proof.
  intros Hp Hm.
  pose proof (JSON_parse_Normal _ _ Hp) as Hp'.
  unfold iterate, try_block.
  rewrite (valid_json_not_blank _ _ Hp'), Hp. cbn [bind].
  rewrite !(Get_of_prop _ _ _ Hm). cbn [bind].
  rewrite Hm. reflexivity.
Qed.

(** C4, amended.  A [tools/call] request whose [params.name] is a string
    that names no tool of the server gets a response without a top-level
    [error] field and with [result.isError] [true].  On the HK Gov and HKO
    servers [result.content[0].text] is ["Error: Unknown tool: "] followed
    by the name; on the iTick server it is that when [arguments.code] is
    truthy, and ["Error: Stock code is required"] when it is not. *)
Theorem unregistered_tool_response
    (tools : list value) (line : string) (message : value) (name : string) :
  JSON_parse line = Normal message ->
  prop message "method" = JStr "tools/call" ->
  prop (prop message "params") "name" = JStr name ->
  let id := prop message "id" in
  let code := OptGet (prop (prop message "params") "arguments") "code" in
  let unknown := "Unknown tool: " +++ name in
  (~ registered HKGov name ->
   iterate HKGov tools line = Written (tool_failure id unknown))
  /\ (~ registered HKO name ->
      iterate HKO tools line = Written (tool_failure id unknown))
  /\ (~ registered iTick name ->
      iterate iTick tools line
      = Written (tool_failure id (if ToBoolean code then unknown
                                  else "Stock code is required")))
  /\ (forall m : string,
        has_field (tool_failure id m) "error" = false
        /\ isError (tool_failure id m) = JBool true
        /\ content_text (tool_failure id m) = JStr ("Error: " +++ m))
  /\ contains ("Error: " +++ unknown) name = true.
Proof.
  intros Hp Hm Hname id code unknown.
  split; [|split; [|split; [|split]]].
  - intros Hun. rewrite (iterate_tools_call _ _ _ _ Hp Hm).
    rewrite (handleToolsCall_throw _ _ _ _ _ Hname (HKGov_unknown_tool _ _ Hun)).
    reflexivity.
  - intros Hun. rewrite (iterate_tools_call _ _ _ _ Hp Hm).
    rewrite (handleToolsCall_throw _ _ _ _ _ Hname (HKO_unknown_tool _ _ Hun)).
    reflexivity.
  - intros Hun. rewrite (iterate_tools_call _ _ _ _ Hp Hm).
    rewrite (handleToolsCall_throw _ _ _ _ _ Hname (iTick_unknown_tool _ _ Hun)).
    reflexivity.
  - intros m. repeat split.
  - unfold unknown. rewrite <- append_assoc. apply contains_suffix.
Qed.

End Dispatcher_properties.

(** ** The Session Loop *)

Section Session_properties.
Context {engine : Engine}.
Variable srv : server.

(** The loop over the lines touches nothing but the output and the list
    of waiting invocations. *)
Lemma run_lines_frame (c : nat) (lines : list string) :
  forall (i : nat) (s : session),
    let s' := run_lines srv c i lines s in
    alive s' = alive s /\ buffer s' = buffer s
    /\ this_tools s' = this_tools s /\ chunks_seen s' = chunks_seen s.
Proof.
  induction lines as [|line rest IH]; intros i s; cbn [run_lines].
  - repeat split.
  - destruct (iterate srv (this_tools s) line) as [|r|id call].
    + apply IH.
    + destruct (IH (S i) (write (c, i) r s)) as (Ha & Hb & Ht & Hc).
      repeat split; assumption.
    + repeat split.
Qed.

Lemma run_lines_alive (c i : nat) (lines : list string) (s : session) :
  alive (run_lines srv c i lines s) = alive s.
Proof. apply run_lines_frame. Qed.

Lemma run_lines_buffer (c i : nat) (lines : list string) (s : session) :
  buffer (run_lines srv c i lines s) = buffer s.
Proof. apply run_lines_frame. Qed.

Lemma run_lines_this_tools (c i : nat) (lines : list string) (s : session) :
  this_tools (run_lines srv c i lines s) = this_tools s.
Proof. apply run_lines_frame. Qed.

Lemma run_lines_chunks_seen (c i : nat) (lines : list string) (s : session) :
  chunks_seen (run_lines srv c i lines s) = chunks_seen s.
Proof. apply run_lines_frame. Qed.

Lemma step_this_tools (s : session) (e : event) :
  this_tools (step srv s e) = this_tools s.
Proof.
  unfold step. destruct (alive s); [|reflexivity].
  destruct e as [chunk | c o |]; [| |reflexivity].
  - unfold on_data. destruct (read_chunk (buffer s) chunk) as [lines b].
    now rewrite run_lines_this_tools.
  - unfold on_settle. destruct (find (waits_for c) (tasks s)); [|reflexivity].
    now rewrite run_lines_this_tools.
Qed.

(** Nothing but the end of the input ends the session. *)
Lemma only_end_terminates (s : session) (e : event) :
  e <> End -> alive (step srv s e) = alive s.
Proof.
  intros He. unfold step. destruct (alive s) eqn:Ha; [|exact Ha].
  destruct e as [chunk | c o |]; [| |contradiction].
  - unfold on_data. destruct (read_chunk (buffer s) chunk) as [lines b].
    now rewrite run_lines_alive.
  - unfold on_settle. destruct (find (waits_for c) (tasks s)); [|exact Ha].
    now rewrite run_lines_alive.
Qed.

Lemma fold_step_this_tools (events : list event) (s : session) :
  this_tools (fold_left (step srv) events s) = this_tools s.
Proof.
  revert s. induction events as [|e later IH]; intros s; [reflexivity|].
  cbn [fold_left]. rewrite IH. apply step_this_tools.
Qed.

(** The tool table is the one the constructor built, whatever has
    happened since. *)
Lemma registry_frozen (events : list event) :
  this_tools (run srv events) = defineTools srv.
Proof. unfold run. rewrite fold_step_this_tools. reflexivity. Qed.

Lemma fold_step_exited (events : list event) (s : session) :
  alive s = false -> fold_left (step srv) events s = s.
Proof.
  intros Ha. induction events as [|e later IH]; [reflexivity|].
  cbn [fold_left].
  assert (E : step srv s e = s) by (unfold step; rewrite Ha; reflexivity).
  rewrite E. exact IH.
Qed.

(** The buffer of the session is the one the Frame Reader keeps for the
    chunks delivered, whenever the collaborators answer in between. *)
Lemma fold_step_buffer (events : list event) (s : session) :
  alive s = true ->
  buffer (fold_left (step srv) events s)
  = snd (read_chunks (buffer s) (chunks_of events)).
Proof.
  revert s. induction events as [|e later IH]; intros s Ha; [reflexivity|].
  cbn [fold_left]. destruct e as [chunk | c o |].
  - rewrite IH by (rewrite only_end_terminates; [exact Ha | discriminate]).
    cbn [chunks_of read_chunks].
    unfold step, on_data. rewrite Ha.
    destruct (read_chunk (buffer s) chunk) as [lines b].
    rewrite run_lines_buffer. cbn [buffer].
    destruct (read_chunks b (chunks_of later)). reflexivity.
  - rewrite IH by (rewrite only_end_terminates; [exact Ha | discriminate]).
    cbn [chunks_of]. f_equal. f_equal.
    unfold step, on_settle. rewrite Ha.
    destruct (find (waits_for c) (tasks s)); [|reflexivity].
    rewrite run_lines_buffer. reflexivity.
  - rewrite fold_step_exited; unfold step; rewrite Ha; reflexivity.
Qed.

Lemma session_buffer (events : list event) :
  buffer (run srv events) = snd (read_chunks "" (chunks_of events)).
Proof. apply (fold_step_buffer events (start srv)). reflexivity. Qed.

(** C9.  Two [tools/list] requests of one session, whatever happens
    before and between them, are answered with the same list of tool
    descriptors, the one built by [defineTools] at start; the tool table
    of the session never changes.  (The bytes written are
    [JSON.stringify] of the response, a function of the value.) *)
Theorem tools_list_idempotent
    (events later : list event) (line line' : string)
    (message message' : value) :
  JSON_parse line = Normal message ->
  prop message "method" = JStr "tools/list" ->
  JSON_parse line' = Normal message' ->
  prop message' "method" = JStr "tools/list" ->
  let s := run srv events in
  let s' := run srv (events ++ later) in
  exists r r' : value,
    iterate srv (this_tools s) line = Written r
    /\ iterate srv (this_tools s') line' = Written r'
    /\ prop (prop r "result") "tools" = JArr (defineTools srv)
    /\ prop (prop r' "result") "tools" = prop (prop r "result") "tools"
    /\ this_tools s' = this_tools s.
Proof.
  intros Hp Hm Hp' Hm' s s'.
  assert (Hlist : forall tools l m,
             JSON_parse l = Normal m -> prop m "method" = JStr "tools/list" ->
             iterate srv tools l
             = Written (handleToolsList tools (prop m "id"))).
  { intros tools l m Hl Hmm.
    pose proof (JSON_parse_Normal _ _ Hl) as Hl'.
    unfold iterate, try_block.
    rewrite (valid_json_not_blank _ _ Hl'), Hl. cbn [bind].
    rewrite !(Get_of_prop _ _ _ Hmm). cbn [bind].
    rewrite Hmm. reflexivity. }
  exists (handleToolsList (this_tools s) (prop message "id")),
         (handleToolsList (this_tools s') (prop message' "id")).
  unfold s, s'. rewrite !registry_frozen.
  repeat split; [apply (Hlist _ _ _ Hp Hm) | apply (Hlist _ _ _ Hp' Hm')].
Qed.

(** C6.  Whatever a tool handler throws is caught by [handleToolsCall]
    and becomes a tool-level failure: what is thrown before a
    collaborator is called (a missing argument, an unknown tool, unreadable
    [params]) and what is thrown once the collaborator has answered or
    failed (a timeout, a malformed payload).  The response has
    [result.isError] [true], the text ["Error: "] followed by the message
    of the exception, no top-level [error] field and the id of the
    request; the session stays alive and the loop goes on with the lines
    that follow. *)
Theorem handler_exception_contained :
  (forall (id params : value) (message : string),
      (name <- Get params "name" ;;
       arguments <- Get params "arguments" ;;
       handleToolCall srv name arguments) = Throw message ->
      handleToolsCall srv id params = Fulfilled (tool_failure id message))
  /\ (forall (s : session) (c : nat) (t : task) (message : string),
        alive s = true ->
        find (waits_for c) (tasks s) = Some t ->
        let s' := step srv s (Settle c (Throw message)) in
        s' = run_lines srv c (S (line_no t)) (remaining t)
               (write (c, line_no t) (tool_failure (awaited_id t) message)
                  (resume c s))
        /\ alive s' = true)
  /\ (forall (id : value) (message : string),
        let r := tool_failure id message in
        isError r = JBool true
        /\ content_text r = JStr ("Error: " +++ message)
        /\ has_field r "error" = false
        /\ prop r "id" = id).
Proof.
  split; [|split].
  - intros id params message H. unfold handleToolsCall. rewrite H.
    reflexivity.
  - intros s c t message Ha Hf s'. split.
    + unfold s', step, on_settle. rewrite Ha, Hf. reflexivity.
    + unfold s'. rewrite only_end_terminates; [exact Ha | discriminate].
  - intros id message. repeat split.
Qed.

End Session_properties.

(** ** The order of responses *)

Section Order.
Context {engine : Engine}.
Variable srv : server.

Lemma StronglySorted_snoc {A} (R : A -> A -> Prop) (l : list A) (x : A) :
  StronglySorted R l -> Forall (fun y => R y x) l ->
  StronglySorted R (l ++ [x]).
Proof.
  induction 1 as [|y l Hl IH Hy]; intros Hx; cbn [app].
  - repeat constructor.
  - inversion Hx; subst. constructor; [apply IH; assumption|].
    apply Forall_app. split; [assumption | repeat constructor; assumption].
Qed.

Lemma chunk_written_up_to_next (c i : nat) (outs : list output) :
  chunk_written_up_to c i outs -> chunk_written_up_to c (S i) outs.
Proof.
  unfold chunk_written_up_to. apply Forall_impl. intros o H Hc.
  specialize (H Hc). lia.
Qed.

Lemma chunk_written_up_to_write (c i : nat) (outs : list output) (r : value) :
  chunk_written_up_to c i outs ->
  chunk_written_up_to c (S i) (outs ++ [{| origin := (c, i); response := r |}]).
Proof.
  intros H. apply Forall_app. split.
  - apply chunk_written_up_to_next, H.
  - constructor; [|constructor]. cbn. lia.
Qed.

Lemma chunk_written_up_to_other (c c' i i' : nat) (outs : list output)
    (r : value) :
  c' <> c ->
  chunk_written_up_to c' i' outs ->
  chunk_written_up_to c' i'
    (outs ++ [{| origin := (c, i); response := r |}]).
Proof.
  intros Hne H. apply Forall_app. split; [exact H|].
  constructor; [|constructor]. cbn. intros E. congruence.
Qed.

Lemma chunk_not_yet_written (c : nat) (outs : list output) :
  Forall (fun o => fst (origin o) < c) outs -> chunk_written_up_to c 0 outs.
Proof.
  unfold chunk_written_up_to. apply Forall_impl. intros o H E. lia.
Qed.

(** The loop keeps the sessions orderly, from a state in which no other
    invocation is waiting for chunk [c] and the chunk is written up to
    line [i]. *)
Lemma run_lines_orderly (c : nat) (lines : list string) :
  forall (i : nat) (s : session),
    c < chunks_seen s ->
    Forall (fun t => chunk_no t <> c) (tasks s) ->
    chunk_written_up_to c i (stdout s) ->
    orderly s ->
    orderly (run_lines srv c i lines s).
Proof.
  induction lines as [|line rest IH]; intros i s Hc Hother Hup Hs;
    cbn [run_lines]; [exact Hs|].
  destruct Hs as [Hout Htasks Hahead Hsorted].
  destruct (iterate srv (this_tools s) line) as [|r|id call].
  - apply IH; [exact Hc | exact Hother | | constructor; assumption].
    apply chunk_written_up_to_next, Hup.
  - apply IH; cbn [write chunks_seen tasks stdout];
      [exact Hc | exact Hother | apply chunk_written_up_to_write, Hup|].
    constructor; cbn [write chunks_seen tasks stdout].
    + apply Forall_app. split; [exact Hout | repeat constructor; exact Hc].
    + exact Htasks.
    + rewrite Forall_forall in Hahead, Hother |- *. intros t Ht.
      apply chunk_written_up_to_other; [apply Hother, Ht | apply Hahead, Ht].
    + apply StronglySorted_snoc; [exact Hsorted|].
      revert Hup. apply Forall_impl. intros o H E. apply H, E.
  - constructor; cbn [suspend chunks_seen tasks stdout].
    + exact Hout.
    + apply Forall_app. split; [exact Htasks | repeat constructor; exact Hc].
    + apply Forall_app. split; [exact Hahead | repeat constructor; exact Hup].
    + exact Hsorted.
Qed.

Lemma find_waits_for (c : nat) (ts : list task) (t : task) :
  find (waits_for c) ts = Some t -> In t ts /\ chunk_no t = c.
Proof.
  intros H. apply find_some in H. destruct H as [Hin Hw].
  split; [exact Hin | apply Nat.eqb_eq, Hw].
Qed.

Lemma resume_others (c : nat) (ts : list task) :
  Forall (fun t => chunk_no t <> c)
    (filter (fun t => negb (waits_for c t)) ts).
Proof.
  apply Forall_forall. intros t Ht. apply filter_In in Ht.
  destruct Ht as [_ Ht]. apply negb_true_iff, Nat.eqb_neq in Ht. exact Ht.
Qed.

Lemma Forall_filter {A} (P : A -> Prop) (f : A -> bool) (l : list A) :
  Forall P l -> Forall P (filter f l).
Proof.
  rewrite !Forall_forall. intros H x Hx. apply filter_In in Hx.
  apply H, Hx.
Qed.

Lemma step_orderly (s : session) (e : event) :
  orderly s -> orderly (step srv s e).
Proof.
  intros Hs. unfold step. destruct (alive s); [|exact Hs].
  destruct Hs as [Hout Htasks Hahead Hsorted].
  destruct e as [chunk | c o |].
  - unfold on_data. destruct (read_chunk (buffer s) chunk) as [lines b].
    apply run_lines_orderly; cbn [chunks_seen tasks stdout].
    + lia.
    + revert Htasks. apply Forall_impl. intros t Ht. lia.
    + apply chunk_not_yet_written, Hout.
    + constructor; cbn [chunks_seen tasks stdout];
        [ revert Hout; apply Forall_impl; intros; lia
        | revert Htasks; apply Forall_impl; intros; lia
        | exact Hahead | exact Hsorted ].
  - unfold on_settle.
    destruct (find (waits_for c) (tasks s)) as [t|] eqn:Hf;
      [|constructor; assumption].
    apply find_waits_for in Hf. destruct Hf as [Hin Hct].
    rewrite Forall_forall in Htasks, Hahead.
    pose proof (Htasks t Hin) as Hlt. pose proof (Hahead t Hin) as Hup.
    rewrite Hct in Hlt, Hup.
    apply run_lines_orderly; cbn [write resume chunks_seen tasks stdout].
    + exact Hlt.
    + apply resume_others.
    + apply chunk_written_up_to_write, Hup.
    + constructor; cbn [write resume chunks_seen tasks stdout].
      * apply Forall_app. split; [exact Hout | repeat constructor; exact Hlt].
      * apply Forall_filter, Forall_forall, Htasks.
      * apply Forall_forall. intros t' Ht'. apply filter_In in Ht'.
        destruct Ht' as [Hin' Hw].
        apply negb_true_iff, Nat.eqb_neq in Hw.
        apply chunk_written_up_to_other; [exact Hw | apply Hahead, Hin'].
      * apply StronglySorted_snoc; [exact Hsorted|].
        revert Hup. apply Forall_impl. intros o' H E. apply H, E.
  - constructor; cbn [on_end chunks_seen tasks stdout];
      [exact Hout | constructor | constructor | exact Hsorted].
Qed.

Lemma start_orderly : orderly (start srv).
Proof. constructor; cbn; constructor. Qed.

Lemma fold_step_orderly (events : list event) (s : session) :
  orderly s -> orderly (fold_left (step srv) events s).
Proof.
  revert s. induction events as [|e later IH]; intros s Hs; [exact Hs|].
  apply IH, step_orderly, Hs.
Qed.

Lemma sorted_write (c i : nat) (outs : list output) (r : value) :
  Forall (fun o => fst (origin o) < S c) outs ->
  chunk_written_up_to c i outs ->
  StronglySorted read_before outs ->
  StronglySorted read_before
    (outs ++ [{| origin := (c, i); response := r |}]).
Proof.
  intros Hseen Hup Hsorted. apply StronglySorted_snoc; [exact Hsorted|].
  unfold chunk_written_up_to in Hup. rewrite Forall_forall in Hseen, Hup |- *.
  intros o Ho. specialize (Hseen o Ho). specialize (Hup o Ho).
  unfold read_before. cbn [origin fst snd].
  destruct (Nat.eq_dec (fst (origin o)) c) as [E|E]; [right | left; lia].
  split; [exact E | apply Hup, E].
Qed.

Lemma run_lines_in_sequence (c : nat) (lines : list string) :
  forall (i : nat) (s : session),
    tasks s = [] ->
    S c = chunks_seen s ->
    Forall (fun o => fst (origin o) < S c) (stdout s) ->
    chunk_written_up_to c i (stdout s) ->
    StronglySorted read_before (stdout s) ->
    in_sequence (run_lines srv c i lines s).
Proof.
  induction lines as [|line rest IH]; intros i s Ht Hc Hseen Hup Hsorted;
    cbn [run_lines].
  - constructor; [rewrite <- Hc; exact Hseen | exact Hsorted | left; exact Ht].
  - destruct (iterate srv (this_tools s) line) as [|r|id call].
    + apply IH; try assumption. apply chunk_written_up_to_next, Hup.
    + apply IH; cbn [write chunks_seen tasks stdout]; try assumption.
      * apply Forall_app. split; [exact Hseen|].
        constructor; [cbn; lia | constructor].
      * apply chunk_written_up_to_write, Hup.
      * apply sorted_write; assumption.
    + constructor; cbn [suspend chunks_seen tasks stdout].
      * rewrite <- Hc. exact Hseen.
      * exact Hsorted.
      * right. rewrite Ht. eexists. split; [reflexivity|].
        split; [exact Hc | exact Hup].
Qed.

Lemma step_in_sequence (s : session) (e : event) :
  in_sequence s ->
  match e with Data _ => tasks s = [] | _ => True end ->
  in_sequence (step srv s e).
Proof.
  intros Hs He. unfold step. destruct (alive s); [|exact Hs].
  destruct Hs as [Hseen Hsorted Htasks].
  destruct e as [chunk | c o |].
  - unfold on_data. destruct (read_chunk (buffer s) chunk) as [lines b].
    apply run_lines_in_sequence; cbn [chunks_seen tasks stdout];
      [ exact He | reflexivity | | | exact Hsorted ].
    + revert Hseen. apply Forall_impl. intros; lia.
    + apply chunk_not_yet_written, Hseen.
  - unfold on_settle.
    destruct Htasks as [Ht | (t & Ht & Hc & Hup)].
    + rewrite Ht. cbn [find]. constructor; [assumption | assumption|].
      left. exact Ht.
    + rewrite Ht. cbn [find].
      destruct (waits_for c t) eqn:Hw.
      * apply Nat.eqb_eq in Hw. subst c.
        apply run_lines_in_sequence;
          cbn [write resume chunks_seen tasks stdout].
        -- rewrite Ht. cbn [filter]. unfold waits_for.
           rewrite Nat.eqb_refl. reflexivity.
        -- exact Hc.
        -- apply Forall_app. split; [rewrite Hc; exact Hseen|].
           constructor; [cbn; lia | constructor].
        -- apply chunk_written_up_to_write, Hup.
        -- apply sorted_write; [rewrite Hc; exact Hseen | exact Hup
                                | exact Hsorted].
      * constructor; [assumption | assumption|].
        right. exists t. repeat split; assumption.
  - constructor; cbn [on_end chunks_seen tasks stdout];
      [exact Hseen | exact Hsorted | left; reflexivity].
Qed.

Lemma fold_step_in_sequence (events : list event) (s : session) :
  in_sequence s -> serial srv s events ->
  in_sequence (fold_left (step srv) events s).
Proof.
  revert s. induction events as [|e later IH]; intros s Hs Hser; [exact Hs|].
  destruct Hser as [He Hlater].
  apply IH; [apply step_in_sequence; assumption | exact Hlater].
Qed.

Lemma start_in_sequence : in_sequence (start srv).
Proof. constructor; cbn; [constructor | constructor | left; reflexivity]. Qed.

(** C1, amended.  Whatever the events and their order, of two responses
    to frames of one chunk the one to the earlier frame is written first:
    the listener awaits each [tools/call] before it interprets the next
    line of its chunk.  When every chunk arrives while no listener
    invocation is waiting, all responses are written in the order in which
    their frames were read. *)
Theorem responses_ordered_within_chunk (events : list event) :
  StronglySorted read_before_in_chunk (stdout (run srv events))
  /\ (serial srv (start srv) events ->
      StronglySorted read_before (stdout (run srv events))).
Proof.
  split.
  - apply outputs_sorted, fold_step_orderly, start_orderly.
  - intros Hser.
    apply seq_sorted, fold_step_in_sequence; [apply start_in_sequence|].
    exact Hser.
Qed.

End Order.

(** * Further properties of the engine *)

Section Accounting.
Context {engine : Engine}.
Variable srv : server.

Lemma fold_after_end (s : session) (events : list event) :
  fold_left (step srv) (End :: events) s = step srv s End
  /\ alive (step srv s End) = false.
Proof.
  assert (Ha : alive (step srv s End) = false).
  { unfold step. destruct (alive s) eqn:E; [reflexivity | exact E]. }
  split; [|exact Ha]. cbn [fold_left].
  apply (fold_step_exited srv events _ Ha).
Qed.

(** X1.  Once the input has ended nothing more is written: whatever
    happens afterwards, a collaborator answering included, the output
    stays as it was when ['end'] arrived.  A [tools/call] that was still
    waiting is never answered. *)
Theorem nothing_written_after_end (s : session) (events : list event) :
  stdout (fold_left (step srv) (End :: events) s) = stdout s
  /\ tasks (fold_left (step srv) (End :: events) s) = tasks (step srv s End)
  /\ alive (fold_left (step srv) (End :: events) s) = false.
Proof.
  destruct (fold_after_end s events) as [Hf Ha]. rewrite Hf.
  repeat split; [|exact Ha].
  unfold step. destruct (alive s); reflexivity.
Qed.

Lemma iterate_skips_blank (tools : list value) (line : string) :
  iterate srv tools line = Skipped <-> blank line = true.
Proof.
  unfold iterate. destruct (blank line); split; intros H;
    try reflexivity; try discriminate.
  destruct (try_block srv tools line) as [[r | id call] | m]; discriminate.
Qed.

Lemma nonblank_cons (line : string) (rest : list string) :
  nonblank (line :: rest)
  = (if blank line then 0 else 1) + nonblank rest.
Proof. unfold nonblank. cbn [filter]. destruct (blank line); reflexivity. Qed.

Lemma list_sum_snoc (l : list nat) (n : nat) :
  list_sum (l ++ [n]) = list_sum l + n.
Proof. rewrite list_sum_app. cbn. lia. Qed.

(** The loop answers, awaits or queues every line that is not blank. *)
Lemma run_lines_accounts (c : nat) (lines : list string) :
  forall (i : nat) (s : session),
    c < chunks_seen s ->
    Forall (fun t => chunk_no t <> c) (tasks s) ->
    tracked s ->
    let s' := run_lines srv c i lines s in
    tracked s'
    /\ length (stdout s') + outstanding s'
       = length (stdout s) + outstanding s + nonblank lines.
Proof.
  induction lines as [|line rest IH]; intros i s Hc Hother Hs;
    cbn [run_lines].
  - split; [exact Hs | unfold nonblank; cbn; lia].
  - rewrite nonblank_cons.
    destruct (iterate srv (this_tools s) line) as [|r|id call] eqn:Hit.
    + apply iterate_skips_blank in Hit. rewrite Hit.
      apply IH; assumption.
    + assert (Hb : blank line = false).
      { destruct (blank line) eqn:E; [|reflexivity].
        apply (proj2 (iterate_skips_blank (this_tools s) line)) in E.
        congruence. }
      rewrite Hb.
      destruct (IH (S i) (write (c, i) r s)) as [Ht Hn];
        [exact Hc | exact Hother | destruct Hs; constructor; assumption |].
      split; [exact Ht|]. rewrite Hn.
      cbn [write stdout]. unfold outstanding. cbn [write tasks].
      rewrite length_app. cbn [length]. lia.
    + assert (Hb : blank line = false).
      { destruct (blank line) eqn:E; [|reflexivity].
        apply (proj2 (iterate_skips_blank (this_tools s) line)) in E.
        congruence. }
      rewrite Hb. destruct Hs as [Hseen Honce]. split.
      * constructor; cbn [suspend tasks chunks_seen].
        -- apply Forall_app. split; [exact Hseen|].
           constructor; [exact Hc | constructor].
        -- rewrite map_app. cbn [map chunk_no].
           apply NoDup_app;
             [exact Honce | constructor; [intros [] | constructor] |].
           intros x Hx [<- | []].
           apply in_map_iff in Hx. destruct Hx as (t & Ht & Hin).
           rewrite Forall_forall in Hother. exact (Hother t Hin Ht).
      * cbn [suspend stdout]. unfold outstanding. cbn [suspend tasks].
        rewrite map_app, list_sum_app.
        change (list_sum _) with (S (nonblank rest) + 0) at 2. lia.
Qed.

Lemma list_sum_cons (n : nat) (l : list nat) :
  list_sum (n :: l) = n + list_sum l.
Proof. reflexivity. Qed.

Lemma filter_all {A} (f : A -> bool) (l : list A) :
  (forall x, In x l -> f x = true) -> filter f l = l.
Proof.
  induction l as [|x l IH]; intros H; [reflexivity|].
  cbn [filter]. rewrite (H x (or_introl eq_refl)).
  f_equal. apply IH. intros y Hy. apply H. right. exact Hy.
Qed.

Lemma outstanding_resume (c : nat) (ts : list task) (t : task) :
  NoDup (map chunk_no ts) ->
  find (waits_for c) ts = Some t ->
  list_sum (map owed ts)
  = owed t
    + list_sum (map owed (filter (fun t' => negb (waits_for c t')) ts)).
Proof.
  induction ts as [|t' ts IH]; intros Hnd Hf; [discriminate|].
  cbn [map] in Hnd. inversion Hnd as [|x l Hnotin Hnd']; subst.
  cbn [find] in Hf. cbn [filter].
  destruct (waits_for c t') eqn:Hw.
  - inversion Hf; subst t'. cbn [negb map]. rewrite list_sum_cons.
    rewrite filter_all; [reflexivity|].
    intros u Hu. apply negb_true_iff. unfold waits_for.
    apply Nat.eqb_neq. intros E. apply Hnotin.
    apply Nat.eqb_eq in Hw. rewrite Hw, <- E.
    apply in_map, Hu.
  - cbn [negb map]. rewrite !list_sum_cons, (IH Hnd' Hf). lia.
Qed.

Lemma NoDup_map_filter {A B} (f : A -> B) (g : A -> bool) (l : list A) :
  NoDup (map f l) -> NoDup (map f (filter g l)).
Proof.
  induction l as [|x l IH]; intros H; [constructor|].
  cbn [map] in H. inversion H as [|y l' Hnotin Hnd]; subst.
  cbn [filter]. destruct (g x); [|apply IH, Hnd].
  cbn [map]. constructor; [|apply IH, Hnd].
  intros Hin. apply Hnotin.
  apply in_map_iff in Hin. destruct Hin as (z & Hz & Hzin).
  apply filter_In in Hzin. rewrite <- Hz. apply in_map, Hzin.
Qed.

Lemma nonblank_app (l l' : list string) :
  nonblank (l ++ l') = nonblank l + nonblank l'.
Proof. unfold nonblank. rewrite filter_app, length_app. reflexivity. Qed.

Lemma step_accounts (s : session) (e : event) :
  tracked s -> alive s = true -> e <> End ->
  let s' := step srv s e in
  tracked s'
  /\ length (stdout s') + outstanding s'
     = length (stdout s) + outstanding s
       + match e with
         | Data chunk => nonblank (fst (read_chunk (buffer s) chunk))
         | _ => 0
         end.
Proof.
  intros Hs Ha He. unfold step. rewrite Ha.
  destruct e as [chunk | c o |]; [| |contradiction].
  - unfold on_data. destruct (read_chunk (buffer s) chunk) as [lines b].
    cbn [fst]. destruct Hs as [Hseen Honce].
    apply (run_lines_accounts (chunks_seen s) lines 0
             {| alive := alive s; buffer := b; this_tools := this_tools s;
                chunks_seen := S (chunks_seen s); tasks := tasks s;
                stdout := stdout s |}); cbn [chunks_seen tasks].
    + lia.
    + revert Hseen. apply Forall_impl. intros t Ht. lia.
    + constructor; cbn [chunks_seen tasks]; [|exact Honce].
      revert Hseen. apply Forall_impl. intros t Ht. lia.
  - unfold on_settle.
    destruct (find (waits_for c) (tasks s)) as [t|] eqn:Hf;
      [|split; [exact Hs | lia]].
    destruct Hs as [Hseen Honce].
    pose proof (find_waits_for _ _ _ Hf) as [Hin Hct].
    pose proof (outstanding_resume _ _ _ Honce Hf) as Hsum.
    destruct (run_lines_accounts c (remaining t) (S (line_no t))
                (write (c, line_no t)
                   (handleToolsCall_settled (awaited_id t) o) (resume c s)))
      as [Ht Hn]; cbn [write resume chunks_seen tasks].
    + rewrite Forall_forall in Hseen. rewrite <- Hct. apply Hseen, Hin.
    + apply resume_others.
    + constructor; cbn [write resume chunks_seen tasks].
      * apply Forall_filter, Hseen.
      * apply NoDup_map_filter, Honce.
    + split; [exact Ht|]. rewrite Hn.
      cbn [write resume stdout]. unfold outstanding.
      cbn [write resume tasks]. rewrite Hsum, length_app.
      change (owed t) with (S (nonblank (remaining t))).
      cbn [length]. lia.
Qed.

Lemma step_buffer_data (s : session) (chunk : string) :
  alive s = true ->
  buffer (step srv s (Data chunk)) = snd (read_chunk (buffer s) chunk).
Proof.
  intros Ha. unfold step, on_data. rewrite Ha.
  destruct (read_chunk (buffer s) chunk) as [lines b].
  now rewrite run_lines_buffer.
Qed.

Lemma step_buffer_settle (s : session) (c : nat) (o : completion value) :
  buffer (step srv s (Settle c o)) = buffer s.
Proof.
  unfold step, on_settle. destruct (alive s); [|reflexivity].
  destruct (find (waits_for c) (tasks s)); [|reflexivity].
  now rewrite run_lines_buffer.
Qed.

Lemma fold_step_accounts (events : list event) :
  forall s : session,
    tracked s ->
    alive (fold_left (step srv) events s) = true ->
    length (stdout (fold_left (step srv) events s))
    + outstanding (fold_left (step srv) events s)
    = length (stdout s) + outstanding s
      + nonblank (fst (read_chunks (buffer s) (chunks_of events))).
Proof.
  induction events as [|e later IH]; intros s Hs Hlive.
  - cbn. unfold nonblank. cbn. lia.
  - cbn [fold_left] in *.
    assert (Ha : alive s = true).
    { destruct (alive s) eqn:E; [reflexivity|].
      assert (Es : step srv s e = s) by (unfold step; now rewrite E).
      rewrite Es, fold_step_exited in Hlive by exact E. congruence. }
    assert (He : e <> End).
    { intros ->. rewrite fold_step_exited in Hlive.
      - unfold step in Hlive. rewrite Ha in Hlive. discriminate.
      - unfold step. rewrite Ha. reflexivity. }
    destruct (step_accounts s e Hs Ha He) as [Ht Hn].
    rewrite (IH _ Ht Hlive), Hn.
    destruct e as [chunk | c o |]; [| |contradiction].
    + rewrite (step_buffer_data _ _ Ha). cbn [chunks_of read_chunks].
      destruct (read_chunk (buffer s) chunk) as [lines b]. cbn [fst snd].
      destruct (read_chunks b (chunks_of later)) as [frames final].
      cbn [fst]. rewrite nonblank_app. lia.
    + rewrite step_buffer_settle. cbn [chunks_of]. lia.
Qed.

(** X2.  As long as the input has not ended, no frame is lost and none is
    answered twice: the frames read so far that are not blank are as many
    as the responses written plus what the waiting listener invocations
    still owe, each its awaited request and the lines queued behind
    it. *)
Theorem frames_accounted (events : list event) :
  alive (run srv events) = true ->
  length (stdout (run srv events)) + outstanding (run srv events)
  = nonblank (fst (read_chunks "" (chunks_of events))).
Proof.
  intros Hlive. unfold run in *.
  rewrite (fold_step_accounts events (start srv)); [reflexivity | | exact Hlive].
  constructor; cbn; constructor.
Qed.

(** X3.  The buffer of the session is always the unfinished tail of the
    input received: the last piece of that input split at newlines.  It
    holds no newline, so no complete frame is ever left waiting in it. *)
Theorem buffer_is_unfinished_tail (events : list event) :
  buffer (run srv events)
  = last (split (join_chunks (chunks_of events))) ""
  /\ count_LF (buffer (run srv events)) = 0.
Proof.
  rewrite (session_buffer srv events).
  rewrite (read_chunks_spec (chunks_of events) "" eq_refl).
  cbn [snd String.append]. split; [reflexivity | apply last_split_no_LF].
Qed.

End Accounting.

Section Envelopes.
Context {engine : Engine}.
Variable srv : server.

Lemma handleToolsCall_cases (id params : value) :
  (exists message, handleToolsCall srv id params
                   = Fulfilled (tool_failure id message))
  \/ (exists name arguments call,
        Get params "name" = Normal name
        /\ Get params "arguments" = Normal arguments
        /\ handleToolCall srv name arguments = Normal call
        /\ handleToolsCall srv id params = Pending id call).
Proof.
  unfold handleToolsCall.
  destruct (Get params "name") as [name|m] eqn:En; cbn [bind];
    [|left; eexists; reflexivity].
  destruct (Get params "arguments") as [arguments|m] eqn:Ea; cbn [bind];
    [|left; eexists; reflexivity].
  destruct (handleToolCall srv name arguments) as [call|m] eqn:Ec;
    [|left; eexists; reflexivity].
  right. exists name, arguments, call. repeat split; assumption.
Qed.

(** What an iteration can write: one of the five response shapes. *)
Lemma iterate_written (tools : list value) (line : string) (r : value) :
  iterate srv tools line = Written r ->
  (exists id, r = handleInitialize srv id)
  \/ (exists id, r = handleToolsList tools id)
  \/ (exists id message, r = tool_failure id message)
  \/ (exists id name, r = method_not_found id name)
  \/ (exists message, r = parse_error message).
Proof.
  unfold iterate. destruct (blank line); [discriminate|].
  unfold try_block.
  destruct (JSON_parse line) as [message|m]; cbn [bind];
    [|intros H; inversion H; do 4 right; eexists; reflexivity].
  destruct (Get message "method") as [method|m]; cbn [bind];
    [|intros H; inversion H; do 4 right; eexists; reflexivity].
  destruct (Get message "id") as [id|m]; cbn [bind].
  2:{ repeat match goal with
             | |- context [if ?b then _ else _] => destruct b
             end; intros H; inversion H; do 4 right; eexists; reflexivity. }
  destruct (is_str method "initialize");
    [intros H; inversion H; left; eexists; reflexivity|].
  destruct (is_str method "tools/list");
    [intros H; inversion H; right; left; eexists; reflexivity|].
  destruct (is_str method "tools/call").
  - destruct (Get message "params") as [params|m]; cbn [bind];
      [|intros H; inversion H; do 4 right; eexists; reflexivity].
    destruct (handleToolsCall_cases id params)
      as [[m Hm] | (n & a & call & _ & _ & _ & Hp)]; rewrite ?Hm, ?Hp;
      intros H; inversion H.
    do 2 right; left. do 2 eexists. reflexivity.
  - cbn [bind].
    destruct (ToString method) as [name|m]; cbn [bind];
      intros H; inversion H.
    + do 3 right; left. do 2 eexists. reflexivity.
    + do 4 right. eexists. reflexivity.
Qed.

Lemma tool_failure_envelope (id : value) (message : string) :
  envelope (tool_failure id message).
Proof. split; [reflexivity | left; split; reflexivity]. Qed.

Lemma iterate_envelope (tools : list value) (line : string) (r : value) :
  iterate srv tools line = Written r -> envelope r.
Proof.
  intros H. apply iterate_written in H.
  destruct H as [[id ->] | [[id ->] | [(id & m & ->) | [(id & n & ->) | [m ->]]]]];
    (split; [reflexivity|]);
    first [left; split; reflexivity | right; split; reflexivity].
Qed.

Lemma settled_envelope (id : value) (o : completion value) :
  envelope (handleToolsCall_settled id o).
Proof.
  destruct o; (split; [reflexivity | left; split; reflexivity]).
Qed.

Lemma run_lines_envelopes (c : nat) (lines : list string) :
  forall (i : nat) (s : session),
    Forall envelope (responses s) ->
    Forall envelope (responses (run_lines srv c i lines s)).
Proof.
  induction lines as [|line rest IH]; intros i s Hs; cbn [run_lines];
    [exact Hs|].
  destruct (iterate srv (this_tools s) line) as [|r|id call] eqn:Hit.
  - apply IH, Hs.
  - apply IH. unfold responses in *. cbn [write stdout].
    rewrite map_app. apply Forall_app. split; [exact Hs|].
    constructor; [exact (iterate_envelope _ _ _ Hit) | constructor].
  - exact Hs.
Qed.

Lemma step_envelopes (s : session) (e : event) :
  Forall envelope (responses s) ->
  Forall envelope (responses (step srv s e)).
Proof.
  intros Hs. unfold step. destruct (alive s); [|exact Hs].
  destruct e as [chunk | c o |]; [| |exact Hs].
  - unfold on_data. destruct (read_chunk (buffer s) chunk) as [lines b].
    apply run_lines_envelopes. exact Hs.
  - unfold on_settle. destruct (find (waits_for c) (tasks s)); [|exact Hs].
    apply run_lines_envelopes. unfold responses in *.
    cbn [write resume stdout]. rewrite map_app.
    apply Forall_app. split; [exact Hs|].
    constructor; [apply settled_envelope | constructor].
Qed.

(** X4.  Everything the server writes is a JSON-RPC response: it has
    the version ["2.0"] and, on the wire, exactly one of [result] and
    [error]. *)
Theorem every_response_is_an_envelope (events : list event) :
  Forall envelope (responses (run srv events)).
Proof.
  unfold run.
  assert (H : Forall envelope (responses (start srv))) by constructor.
  revert H. generalize (start srv).
  induction events as [|e later IH]; intros s Hs; [exact Hs|].
  apply IH, step_envelopes, Hs.
Qed.

End Envelopes.

Lemma value_induction (P : value -> Prop) :
  P JUndefined -> P JNull -> (forall b, P (JBool b)) ->
  (forall literal, P (JNum literal)) -> (forall s, P (JStr s)) ->
  (forall elems, Forall P elems -> P (JArr elems)) ->
  (forall props, Forall (fun kv => P (snd kv)) props -> P (JObj props)) ->
  forall v, P v.
Proof.
  intros Hu Hn Hb Hnum Hs Harr Hobj.
  fix IH 1. intros [| | b | literal | s | elems | props].
  - exact Hu.
  - exact Hn.
  - apply Hb.
  - apply Hnum.
  - apply Hs.
  - apply Harr. induction elems as [|x rest IHl]; constructor.
    + apply IH.
    + exact IHl.
  - apply Hobj. induction props as [|[k x] rest IHl]; constructor.
    + apply IH.
    + exact IHl.
Qed.

Section Dispatch.
Context {engine : Engine}.

(** The only exception a string conversion throws. *)
Lemma ToString_throws (v : value) (m : string) :
  ToString v = Throw m -> m = TypeError_primitive.
Proof.
  revert m.
  induction v as [| | b | literal | s | elems IH | props IH]
    using value_induction; intros m; cbn [ToString]; try discriminate.
  - destruct b; discriminate.
  - revert m. induction IH as [|x rest Hx Hrest IHrest]; intros m;
      [discriminate|].
    assert (Hfirst : forall m',
               match x with
               | JUndefined | JNull => Normal ""
               | _ => ToString x
               end = Throw m' -> m' = TypeError_primitive).
    { intros m'. destruct x; try discriminate; apply Hx. }
    match goal with
    | |- bind ?first _ = _ -> _ => destruct first as [s|m'] eqn:E
    end; cbn [bind].
    + destruct rest as [|y rest']; [discriminate|].
      match goal with
      | |- bind ?others _ = _ -> _ => destruct others as [t|m'] eqn:E'
      end; cbn [bind]; [discriminate|].
      intros H; inversion H; subst. apply IHrest. reflexivity.
    + intros H; inversion H; subst. apply Hfirst. reflexivity.
  - destruct (has_own props "toString"); [|discriminate].
    intros H; inversion H; reflexivity.
Qed.

(** A text with no refused character before a text. *)
Lemma unescaped_characters_app (a b : string) :
  unescaped_characters a = false ->
  unescaped_characters (a +++ b) = unescaped_characters b.
Proof.
  remember (String.length a) as n eqn:Hn. revert a Hn.
  induction n as [n IH] using lt_wf_ind. intros a Hn.
  destruct a as [|c r]; [reflexivity|].
  cbn [String.append unescaped_characters].
  destruct (code c <? 33)%N; [discriminate|].
  destruct (code c <? 128)%N.
  - apply (IH (String.length r)); [subst n; cbn; lia | reflexivity].
  - destruct ((code c =? 194)%N || (code c =? 195)%N); [|discriminate].
    destruct r as [|c' r']; [discriminate|].
    cbn [String.append].
    apply (IH (String.length r')); [subst n; cbn; lia | reflexivity].
Qed.

(** What an API method comes to: the request goes out, the path cannot
    be built, or the request is refused. *)
Lemma awaiting_cases (path : completion string) (call : upstream) :
  (exists p, path = Normal p /\ unescaped_characters p = false
             /\ awaiting path call = Normal call)
  \/ (exists m, path = Throw m /\ awaiting path call = Throw m)
  \/ (exists p, path = Normal p /\ unescaped_characters p = true
                /\ awaiting path call = Throw ERR_UNESCAPED_CHARACTERS).
Proof.
  unfold awaiting, request. destruct path as [p|m]; cbn [bind].
  - destruct (unescaped_characters p) eqn:E; cbn [bind].
    + right. right. exists p. repeat split. exact E.
    + left. exists p. repeat split. exact E.
  - right. left. exists m. split; reflexivity.
Qed.

Lemma awaiting_sent (p : string) (call : upstream) :
  unescaped_characters p = false -> awaiting (Normal p) call = Normal call.
Proof. intros H. unfold awaiting, request. cbn [bind]. now rewrite H. Qed.

(** An argument that is absent or a plain string, and its default. *)
Lemma plain_cases (v : value) :
  plain v = true ->
  v = JUndefined
  \/ exists s, v = JStr s /\ unescaped_characters s = false.
Proof.
  destruct v; cbn [plain]; try discriminate; [left; reflexivity|].
  intros H. right. eexists. split; [reflexivity|].
  now apply negb_true_iff in H.
Qed.

Lemma plain_or_else (v : value) (d : string) :
  plain v = true -> unescaped_characters d = false ->
  exists s, or_else v (JStr d) = JStr s /\ unescaped_characters s = false.
Proof.
  intros Hv Hd. destruct (plain_cases v Hv) as [-> | (s & -> & Hs)].
  - exists d. split; [reflexivity | exact Hd].
  - unfold or_else. destruct (ToBoolean (JStr s)).
    + exists s. split; [reflexivity | exact Hs].
    + exists d. split; [reflexivity | exact Hd].
Qed.

Lemma plain_or_number (v : value) (literal : string) :
  plain v = true ->
  unescaped_characters (Number_toString literal) = false ->
  exists s, ToString (or_else v (JNum literal)) = Normal s
            /\ unescaped_characters s = false.
Proof.
  intros Hv Hd. destruct (plain_cases v Hv) as [-> | (s & -> & Hs)].
  - unfold or_else. cbn [ToBoolean ToString]. eexists. split; [reflexivity|].
    exact Hd.
  - unfold or_else. destruct (ToBoolean (JStr s)); cbn [ToString].
    + exists s. split; [reflexivity | exact Hs].
    + eexists. split; [reflexivity | exact Hd].
Qed.

Lemma plain_text (v : value) :
  plain v = true ->
  exists s, ToString v = Normal s /\ unescaped_characters s = false.
Proof.
  intros Hv. destruct (plain_cases v Hv) as [-> | (s & -> & Hs)].
  - exists "undefined". split; reflexivity.
  - exists s. split; [reflexivity | exact Hs].
Qed.

Lemma is_str_true (v : value) (s : string) :
  is_str v s = true -> v = JStr s.
Proof.
  destruct v; cbn [is_str]; try discriminate.
  intros H. apply String.eqb_eq in H. now subst.
Qed.

Ltac listed :=
  match goal with
  | H : is_str ?v ?n = true |- _ =>
      apply is_str_true in H; subst v; eexists; split; [reflexivity|];
      unfold registered; vm_compute; tauto
  end.

Lemma iTick_dispatches_listed (toolName args : value) (call : upstream) :
  handleToolCall iTick toolName args = Normal call ->
  exists n, toolName = JStr n /\ registered iTick n.
Proof.
  cbn [handleToolCall iTick]. unfold iTick_handleToolCall.
  destruct (negb (ToBoolean (OptGet args "code"))); [discriminate|].
  repeat match goal with
         | |- context [if is_str toolName ?n then _ else _] =>
             destruct (is_str toolName n) eqn:?; [intros _; listed|]
         end.
  destruct (ToString toolName); discriminate.
Qed.

Lemma HKGov_dispatches_listed (toolName args : value) (call : upstream) :
  handleToolCall HKGov toolName args = Normal call ->
  exists n, toolName = JStr n /\ registered HKGov n.
Proof.
  cbn [handleToolCall HKGov]. unfold HKGov_handleToolCall.
  repeat match goal with
         | |- context [if is_str toolName ?n then _ else _] =>
             destruct (is_str toolName n) eqn:?; [intros _; listed|]
         end.
  destruct (ToString toolName); discriminate.
Qed.

Lemma HKO_dispatches_listed (toolName args : value) (call : upstream) :
  handleToolCall HKO toolName args = Normal call ->
  exists n, toolName = JStr n /\ registered HKO n.
Proof.
  cbn [handleToolCall HKO]. unfold HKO_handleToolCall.
  repeat match goal with
         | |- context [if is_str toolName ?n then _ else _] =>
             destruct (is_str toolName n) eqn:?; [intros _; listed|]
         end.
  destruct (ToString toolName); discriminate.
Qed.

Lemma Get_Normal (v : value) (key : string) (x : value) :
  Get v key = Normal x ->
  x = prop v key /\ forall key', Get v key' = Normal (prop v key').
Proof.
  destruct v; cbn [Get]; try discriminate;
    intros H; inversion H; split; reflexivity.
Qed.

Lemma iterate_suspended (srv : server) (tools : list value) (line : string)
    (id : value) (call : upstream) :
  iterate srv tools line = Suspended id call ->
  exists message : value,
    JSON_parse line = Normal message
    /\ prop message "method" = JStr "tools/call"
    /\ id = prop message "id"
    /\ handleToolCall srv (prop (prop message "params") "name")
         (prop (prop message "params") "arguments") = Normal call.
Proof.
  intros H. unfold iterate in H. destruct (blank line); [discriminate|].
  unfold try_block in H.
  destruct (JSON_parse line) as [message|m] eqn:Hp; cbn [bind] in H;
    [|discriminate].
  destruct (Get message "method") as [method|m] eqn:Hm; cbn [bind] in H;
    [|discriminate].
  destruct (Get_Normal _ _ _ Hm) as [-> HG].
  rewrite !HG in H. cbn [bind] in H.
  destruct (is_str (prop message "method") "initialize"); [discriminate|].
  destruct (is_str (prop message "method") "tools/list"); [discriminate|].
  destruct (is_str (prop message "method") "tools/call") eqn:E.
  2:{ destruct (ToString (prop message "method")); discriminate. }
  apply is_str_true in E.
  destruct (handleToolsCall_cases srv (prop message "id")
              (prop message "params"))
    as [[m Hf] | (n & a & c & Hn & Ha & Hc & Hpend)].
  - rewrite Hf in H. discriminate.
  - rewrite Hpend in H. inversion H; subst.
    destruct (Get_Normal _ _ _ Hn) as [-> _].
    destruct (Get_Normal _ _ _ Ha) as [-> _].
    exists message. repeat split; assumption.
Qed.

(** X5.  A listener invocation only ever waits for a collaborator on
    behalf of a [tools/call] request that names a tool of the server's
    list; the awaited request is filed under the id of that request.
    Every other frame is dealt with at once. *)
Theorem waits_only_for_listed_tools
    (srv : server) (tools : list value) (line : string) (id : value)
    (call : upstream) :
  srv = iTick \/ srv = HKGov \/ srv = HKO ->
  iterate srv tools line = Suspended id call ->
  exists (message : value) (name : string),
    JSON_parse line = Normal message
    /\ prop message "method" = JStr "tools/call"
    /\ id = prop message "id"
    /\ prop (prop message "params") "name" = JStr name
    /\ registered srv name.
Proof.
  intros Hsrv H. apply iterate_suspended in H.
  destruct H as (message & Hp & Hm & Hid & Hc).
  assert (Hn : exists n, prop (prop message "params") "name" = JStr n
                         /\ registered srv n).
  { destruct Hsrv as [-> | [-> | ->]];
      [ apply iTick_dispatches_listed in Hc
      | apply HKGov_dispatches_listed in Hc
      | apply HKO_dispatches_listed in Hc ]; exact Hc. }
  destruct Hn as (n & Hn & Hr).
  exists message, n. repeat split; assumption.
Qed.

Ltac each_listed H :=
  repeat (destruct H as [H | H];
          [inversion H; subst; clear H|]); try contradiction.

Ltac outcome_of_method :=
  unfold searchSymbol, getPrice, getKline, getQuote, getDepth, getTrades,
    getHKOLocalForecast, getHKO9DayForecast, getHKOCurrentWeather,
    getHKOWarnings, getHKOSpecialTips, getHKOEarthquake, getTrafficSpeed,
    getAEWaitingTime, getKMBRoutes, getKMBStops, getKMBETA,
    getLocalForecast, get9DayForecast, getCurrentWeather,
    getWeatherWarnings, getSpecialTips, getEarthquakeInfo, getTsunamiInfo,
    getAllWeather, awaiting, request,
    searchSymbol_path, getPrice_path, getKline_path, getQuote_path,
    getDepth_path, getTrades_path, getKMBETA_path, with_lang;
  repeat match goal with
         | |- context [bind (ToString ?v) _] =>
             let E := fresh "E" in
             destruct (ToString v) eqn:E; cbn [bind];
             [| apply ToString_throws in E; subst;
                right; right; right; left; reflexivity]
         end;
  repeat match goal with
         | |- context [if unescaped_characters ?p then _ else _] =>
             destruct (unescaped_characters p); cbn [bind];
             [right; right; right; right; reflexivity|]
         end;
  left; eexists; reflexivity.

Ltac path_is_plain :=
  repeat (rewrite unescaped_characters_app by reflexivity);
  repeat (rewrite unescaped_characters_app by assumption;
          repeat (rewrite unescaped_characters_app by reflexivity));
  first [assumption | reflexivity].

(** X6.  Conversely, for a call of a listed tool either the request to
    the collaborator goes out, or the call fails for one of four reasons
    the code has: the iTick server refuses any
    call whose [arguments.code] is falsy; [kmb_get_eta] throws when there
    are no arguments to read [stop_id] from; an argument put into the
    path has no text; or the path has a character for which Node refuses
    the request.  With arguments that are absent or plain strings only
    the first two failures occur, and otherwise the request goes out. *)
Theorem listed_tools_are_dispatched
    (srv : server) (name : string) (args : value) :
  srv = iTick \/ srv = HKGov \/ srv = HKO ->
  registered srv name ->
  let refused_for_code :=
    srv = iTick /\ ToBoolean (OptGet args "code") = false
    /\ handleToolCall srv (JStr name) args
       = Throw "Stock code is required" in
  let no_arguments :=
    srv = HKGov /\ name = "kmb_get_eta"
    /\ (args = JUndefined \/ args = JNull)
    /\ handleToolCall srv (JStr name) args
       = Throw (TypeError_read args "stop_id") in
  ((exists call, handleToolCall srv (JStr name) args = Normal call)
   \/ refused_for_code
   \/ no_arguments
   \/ handleToolCall srv (JStr name) args = Throw TypeError_primitive
   \/ handleToolCall srv (JStr name) args
      = Throw ERR_UNESCAPED_CHARACTERS)
  /\ ((forall key, plain (OptGet args key) = true) ->
      unescaped_characters (Number_toString "30") = false ->
      (exists call, handleToolCall srv (JStr name) args = Normal call)
      \/ refused_for_code
      \/ no_arguments).
Proof.
  intros Hsrv Hr refused_for_code no_arguments.
  unfold refused_for_code, no_arguments. clear refused_for_code no_arguments.
  split.
  - destruct Hsrv as [-> | [-> | ->]]; unfold registered in Hr.
    + rewrite iTick_tool_names in Hr. cbn [map In] in Hr.
      cbn [handleToolCall iTick]. unfold iTick_handleToolCall.
      destruct (ToBoolean (OptGet args "code")) eqn:Ec; cbn [negb];
        [|right; left; repeat split].
      each_listed Hr; cbn [is_str String.eqb Ascii.eqb Bool.eqb];
        outcome_of_method.
    + rewrite HKGov_tool_names in Hr. cbn [map In] in Hr.
      cbn [handleToolCall HKGov]. unfold HKGov_handleToolCall.
      each_listed Hr; cbn [is_str String.eqb Ascii.eqb Bool.eqb];
        try outcome_of_method.
      destruct args; cbn [Get bind];
        try (right; right; left; repeat split; auto; fail);
        outcome_of_method.
    + rewrite HKO_tool_names in Hr. cbn [map In] in Hr.
      cbn [handleToolCall HKO]. unfold HKO_handleToolCall.
      each_listed Hr; cbn [is_str String.eqb Ascii.eqb Bool.eqb];
        outcome_of_method.
  - intros Hplain H30.
    destruct Hsrv as [-> | [-> | ->]]; unfold registered in Hr.
    + rewrite iTick_tool_names in Hr. cbn [map In] in Hr.
      cbn [handleToolCall iTick]. unfold iTick_handleToolCall.
      destruct (ToBoolean (OptGet args "code")) eqn:Ec; cbn [negb];
        [|right; left; repeat split].
      left.
      destruct (plain_or_else _ "hk" (Hplain "region") eq_refl)
        as (region & -> & Hregion).
      destruct (plain_or_else _ "stock" (Hplain "type") eq_refl)
        as (type & -> & Htype).
      destruct (plain_or_else _ "1d" (Hplain "period") eq_refl)
        as (period & -> & Hperiod).
      destruct (plain_or_number _ "30" (Hplain "limit") H30)
        as (limit & Elimit & Hlimit).
      destruct (plain_cases _ (Hplain "code")) as [E | (code & E & Hcode)];
        rewrite E in *; [discriminate Ec|].
      each_listed Hr; cbn [is_str String.eqb Ascii.eqb Bool.eqb];
        unfold searchSymbol, getPrice, getKline, getQuote, getDepth,
          getTrades, searchSymbol_path, getPrice_path, getKline_path,
          getQuote_path, getDepth_path, getTrades_path;
        cbn [ToString bind]; try rewrite Elimit; cbn [bind];
        rewrite awaiting_sent by path_is_plain; eexists; reflexivity.
    + rewrite HKGov_tool_names in Hr. cbn [map In] in Hr.
      cbn [handleToolCall HKGov]. unfold HKGov_handleToolCall.
      destruct (plain_or_else _ "tc" (Hplain "language") eq_refl)
        as (lang & -> & Hlang).
      each_listed Hr; cbn [is_str String.eqb Ascii.eqb Bool.eqb];
        unfold getHKOLocalForecast, getHKO9DayForecast, getHKOCurrentWeather,
          getHKOWarnings, getHKOSpecialTips, getHKOEarthquake,
          getTrafficSpeed, getAEWaitingTime, getKMBRoutes, getKMBStops,
          with_lang;
        cbn [ToString bind];
        try (rewrite awaiting_sent by path_is_plain; left; eexists;
             reflexivity).
      destruct (plain_text _ (Hplain "stop_id")) as (stop & Estop & Hstop).
      destruct (plain_text _ (Hplain "route")) as (route & Eroute & Hroute).
      destruct (plain_text _ (Hplain "direction")) as (dir & Edir & Hdir).
      destruct args; cbn [Get bind];
        try (right; right; repeat split; auto; fail);
        cbn [OptGet] in Estop, Eroute, Edir;
        unfold getKMBETA, getKMBETA_path;
        rewrite Estop, Eroute, Edir; cbn [bind];
        rewrite awaiting_sent by path_is_plain; left; eexists; reflexivity.
    + rewrite HKO_tool_names in Hr. cbn [map In] in Hr.
      cbn [handleToolCall HKO]. unfold HKO_handleToolCall.
      destruct (plain_or_else _ "tc" (Hplain "language") eq_refl)
        as (lang & -> & Hlang).
      left.
      each_listed Hr; cbn [is_str String.eqb Ascii.eqb Bool.eqb];
        unfold getLocalForecast, get9DayForecast, getCurrentWeather,
          getWeatherWarnings, getSpecialTips, getEarthquakeInfo,
          getTsunamiInfo, getAllWeather, with_lang;
        cbn [ToString bind];
        try (rewrite awaiting_sent by path_is_plain; eexists; reflexivity).
      unfold request.
      repeat match goal with
             | |- context [if unescaped_characters ?p then _ else _] =>
                 replace (unescaped_characters p) with false
                   by (symmetry; path_is_plain); cbn [bind]
             end.
      eexists; reflexivity.
Qed.




End Dispatch.

Section Answering.
Context {engine : Engine}.
Variable srv : server.

Lemma find_app_later {A} (f : A -> bool) (l : list A) (x : A) :
  (forall y, In y l -> f y = false) -> f x = true ->
  find f (l ++ [x]) = Some x
  /\ filter (fun y => negb (f y)) (l ++ [x]) = l.
Proof.
  intros Hl Hx. induction l as [|y l IH].
  - cbn. rewrite Hx. split; reflexivity.
  - cbn [app find filter]. rewrite (Hl y (or_introl eq_refl)). cbn [negb].
    destruct IH as [IH1 IH2]; [intros z Hz; apply Hl; right; exact Hz|].
    rewrite IH1, IH2. split; reflexivity.
Qed.

(** X10.  A [tools/call] that is dispatched to a collaborator is
    answered when the collaborator answers or fails, whatever else is
    waiting: nothing is written when the request arrives, and the
    settlement appends exactly one response, under the id of the request,
    carrying the collaborator's result as [content] with [isError]
    [false], or the message of its failure with [isError] [true]. *)
Theorem dispatched_call_is_answered
    (events : list event) (line : string) (message : value)
    (call : upstream) (o : completion value) :
  let s := run srv events in
  let id := prop message "id" in
  alive s = true ->
  buffer s = "" ->
  count_LF line = 0 ->
  JSON_parse line = Normal message ->
  prop message "method" = JStr "tools/call" ->
  handleToolsCall srv id (prop message "params") = Pending id call ->
  let s1 := step srv s (Data (line +++ String LF "")) in
  let s2 := step srv s1 (Settle (chunks_seen s) o) in
  stdout s1 = stdout s
  /\ stdout s2
     = stdout s ++ [{| origin := (chunks_seen s, 0);
                       response := handleToolsCall_settled id o |}]
  /\ tasks s2 = tasks s
  /\ prop (handleToolsCall_settled id o) "id" = id
  /\ match o with
     | Normal result =>
         prop (prop (handleToolsCall_settled id o) "result") "content"
         = JArr [result]
         /\ isError (handleToolsCall_settled id o) = JBool false
     | Throw m =>
         content_text (handleToolsCall_settled id o) = JStr ("Error: " +++ m)
         /\ isError (handleToolsCall_settled id o) = JBool true
     end.
Proof.
  intros s id Ha Hb Hl Hp Hm Hpend s1 s2.
  pose proof (fold_step_orderly srv events (start srv) (start_orderly srv))
    as Hord. fold (run srv events) in Hord. fold s in Hord.
  set (t := {| chunk_no := chunks_seen s; line_no := 0; awaited_id := id;
               awaited_call := call; remaining := [] |}).
  assert (Hs1 : s1 = suspend t
                  {| alive := alive s; buffer := "";
                     this_tools := this_tools s;
                     chunks_seen := S (chunks_seen s);
                     tasks := tasks s; stdout := stdout s |}).
  { unfold s1, step, on_data. rewrite Ha, Hb, (read_one_line line Hl).
    cbn [run_lines this_tools].
    rewrite (iterate_tools_call srv _ line message Hp Hm).
    fold id. rewrite Hpend. reflexivity. }
  assert (Hfind : find (waits_for (chunks_seen s)) (tasks s ++ [t]) = Some t
                  /\ filter (fun y => negb (waits_for (chunks_seen s) y))
                       (tasks s ++ [t]) = tasks s).
  { apply find_app_later.
    - intros y Hy. unfold waits_for. apply Nat.eqb_neq.
      pose proof (tasks_seen s Hord) as Hseen.
      rewrite Forall_forall in Hseen. specialize (Hseen y Hy). lia.
    - unfold waits_for, t. cbn [chunk_no]. apply Nat.eqb_refl. }
  destruct Hfind as [Hfind Hfilter].
  assert (Hs2 : s2 = write (chunks_seen s, 0) (handleToolsCall_settled id o)
                       (resume (chunks_seen s) s1)).
  { unfold s2. rewrite Hs1. unfold step, on_settle.
    cbn [suspend alive tasks]. rewrite Ha, Hfind. reflexivity. }
  split; [rewrite Hs1; reflexivity|].
  split; [rewrite Hs2, Hs1; reflexivity|].
  split; [rewrite Hs2, Hs1; cbn [write resume suspend tasks]; exact Hfilter|].
  split; [destruct o; reflexivity|].
  destruct o; split; reflexivity.
Qed.

End Answering.

(** * The output stream *)

(** Induction over values, through the arrays and objects. *)
Lemma count_LF_app (a b : string) :
  count_LF (a +++ b) = count_LF a + count_LF b.
Proof.
  induction a as [|c a IH]; [reflexivity|].
  cbn [String.append count_LF]. rewrite IH. lia.
Qed.

Lemma count_LF_cons (c : ascii) (r : string) :
  count_LF (String c r) = (if Ascii.eqb c LF then 1 else 0) + count_LF r.
Proof. reflexivity. Qed.

Lemma hex_digit_not_LF (n : N) :
  (n < 16)%N -> Ascii.eqb (hex_digit n) LF = false.
Proof.
  intros H. rewrite <- (N2Nat.id n).
  assert (Hlt : N.to_nat n < 16) by lia.
  revert Hlt. generalize (N.to_nat n). intros k Hk.
  do 16 (destruct k as [|k]; [reflexivity|]). lia.
Qed.

Lemma u_escape_no_LF (u : N) :
  (u < 65536)%N -> count_LF (u_escape u) = 0.
Proof.
  intros H. unfold u_escape. cbn [count_LF].
  rewrite !hex_digit_not_LF;
    first [ reflexivity
          | apply N.mod_lt; discriminate
          | apply N.Div0.div_lt_upper_bound; lia ].
Qed.

Lemma quote_chars_no_LF (n : nat) :
  forall s : string, String.length s <= n -> count_LF (quote_chars s) = 0.
Proof.
  induction n as [|n IH]; intros s Hlen.
  - destruct s; [reflexivity | simpl in Hlen; lia].
  - destruct s as [|c r]; [reflexivity|].
    simpl in Hlen. cbn [quote_chars].
    assert (Hr : count_LF (quote_chars r) = 0) by (apply IH; lia).
    destruct (Ascii.eqb c DQUOTE || Ascii.eqb c BACKSLASH) eqn:E0.
    { cbn [count_LF]. rewrite Hr.
      apply orb_prop in E0. destruct E0 as [E|E];
        apply Ascii.eqb_eq in E; subst c; reflexivity. }
    repeat match goal with
           | |- context [if (code c =? ?k)%N then _ else _] =>
               destruct (code c =? k)%N eqn:?;
               [cbn [count_LF]; rewrite Hr; reflexivity|]
           end.
    destruct (code c <? 32)%N eqn:E32.
    { rewrite count_LF_app, Hr, u_escape_no_LF; [reflexivity|].
      apply N.ltb_lt in E32. lia. }
    assert (Hc : Ascii.eqb c LF = false).
    { apply Ascii.eqb_neq. intros ->. discriminate. }
    assert (Hkeep : count_LF (String c (quote_chars r)) = 0).
    { cbn [count_LF]. rewrite Hc, Hr. reflexivity. }
    destruct r as [|c1 [|c2 r2]]; try exact Hkeep.
    destruct ((code c =? 237) && (160 <=? code c1))%N; [|exact Hkeep].
    simpl in Hlen. rewrite count_LF_app, (IH r2) by lia.
    rewrite u_escape_no_LF; [reflexivity|].
    assert (code c1 < 256)%N by (unfold code; apply N_ascii_bounded).
    assert (code c2 < 256)%N by (unfold code; apply N_ascii_bounded).
    lia.
Qed.

Lemma quote_no_LF (s : string) : count_LF (quote s) = 0.
Proof.
  unfold quote. cbn [count_LF]. rewrite count_LF_app.
  rewrite (quote_chars_no_LF (String.length s) s (le_n _)). reflexivity.
Qed.

Lemma join_with_no_LF (sep : string) (pieces : list string) :
  count_LF sep = 0 ->
  Forall (fun piece => count_LF piece = 0) pieces ->
  count_LF (join_with sep pieces) = 0.
Proof.
  intros Hsep H. induction H as [|piece rest Hp Hrest IH]; [reflexivity|].
  cbn [join_with]. destruct rest; [exact Hp|].
  rewrite !count_LF_app, Hp, Hsep, IH. reflexivity.
Qed.

Section Framing.
Variable number_json : string -> string.
Hypothesis number_json_no_LF : forall literal, count_LF (number_json literal) = 0.

Lemma JSON_stringify_no_LF (v : value) :
  forall text, JSON_stringify number_json v = Some text -> count_LF text = 0.
Proof.
  induction v as [| | b | literal | s | elems IH | props IH]
    using value_induction; intros text H; cbn [JSON_stringify] in H.
  - discriminate.
  - injection H as <-. reflexivity.
  - destruct b; injection H as <-; reflexivity.
  - injection H as <-. apply number_json_no_LF.
  - injection H as <-. apply quote_no_LF.
  - injection H as <-. clear -IH number_json_no_LF.
    rewrite count_LF_cons, count_LF_app.
    rewrite join_with_no_LF; [reflexivity | reflexivity|].
    induction IH as [|x rest Hx Hrest IHrest]; constructor.
    + destruct (JSON_stringify number_json x) as [t|] eqn:E;
        [exact (Hx t eq_refl) | reflexivity].
    + exact IHrest.
  - injection H as <-. clear -IH number_json_no_LF.
    rewrite count_LF_cons, count_LF_app.
    rewrite join_with_no_LF; [reflexivity | reflexivity|].
    induction IH as [|[k x] rest Hx Hrest IHrest]; [constructor|].
    cbn [snd] in Hx.
    destruct (JSON_stringify number_json x) as [t|] eqn:E.
    + constructor; [|exact IHrest]. cbv beta.
      rewrite count_LF_cons, !count_LF_app, !count_LF_cons.
      rewrite (quote_chars_no_LF _ k (le_n _)), (Hx t eq_refl).
      reflexivity.
    + exact IHrest.
Qed.

Lemma message_text_no_LF (message : value) :
  count_LF (message_text number_json message) = 0.
Proof.
  unfold message_text.
  destruct (JSON_stringify number_json message) as [t|] eqn:E;
    [exact (JSON_stringify_no_LF _ _ E) | reflexivity].
Qed.

Lemma split_wire (messages : list value) :
  split (wire number_json messages)
  = map (message_text number_json) messages ++ [""].
Proof.
  induction messages as [|m rest IH]; [reflexivity|].
  unfold wire in *. cbn [map join_chunks fold_right].
  unfold wire_line at 1. rewrite append_assoc. cbn [String.append].
  fold (join_chunks (map (wire_line number_json) rest)).
  rewrite (split_line _ _ (message_text_no_LF m)), IH. reflexivity.
Qed.

(** X11.  Each response is written as one line: whatever text a tool
    returns, newlines included, [JSON.stringify] puts none in its output.
    So a reader that splits the server's output at newlines, however the
    output is cut into chunks, gets back the serialised responses one by
    one and in order, with nothing left over. *)
Theorem output_reads_back_as_responses
    (messages : list value) (chunks : list string) :
  join_chunks chunks = wire number_json messages ->
  read_chunks "" chunks = (map (message_text number_json) messages, "")
  /\ count_LF (wire number_json messages) = length messages.
Proof.
  intros H. split.
  - rewrite (read_chunks_spec chunks "" eq_refl). cbn [String.append].
    rewrite H, split_wire, removelast_last, last_last. reflexivity.
  - pose proof (split_length (wire number_json messages)) as Hl.
    rewrite split_wire, length_app, length_map in Hl. cbn in Hl. lia.
Qed.

End Framing.

(** * Input without answers from collaborators *)

Section Data_only.
Context {engine : Engine}.
Variable srv : server.

Lemma removelast_cons {A} (x : A) (l : list A) :
  l <> [] -> removelast (x :: l) = x :: removelast l.
Proof. destruct l; [contradiction | reflexivity]. Qed.

Lemma in_removelast {A} (x : A) (l : list A) :
  In x (removelast l) -> In x l.
Proof.
  induction l as [|y l IH]; [intros []|].
  destruct l as [|z l]; [intros []|].
  cbn [removelast]. intros [<- | H]; [left; reflexivity|].
  right. apply IH, H.
Qed.

Lemma removelast_app_l {A} (l l' : list A) :
  Forall (fun x => In x (removelast (l ++ l'))) (removelast l)
  /\ Forall (fun x => In x (removelast (l ++ l'))) (removelast l').
Proof.
  destruct l' as [|y l'].
  - rewrite app_nil_r. split; [|constructor].
    apply Forall_forall. auto.
  - rewrite (removelast_app l (l' := y :: l')) by discriminate.
    split; apply Forall_forall; intros x Hx; apply in_or_app;
      [left; apply in_removelast, Hx | right; exact Hx].
Qed.

Lemma responses_write (o : nat * nat) (r : value) (s : session) :
  responses (write o r s) = responses s ++ [r].
Proof. unfold responses, write. cbn [stdout]. now rewrite map_app. Qed.

(** The lines of a chunk, none of which but the last may wait: each
    contributes what it writes at once. *)
Lemma run_lines_quiet (c i : nat) (lines : list string) (s : session) :
  Forall (fun line => quiet srv (this_tools s) line = true)
    (removelast lines) ->
  responses (run_lines srv c i lines s)
  = responses s ++ flat_map (written srv (this_tools s)) lines.
Proof.
  revert i s. induction lines as [|line rest IH]; intros i s H.
  - cbn. now rewrite app_nil_r.
  - cbn [run_lines flat_map]. unfold written at 1.
    destruct rest as [|line' rest'].
    + cbn [flat_map]. rewrite app_nil_r.
      destruct (iterate srv (this_tools s) line); cbn [run_lines];
        [now rewrite app_nil_r | apply responses_write
        | now rewrite app_nil_r].
    + rewrite removelast_cons in H by discriminate.
      inversion H as [|? ? Hq Hrest]; subst.
      unfold quiet in Hq.
      destruct (iterate srv (this_tools s) line) as [| r | id call];
        [| |discriminate].
      * rewrite IH by exact Hrest. reflexivity.
      * rewrite IH by exact Hrest.
        rewrite responses_write, <- app_assoc. reflexivity.
Qed.

(** A run of ['data'] events in which no line but the very last waits
    for a collaborator writes, in order, what each line read gives. *)
Lemma data_only_responses (chunks : list string) (s : session) :
  alive s = true ->
  Forall (fun line => quiet srv (this_tools s) line = true)
    (removelast (fst (read_chunks (buffer s) chunks))) ->
  responses (fold_left (step srv) (map Data chunks) s)
  = responses s
    ++ flat_map (written srv (this_tools s))
         (fst (read_chunks (buffer s) chunks)).
Proof.
  revert s. induction chunks as [|chunk later IH]; intros s Ha H.
  - cbn. now rewrite app_nil_r.
  - cbn [map fold_left].
    assert (Ha' : alive (step srv s (Data chunk)) = true)
      by (rewrite only_end_terminates; [exact Ha | discriminate]).
    assert (Ht : this_tools (step srv s (Data chunk)) = this_tools s)
      by apply step_this_tools.
    assert (Hb : buffer (step srv s (Data chunk))
                 = snd (read_chunk (buffer s) chunk)).
    { unfold step, on_data. rewrite Ha.
      destruct (read_chunk (buffer s) chunk) as [lines b].
      now rewrite run_lines_buffer. }
    assert (Hr : Forall (fun line => quiet srv (this_tools s) line = true)
                   (removelast (fst (read_chunk (buffer s) chunk))) ->
                 responses (step srv s (Data chunk))
                 = responses s
                   ++ flat_map (written srv (this_tools s))
                        (fst (read_chunk (buffer s) chunk))).
    { intros Hq. unfold step, on_data. rewrite Ha.
      destruct (read_chunk (buffer s) chunk) as [lines b].
      rewrite run_lines_quiet by exact Hq. reflexivity. }
    cbn [read_chunks] in H |- *.
    destruct (read_chunk (buffer s) chunk) as [lines b].
    cbn [fst snd] in Hb, Hr.
    specialize (IH (step srv s (Data chunk)) Ha').
    rewrite Ht, Hb in IH.
    destruct (read_chunks b later) as [frames final].
    cbn [fst] in H, IH |- *.
    destruct (removelast_app_l lines frames) as [H1 H2].
    rewrite Forall_forall in H, H1, H2.
    rewrite IH by (apply Forall_forall; intros x Hx; apply H, H2, Hx).
    rewrite Hr by (apply Forall_forall; intros x Hx; apply H, H1, Hx).
    rewrite flat_map_app, app_assoc. reflexivity.
Qed.

End Data_only.

(** * The command-line client *)

Lemma JSON_stringify_ext (f g : string -> string) (v : value) :
  (forall literal, In literal (literals v) -> f literal = g literal) ->
  JSON_stringify f v = JSON_stringify g v.
Proof.
  induction v as [| | b | literal | s | elems IH | props IH]
    using value_induction; intros H; cbn [JSON_stringify]; try reflexivity.
  - f_equal. apply H. left. reflexivity.
  - do 4 f_equal. cbn [literals] in H.
    induction IH as [|x rest Hx Hrest IHrest]; [reflexivity|].
    rewrite Hx, IHrest; [reflexivity | |];
      intros l Hl; apply H, in_or_app; [right | left]; exact Hl.
  - do 4 f_equal. cbn [literals] in H.
    induction IH as [|[k x] rest Hx Hrest IHrest]; [reflexivity|].
    cbn [snd] in Hx.
    rewrite Hx, IHrest; [reflexivity | |];
      intros l Hl; apply H, in_or_app; [right | left]; exact Hl.
Qed.

Lemma message_text_ext (f g : string -> string) (v : value) :
  (forall literal, In literal (literals v) -> f literal = g literal) ->
  message_text f v = message_text g v.
Proof.
  intros H. unfold message_text. now rewrite (JSON_stringify_ext f g v H).
Qed.

Section Client_properties.
Context {engine : Engine}.
Variable number_json : string -> string.
Hypothesis number_1 : number_json "1" = "1".
Hypothesis number_2 : number_json "2" = "2".
Hypothesis number_3 : number_json "3" = "3".
Hypothesis zero_is_zero : Number_isZero "0" = true.

Let plain : string -> string := fun literal => literal.

Lemma small_ids (literal : string) :
  In literal ["1"; "2"; "3"] -> number_json literal = plain literal.
Proof.
  intros [<- | [<- | [<- | []]]]; unfold plain; assumption.
Qed.

Lemma writes_plain (tool lang : string) :
  callMCPTool_writes number_json (JStr tool)
    (JObj [("language", JStr lang)])
  = callMCPTool_writes plain (JStr tool) (JObj [("language", JStr lang)]).
Proof.
  unfold callMCPTool_writes, wire_line.
  rewrite !(message_text_ext number_json plain);
    [reflexivity | | |]; intros l Hl; apply small_ids; cbn in Hl |- *; tauto.
Qed.

Lemma responses_before_end (srv : server) (before later : list event) :
  responses (run srv (before ++ End :: later)) = responses (run srv before).
Proof.
  unfold run, responses. rewrite fold_left_app.
  rewrite (proj1 (fold_after_end srv _ later)).
  unfold step. destruct (alive _); reflexivity.
Qed.

Lemma language_option_cases (args : list string) :
  language_option args = "tc" \/ language_option args = "sc".
Proof.
  unfold language_option.
  destruct (includes args "--tc"); [left; reflexivity|].
  destruct (includes args "--sc"); [right | left]; reflexivity.
Qed.

Lemma lines_of_writes (command tool desc lang : string) :
  In (command, (tool, desc)) COMMANDS ->
  lang = "tc" \/ lang = "sc" ->
  let lines :=
    removelast
      (split
         (join_chunks
            (callMCPTool_writes plain (JStr tool)
               (JObj [("language", JStr lang)])))) in
  forallb (quiet HKGov HKGov_tools) (removelast lines) = true
  /\ flat_map (written HKGov HKGov_tools) lines
     = [handleInitialize HKGov (JNum "1");
        handleToolsList HKGov_tools (JNum "2")].
Proof.
  intros H Hl. cbn [COMMANDS In] in H.
  repeat (destruct H as [H | H]; [inversion H; subst; clear H|]);
    [..|contradiction];
    destruct Hl as [-> | ->]; vm_compute; split; reflexivity.
Qed.

Lemma served_before_end (command tool desc lang : string)
    (chunks : list string) :
  In (command, (tool, desc)) COMMANDS ->
  lang = "tc" \/ lang = "sc" ->
  join_chunks chunks
  = join_chunks
      (callMCPTool_writes plain (JStr tool)
         (JObj [("language", JStr lang)])) ->
  responses (run HKGov (map Data chunks))
  = [handleInitialize HKGov (JNum "1");
     handleToolsList HKGov_tools (JNum "2")].
Proof.
  intros H Hl Hj.
  destruct (lines_of_writes command tool desc lang H Hl) as [Hq Hw].
  assert (Hlines : fst (read_chunks "" chunks)
                   = removelast
                       (split
                          (join_chunks
                             (callMCPTool_writes plain (JStr tool)
                                (JObj [("language", JStr lang)]))))).
  { rewrite (read_chunks_spec chunks "" eq_refl). cbn [fst String.append].
    rewrite Hj. reflexivity. }
  unfold run.
  rewrite (data_only_responses HKGov chunks (start HKGov) eq_refl);
    cbn [buffer start this_tools]; rewrite Hlines.
  - exact Hw.
  - apply Forall_forall. intros line Hin.
    rewrite forallb_forall in Hq. apply Hq, Hin.
Qed.

Lemma output_plain :
  wire number_json
    [handleInitialize HKGov (JNum "1");
     handleToolsList HKGov_tools (JNum "2")]
  = wire plain
      [handleInitialize HKGov (JNum "1");
       handleToolsList HKGov_tools (JNum "2")].
Proof.
  unfold wire, wire_line. cbn [map].
  rewrite !(message_text_ext number_json plain);
    [reflexivity | |]; intros l Hl; apply small_ids;
    vm_compute in Hl; cbn; tauto.
Qed.

Lemma no_text_in_output :
  callMCPTool_close (JNum "0")
    (wire plain
       [handleInitialize HKGov (JNum "1");
        handleToolsList HKGov_tools (JNum "2")]) ""
  = Normal
      (JStr
         (wire plain
            [handleInitialize HKGov (JNum "1");
             handleToolsList HKGov_tools (JNum "2")])).
Proof.
  unfold callMCPTool_close. rewrite zero_is_zero.
  vm_compute. reflexivity.
Qed.

(** X12.  [hk-gov] never shows the answer of a tool.  For every command
    of its table and either language, the client writes its three
    requests and ends the server's input.  However the requests are cut
    into chunks on their way, the server answers [initialize] and
    [tools/list], is still waiting for the collaborator of the tool when
    ['end'] arrives, and exits.  Its output is those two responses,
    whatever happens later; neither has a text, and the client resolves
    with the raw output. *)
Theorem hk_gov_cli_gets_no_answer
    (args : list string) (command tool desc : string)
    (chunks : list string) (later : list event) :
  In (command, (tool, desc)) COMMANDS ->
  let lang := language_option args in
  join_chunks chunks
  = join_chunks
      (callMCPTool_writes number_json (JStr tool)
         (JObj [("language", JStr lang)])) ->
  let events := map Data chunks ++ End :: later in
  let output := wire number_json (responses (run HKGov events)) in
  responses (run HKGov events)
  = [handleInitialize HKGov (JNum "1");
     handleToolsList HKGov_tools (JNum "2")]
  /\ callMCPTool_close (JNum "0") output "" = Normal (JStr output).
Proof.
  intros H lang Hj events output.
  assert (Hr : responses (run HKGov events)
               = [handleInitialize HKGov (JNum "1");
                  handleToolsList HKGov_tools (JNum "2")]).
  { unfold events. rewrite responses_before_end.
    rewrite writes_plain in Hj.
    exact (served_before_end command tool desc lang chunks H
             (language_option_cases args) Hj). }
  split; [exact Hr|].
  unfold output. rewrite Hr, output_plain. apply no_text_in_output.
Qed.

End Client_properties.

(** * Replies of the iTick collaborator *)

Section iTick_replies.
Context {engine : Engine}.
Variable JSON_stringify_indented : value -> string.

Lemma Get_present (v : value) (key : string) :
  v <> JUndefined -> v <> JNull -> Get v key = Normal (prop v key).
Proof. destruct v; intros H1 H2; try reflexivity; contradiction. Qed.

(** X13.  A reply of iTick that reports a failure, any reply whose
    [code] is not the number 0, is passed on as a successful tool result:
    [isError] is [false] and the text is a notice with the reply's [msg],
    or [Unknown error] when it has none.  So it is for the price, quote,
    depth and trades tools alike, and in particular for a reply that is
    not JSON at all, which [fetchITick] hands on as a string. *)
Theorem upstream_failure_is_a_normal_result
    (id data : value) (message : string) :
  data <> JUndefined -> data <> JNull ->
  strict_ne_zero (prop data "code") = true ->
  ToString (or_else (prop data "msg") (JStr "Unknown error"))
  = Normal message ->
  let answer (headline : string) :=
    tool_result id
      (JObj [("type", JStr "text");
             ("text", JStr (failure_notice headline message))]) in
  handleToolsCall_settled id (getPrice_result data)
  = answer "❌ 獲取價格失敗"
  /\ handleToolsCall_settled id
       (getQuote_result JSON_stringify_indented data)
     = answer "❌ 獲取報價失敗"
  /\ handleToolsCall_settled id
       (getDepth_result JSON_stringify_indented data)
     = answer "❌ 獲取盤口失敗"
  /\ handleToolsCall_settled id
       (getTrades_result JSON_stringify_indented data)
     = answer "❌ 獲取成交失敗"
  /\ (forall headline, isError (answer headline) = JBool false)
  /\ (forall body : string,
         parse_json body = None ->
         fetched body = JStr body
         /\ getPrice_result (fetched body)
            = Normal
                (JObj [("type", JStr "text");
                       ("text",
                        JStr (failure_notice "❌ 獲取價格失敗"
                                "Unknown error"))])).
Proof.
  intros Hu Hn Hcode Hmsg answer.
  unfold getPrice_result, getQuote_result, getDepth_result, getTrades_result,
    formatPrice, formatQuote, formatDepth, formatTrades, text_result.
  rewrite !(Get_present _ _ Hu Hn). cbn [bind].
  rewrite Hcode, Hmsg. cbn [bind].
  repeat split.
  - unfold fetched, JSON_parse. rewrite H. reflexivity.
  - unfold fetched, JSON_parse. rewrite H. reflexivity.
Qed.

(** X14.  A reply with [code] 0 but without [data] makes the price tool
    fail: [formatPrice] reads [n] of nothing, and the answer is the
    tool-level failure with the engine's message for that. *)
Theorem price_reply_without_data_fails
    (id data : value) (literal : string) :
  prop data "code" = JNum literal ->
  Number_isZero literal = true ->
  prop data "data" = JUndefined \/ prop data "data" = JNull ->
  let r := tool_failure id (TypeError_read (prop data "data") "n") in
  handleToolsCall_settled id (getPrice_result data) = r
  /\ isError r = JBool true.
Proof.
  intros Hcode Hzero Hdata r. split; [|reflexivity].
  assert (Hd : forall key, Get data key = Normal (prop data key)).
  { destruct data; try discriminate Hcode; reflexivity. }
  unfold getPrice_result, formatPrice, text_result.
  rewrite Hd. cbn [bind]. rewrite Hcode. cbn [strict_ne_zero].
  rewrite Hzero. cbn [negb]. unfold r.
  destruct Hdata as [-> | ->]; reflexivity.
Qed.

End iTick_replies.

Section iTick_requests.
Context {engine : Engine}.

(** X15.  The price tool and the quote tool ask iTick for the same thing.
    With a code that is a non-empty string, and no region (or an empty
    one), both request [/quote?region=hk&code=<code>], the code put in as
    it is; depth and trades differ in the endpoint only.  A code with a
    character for which Node refuses the request leads to no request, for
    the four tools alike. *)
Theorem price_and_quote_share_a_request (args : value) (c : string) :
  OptGet args "code" = JStr c ->
  c <> "" ->
  ToBoolean (OptGet args "region") = false ->
  let asked (tool : string) :=
    match handleToolCall iTick (JStr tool) args with
    | Normal u => iTick_request u
    | Throw _ => None
    end in
  let unless_refused (path : string) :=
    if unescaped_characters c then None else Some (Normal path) in
  asked "itick_get_price"
  = unless_refused ("/quote?region=hk&code=" +++ c)
  /\ asked "itick_get_quote" = asked "itick_get_price"
  /\ asked "itick_get_depth"
     = unless_refused ("/depth?region=hk&code=" +++ c)
  /\ asked "itick_get_trades"
     = unless_refused ("/trades?region=hk&code=" +++ c).
Proof.
  intros Hc Hne Hr asked unless_refused. unfold asked, unless_refused.
  cbn [handleToolCall iTick]. unfold iTick_handleToolCall.
  rewrite Hc. unfold or_else. rewrite Hr.
  assert (Ht : ToBoolean (JStr c) = true)
    by (destruct c; [contradiction | reflexivity]).
  rewrite Ht. cbn [negb is_str String.eqb Ascii.eqb Bool.eqb].
  unfold getPrice, getQuote, getDepth, getTrades, getPrice_path,
    getQuote_path, getDepth_path, getTrades_path, awaiting, request.
  cbn [ToString bind].
  repeat (rewrite unescaped_characters_app by reflexivity).
  destruct (unescaped_characters c); cbn [bind]; repeat split.
Qed.

End iTick_requests.

(** * The command-line client of iTick *)

Section iTick_cli_properties.
Context {engine : Engine}.

(** X16.  [itick] hands its second and third words to the command as
    code and region, unchecked: a code that is missing is asked for as
    [undefined], a region that is missing is [hk].  For [kline] the third
    word is the region, not the period: whatever the command line, the
    period asked for is [1d]. *)
Theorem itick_cli_requests (args : list string) (cmd : string) :
  nth_error args 0 = Some cmd ->
  let code :=
    match nth_error args 1 with Some c => c | None => "undefined" end in
  let region :=
    match nth_error args 2 with Some r => r | None => "hk" end in
  (cmd = "search" ->
   itick_cli_request args
   = Some (Normal ("/symbol/list?type=stock&region=" +++ region
                   +++ "&code=" +++ code)))
  /\ (cmd = "price" ->
      itick_cli_request args
      = Some (Normal ("/quote?region=" +++ region +++ "&code=" +++ code)))
  /\ (cmd = "kline" ->
      itick_cli_request args
      = Some (Normal ("/kline?region=" +++ region +++ "&code=" +++ code
                      +++ "&period=1d&limit=30"))).
Proof.
  intros H code region.
  unfold itick_cli_request, argv. rewrite H.
  unfold code, region.
  repeat split; intros ->; cbn [String.eqb Ascii.eqb Bool.eqb orb];
    unfold cli_search_path, cli_price_path, cli_kline_path;
    destruct (nth_error args 1), (nth_error args 2); reflexivity.
Qed.

End iTick_cli_properties.

(** * Concrete sessions

    Run with [sample_engine]. *)

#[local] Existing Instance sample_engine.

(** The string escapes of [JSON.parse]: the two-character escapes, a
    [\u] escape of one, two and three bytes, and a surrogate pair. *)
Example parse_string_escapes :
  parse_json (quoted "['a\n\/', '\u0041\u00e9\u20ac', '\ud83d\ude00']")
  = Some (JArr [JStr (String "a" (String LF "/"));
                JStr (text_of (rev ("A"%char :: utf8 233 ++ utf8 8364)));
                JStr (text_of (rev (utf8 128512)))]).
Proof. vm_compute. reflexivity. Qed.

(** C1 fails: two [tools/call] requests that arrive in different chunks
    are both waiting for their collaborators, and their responses are
    written as the collaborators answer.  Chunk 0 asks for the bus routes
    with id 1, chunk 1 for the weather with id 2; the weather arrives
    first, and the response with id 2 is written before the one with
    id 1. *)
Lemma later_call_overtakes_pending_call :
  let events :=
    [Data (frame "{'jsonrpc':'2.0','id':1,'method':'tools/call','params':{'name':'kmb_get_routes','arguments':{}}}");
     Data (frame "{'jsonrpc':'2.0','id':2,'method':'tools/call','params':{'name':'hko_current_weather','arguments':{}}}");
     Settle 1 (Normal (text_content "sunny"));
     Settle 0 (Normal (text_content "KMB Routes: ..."))] in
  map origin (stdout (run HKGov events)) = [(1, 0); (0, 0)]
  /\ map (fun r => prop r "id") (responses (run HKGov events))
     = [JNum "2"; JNum "1"]
  /\ ~ StronglySorted read_before (stdout (run HKGov events)).
Proof.
  intros events.
  split; [vm_compute; reflexivity | split; [vm_compute; reflexivity|]].
  set (outs := stdout (run HKGov events)). vm_compute in outs. subst outs.
  intros H. inversion H as [|a l _ Hall]; subst.
  inversion Hall as [|b l' Hab _]; subst.
  destruct Hab as [Hlt | [Heq _]]; cbn in *; [lia | discriminate].
Qed.

(** A request that needs no collaborator overtakes as well. *)
Example initialize_overtakes_pending_call :
  map (fun r => prop r "id")
    (responses
       (run HKGov
          [Data (frame "{'jsonrpc':'2.0','id':1,'method':'tools/call','params':{'name':'hko_current_weather','arguments':{}}}");
           Data (frame "{'jsonrpc':'2.0','id':2,'method':'initialize','params':{}}");
           Settle 0 (Normal (text_content "sunny"))]))
  = [JNum "2"; JNum "1"].
Proof. vm_compute. reflexivity. Qed.

(** When the collaborator answers before the second chunk arrives, the
    events are serial, and the responses are in the order of reading. *)
Lemma responses_ordered_within_chunk_witness :
  let events :=
    [Data (frame "{'jsonrpc':'2.0','id':1,'method':'tools/call','params':{'name':'hko_current_weather','arguments':{}}}");
     Settle 0 (Normal (text_content "sunny"));
     Data (frame "{'jsonrpc':'2.0','id':2,'method':'initialize','params':{}}")] in
  serial HKGov (start HKGov) events
  /\ StronglySorted read_before (stdout (run HKGov events))
  /\ map (fun r => prop r "id") (responses (run HKGov events))
     = [JNum "1"; JNum "2"].
Proof.
  intros events.
  assert (Hser : serial HKGov (start HKGov) events).
  { vm_compute. repeat split. }
  split; [exact Hser|]. split; [|vm_compute; reflexivity].
  exact (proj2 (responses_ordered_within_chunk HKGov events) Hser).
Defined.

(** C3 fails: the scenario of the specification on the HK Gov server.
    [nonexistent_tool] is not in the tool table, and the one response has
    no top-level [error] field; the failure is in [result.isError]. *)
Lemma unknown_tool_has_no_protocol_error :
  let events :=
    [Data (frame "{'jsonrpc':'2.0','id':2,'method':'tools/call','params':{'name':'nonexistent_tool','arguments':{}}}")] in
  ~ registered HKGov "nonexistent_tool"
  /\ exists r : value,
       responses (run HKGov events) = [r]
       /\ has_field r "error" = false
       /\ isError r = JBool true.
Proof.
  intros events. split.
  - vm_compute. intuition discriminate.
  - eexists. split; [vm_compute; reflexivity|].
    split; vm_compute; reflexivity.
Qed.

Lemma unknown_tool_is_tool_level_failure_witness :
  let params :=
    JObj [("name", JStr "nonexistent_tool"); ("arguments", JObj [])] in
  (HKGov = iTick \/ HKGov = HKGov \/ HKGov = HKO)
  /\ prop params "name" = JStr "nonexistent_tool"
  /\ ~ registered HKGov "nonexistent_tool"
  /\ exists message : string,
       handleToolCall HKGov (JStr "nonexistent_tool")
         (prop params "arguments") = Throw message
       /\ handleToolsCall HKGov (JNum "2") params
          = Fulfilled (tool_failure (JNum "2") message)
       /\ isError (tool_failure (JNum "2") message) = JBool true
       /\ has_field (tool_failure (JNum "2") message) "error" = false
       /\ prop (tool_failure (JNum "2") message) "id" = JNum "2".
Proof.
  intros params.
  assert (Hun : ~ registered HKGov "nonexistent_tool").
  { vm_compute. intuition discriminate. }
  split; [right; left; reflexivity|]. split; [reflexivity|].
  split; [exact Hun|].
  exact (unknown_tool_is_tool_level_failure HKGov (JNum "2") params
           "nonexistent_tool" (or_intror (or_introl eq_refl)) eq_refl Hun).
Defined.

(** C4 fails: the scenario of the specification on the iTick server.  The
    arguments have no [code], and the text of the failure is about that;
    the tool name is not in it. *)
Lemma iTick_checks_code_before_tool_name :
  let events :=
    [Data (frame "{'jsonrpc':'2.0','id':2,'method':'tools/call','params':{'name':'nonexistent_tool','arguments':{}}}")] in
  ~ registered iTick "nonexistent_tool"
  /\ exists r : value,
       responses (run iTick events) = [r]
       /\ isError r = JBool true
       /\ content_text r = JStr "Error: Stock code is required"
       /\ contains "Error: Stock code is required" "nonexistent_tool" = false.
Proof.
  intros events. split.
  - vm_compute. intuition discriminate.
  - eexists. split; [vm_compute; reflexivity|].
    repeat split; vm_compute; reflexivity.
Qed.

Lemma unregistered_tool_response_witness :
  let line :=
    quoted "{'jsonrpc':'2.0','id':2,'method':'tools/call','params':{'name':'nonexistent_tool','arguments':{'code':'700'}}}" in
  let message :=
    JObj [("jsonrpc", JStr "2.0"); ("id", JNum "2");
          ("method", JStr "tools/call");
          ("params",
           JObj [("name", JStr "nonexistent_tool");
                 ("arguments", JObj [("code", JStr "700")])])] in
  JSON_parse line = Normal message
  /\ prop message "method" = JStr "tools/call"
  /\ prop (prop message "params") "name" = JStr "nonexistent_tool"
  /\ ~ registered HKGov "nonexistent_tool"
  /\ ~ registered iTick "nonexistent_tool"
  /\ iterate HKGov [] line
     = Written (tool_failure (JNum "2") "Unknown tool: nonexistent_tool")
  /\ iterate iTick [] line
     = Written (tool_failure (JNum "2") "Unknown tool: nonexistent_tool")
  /\ contains "Error: Unknown tool: nonexistent_tool" "nonexistent_tool"
     = true.
Proof.
  intros line message.
  assert (Hp : JSON_parse line = Normal message) by (vm_compute; reflexivity).
  assert (Hh : ~ registered HKGov "nonexistent_tool").
  { vm_compute. intuition discriminate. }
  assert (Hi : ~ registered iTick "nonexistent_tool").
  { vm_compute. intuition discriminate. }
  pose proof (unregistered_tool_response [] line message "nonexistent_tool"
                Hp eq_refl eq_refl) as (HA & _ & HB & _ & HD).
  split; [exact Hp|]. split; [reflexivity|]. split; [reflexivity|].
  split; [exact Hh|]. split; [exact Hi|].
  split; [exact (HA Hh)|]. split; [exact (HB Hi) | exact HD].
Defined.

(** C5 fails: a frame of one space is not valid JSON, and no response is
    written for it; the loop skips a line that is empty once trimmed. *)
Lemma blank_frame_gets_no_response :
  let chunk := String " " (String LF "") in
  read_chunk "" chunk = ([" "], "")
  /\ parse_json " " = None
  /\ stdout (run HKGov [Data chunk]) = []
  /\ stdout (run iTick [Data chunk]) = [].
Proof. repeat split; vm_compute; reflexivity. Qed.

(** A line that is not JSON, then a [tools/list] request: two responses,
    the parse error and the list of tools. *)
Example parse_error_then_tools_list :
  let chunk :=
    "not json" +++ String LF ""
    +++ frame "{'jsonrpc':'2.0','id':2,'method':'tools/list'}" in
  map (fun r => (error_code r, prop r "id", prop (prop r "result") "tools"))
    (responses (run iTick [Data chunk]))
  = [(JNum "-32700", JUndefined, JUndefined);
     (JUndefined, JNum "2", JArr iTick_tools)].
Proof. vm_compute. reflexivity. Qed.

Lemma malformed_frame_gets_parse_error_witness :
  let r := parse_error (SyntaxError_message "not json") in
  blank "not json" = false
  /\ parse_json "not json" = None
  /\ run_lines HKGov 0 0 ["not json"] (start HKGov)
     = write (0, 0) r (start HKGov)
  /\ error_code r = JNum "-32700"
  /\ has_field r "id" = false.
Proof.
  intros r.
  pose proof (malformed_frame_gets_parse_error HKGov 0 0 "not json" []
                (start HKGov) eq_refl eq_refl) as (H1 & _ & _ & H4 & H5 & _).
  split; [reflexivity|]. split; [reflexivity|].
  split; [exact H1|]. split; [exact H4 | exact H5].
Defined.

(** C7 fails: the frame [null] is valid JSON and its method is none of
    the three, yet the response is the parse error, without id.  So it is
    for a frame whose method has no string conversion, an object with an
    own [toString] property: the template literal of the [default] branch
    throws. *)
Lemma valid_frames_reported_as_parse_errors :
  (parse_json "null" = Some JNull
   /\ is_str (prop JNull "method") "initialize" = false
   /\ is_str (prop JNull "method") "tools/list" = false
   /\ is_str (prop JNull "method") "tools/call" = false
   /\ exists r : value,
        responses (run HKGov [Data (frame "null")]) = [r]
        /\ error_code r = JNum "-32700"
        /\ error_code r <> JNum "-32601"
        /\ has_field r "id" = false)
  /\ (let text := quoted "{'id':3,'method':{'toString':1}}" in
      let message :=
        JObj [("id", JNum "3"); ("method", JObj [("toString", JNum "1")])] in
      parse_json text = Some message
      /\ is_str (prop message "method") "initialize" = false
      /\ is_str (prop message "method") "tools/list" = false
      /\ is_str (prop message "method") "tools/call" = false
      /\ exists r : value,
           responses (run HKGov [Data (text +++ String LF "")]) = [r]
           /\ error_code r = JNum "-32700"
           /\ error_code r <> JNum "-32601"
           /\ has_field r "id" = false).
Proof.
  split.
  - repeat (split; [vm_compute; reflexivity|]).
    eexists. split; [vm_compute; reflexivity|].
    split; [vm_compute; reflexivity|].
    split; [vm_compute; discriminate | vm_compute; reflexivity].
  - intros text message.
    repeat (split; [vm_compute; reflexivity|]).
    eexists. split; [vm_compute; reflexivity|].
    split; [vm_compute; reflexivity|].
    split; [vm_compute; discriminate | vm_compute; reflexivity].
Qed.

Lemma unknown_method_response_witness :
  let line := quoted "{'jsonrpc':'2.0','id':3,'method':'foo'}" in
  let message :=
    JObj [("jsonrpc", JStr "2.0"); ("id", JNum "3"); ("method", JStr "foo")] in
  JSON_parse line = Normal message
  /\ message <> JNull
  /\ ToString (prop message "method") = Normal "foo"
  /\ iterate iTick [] line = Written (method_not_found (JNum "3") "foo")
  /\ error_code (method_not_found (JNum "3") "foo") = JNum "-32601".
Proof.
  intros line message.
  assert (Hp : JSON_parse line = Normal message) by (vm_compute; reflexivity).
  assert (Hn : message <> JNull) by discriminate.
  pose proof (unknown_method_response iTick [] line message "foo"
                Hp Hn eq_refl eq_refl eq_refl eq_refl) as (H1 & H2 & _).
  split; [exact Hp|]. split; [exact Hn|]. split; [reflexivity|].
  split; [exact H1 | exact H2].
Defined.

(** The first end-to-end scenario of the specification. *)
Lemma initialize_response_witness :
  let line := quoted "{'jsonrpc':'2.0','id':1,'method':'initialize','params':{}}" in
  let message :=
    JObj [("jsonrpc", JStr "2.0"); ("id", JNum "1");
          ("method", JStr "initialize"); ("params", JObj [])] in
  let s := run iTick [Data (line +++ String LF "")] in
  JSON_parse line = Normal message
  /\ prop message "method" = JStr "initialize"
  /\ iterate iTick [] line = Written (handleInitialize iTick (JNum "1"))
  /\ prop (prop (prop (handleInitialize iTick (JNum "1")) "result")
             "serverInfo") "name" = JStr "itick-mcp-server"
  /\ responses s = [handleInitialize iTick (JNum "1")]
  /\ buffer s = "" /\ this_tools s = iTick_tools /\ tasks s = []
  /\ alive s = true.
Proof.
  intros line message s.
  assert (Hp : JSON_parse line = Normal message) by (vm_compute; reflexivity).
  assert (Hc : count_LF line = 0) by (vm_compute; reflexivity).
  pose proof (initialize_response iTick [] line message Hp eq_refl)
    as (H1 & _ & _ & _ & _ & H6).
  destruct (H6 [] eq_refl eq_refl Hc) as (R1 & R2 & R3 & R4 & R5).
  split; [exact Hp|]. split; [reflexivity|]. split; [exact H1|].
  split; [reflexivity|].
  split; [exact R1|]. split; [exact R2|]. split; [exact R3|].
  split; [exact R4 | exact R5].
Defined.

(** The frame [null] after an [initialize] request. *)
Lemma null_frame_reported_as_parse_error_witness :
  let events :=
    [Data (frame "{'jsonrpc':'2.0','id':1,'method':'initialize','params':{}}")] in
  alive (run HKGov events) = true
  /\ buffer (run HKGov events) = ""
  /\ responses (run HKGov (events ++ [Data ("null" +++ String LF "")]))
     = [handleInitialize HKGov (JNum "1");
        parse_error (TypeError_read JNull "method")]
  /\ alive (run HKGov (events ++ [Data ("null" +++ String LF "")])) = true.
Proof.
  intros events.
  assert (Ha : alive (run HKGov events) = true) by (vm_compute; reflexivity).
  assert (Hb : buffer (run HKGov events) = "") by (vm_compute; reflexivity).
  destruct (null_frame_reported_as_parse_error HKGov)
    as (line & -> & _ & _ & _ & _ & H & _).
  destruct (H events Ha Hb) as (R1 & _ & R3).
  split; [exact Ha|]. split; [exact Hb|]. split; [|exact R3].
  etransitivity; [exact R1|]. vm_compute. reflexivity.
Defined.

Lemma tools_list_idempotent_witness :
  let events := [Data (frame "{'jsonrpc':'2.0','id':1,'method':'initialize','params':{}}")] in
  let later :=
    [Data (frame "{'jsonrpc':'2.0','id':2,'method':'tools/call','params':{'name':'hko_current_weather','arguments':{}}}");
     Settle 1 (Throw "Request timeout")] in
  let line := quoted "{'jsonrpc':'2.0','id':3,'method':'tools/list'}" in
  let line' := quoted "{'jsonrpc':'2.0','id':4,'method':'tools/list'}" in
  let message :=
    JObj [("jsonrpc", JStr "2.0"); ("id", JNum "3");
          ("method", JStr "tools/list")] in
  let message' :=
    JObj [("jsonrpc", JStr "2.0"); ("id", JNum "4");
          ("method", JStr "tools/list")] in
  JSON_parse line = Normal message
  /\ JSON_parse line' = Normal message'
  /\ exists r r' : value,
       iterate HKGov (this_tools (run HKGov events)) line = Written r
       /\ iterate HKGov (this_tools (run HKGov (events ++ later))) line'
          = Written r'
       /\ prop (prop r' "result") "tools" = prop (prop r "result") "tools".
Proof.
  intros events later line line' message message'.
  assert (Hp : JSON_parse line = Normal message) by (vm_compute; reflexivity).
  assert (Hp' : JSON_parse line' = Normal message')
    by (vm_compute; reflexivity).
  destruct (tools_list_idempotent HKGov events later line line'
              message message' Hp eq_refl Hp' eq_refl)
    as (r & r' & H1 & H2 & _ & H4 & _).
  split; [exact Hp|]. split; [exact Hp'|].
  exists r, r'. split; [exact H1|]. split; [exact H2 | exact H4].
Defined.

(** A request to the weather service that times out. *)
Lemma handler_exception_contained_witness :
  let s :=
    run HKGov
      [Data (frame "{'jsonrpc':'2.0','id':1,'method':'tools/call','params':{'name':'hko_current_weather','arguments':{}}}")] in
  let t :=
    {| chunk_no := 0; line_no := 0; awaited_id := JNum "1";
       awaited_call := Call "getHKOCurrentWeather" [JStr "tc"];
       remaining := [] |} in
  alive s = true
  /\ find (waits_for 0) (tasks s) = Some t
  /\ stdout s = []
  /\ responses (step HKGov s (Settle 0 (Throw "Request timeout")))
     = [tool_failure (JNum "1") "Request timeout"]
  /\ alive (step HKGov s (Settle 0 (Throw "Request timeout"))) = true.
Proof.
  intros s t.
  assert (Ha : alive s = true) by (vm_compute; reflexivity).
  assert (Hf : find (waits_for 0) (tasks s) = Some t)
    by (vm_compute; reflexivity).
  destruct (proj1 (proj2 (handler_exception_contained HKGov))
              s 0 t "Request timeout" Ha Hf) as [Hs Halive].
  split; [exact Ha|]. split; [exact Hf|]. split; [vm_compute; reflexivity|].
  split; [|exact Halive].
  rewrite Hs. vm_compute. reflexivity.
Defined.


(** ** Sessions for the further properties *)

(** One answered frame and one call still waiting. *)
Lemma frames_accounted_witness :
  let events :=
    [Data (frame "{'jsonrpc':'2.0','id':1,'method':'initialize','params':{}}");
     Data (frame "{'jsonrpc':'2.0','id':2,'method':'tools/call','params':{'name':'hko_current_weather','arguments':{}}}")] in
  alive (run HKGov events) = true
  /\ length (stdout (run HKGov events)) = 1
  /\ outstanding (run HKGov events) = 1
  /\ length (stdout (run HKGov events)) + outstanding (run HKGov events)
     = nonblank (fst (read_chunks "" (chunks_of events))).
Proof.
  intros events.
  assert (Ha : alive (run HKGov events) = true) by (vm_compute; reflexivity).
  split; [exact Ha|]. split; [vm_compute; reflexivity|].
  split; [vm_compute; reflexivity|].
  exact (frames_accounted HKGov events Ha).
Defined.

Lemma waits_only_for_listed_tools_witness :
  let line :=
    quoted "{'jsonrpc':'2.0','id':1,'method':'tools/call','params':{'name':'hko_current_weather','arguments':{}}}" in
  let call := Call "getHKOCurrentWeather" [JStr "tc"] in
  iterate HKGov [] line = Suspended (JNum "1") call
  /\ exists (message : value) (name : string),
       JSON_parse line = Normal message
       /\ prop message "method" = JStr "tools/call"
       /\ JNum "1" = prop message "id"
       /\ prop (prop message "params") "name" = JStr name
       /\ registered HKGov name.
Proof.
  intros line call.
  assert (H : iterate HKGov [] line = Suspended (JNum "1") call)
    by (vm_compute; reflexivity).
  split; [exact H|].
  exact (waits_only_for_listed_tools HKGov [] line (JNum "1") call
           (or_intror (or_introl eq_refl)) H).
Defined.

Lemma listed_tools_are_dispatched_witness :
  let args := JObj [("code", JStr "700"); ("region", JStr "us")] in
  let outcome := handleToolCall iTick (JStr "itick_get_kline") args in
  registered iTick "itick_get_kline"
  /\ (forall key, plain (OptGet args key) = true)
  /\ unescaped_characters (Number_toString "30") = false
  /\ outcome
     = Normal (Call "getKline" [JStr "us"; JStr "700"; JStr "1d"; JNum "30"])
  /\ ((exists call, outcome = Normal call)
      \/ (iTick = iTick /\ ToBoolean (OptGet args "code") = false
          /\ outcome = Throw "Stock code is required")
      \/ (iTick = HKGov /\ "itick_get_kline" = "kmb_get_eta"
          /\ (args = JUndefined \/ args = JNull)
          /\ outcome = Throw (TypeError_read args "stop_id"))).
Proof.
  intros args outcome.
  assert (H : registered iTick "itick_get_kline").
  { unfold registered. vm_compute.
    repeat (first [left; reflexivity | right]). }
  assert (Hplain : forall key, plain (OptGet args key) = true).
  { intros key. cbn [args OptGet prop own].
    destruct (String.eqb "code" key); [reflexivity|].
    destruct (String.eqb "region" key); reflexivity. }
  assert (H30 : unescaped_characters (Number_toString "30") = false)
    by reflexivity.
  split; [exact H|]. split; [exact Hplain|]. split; [exact H30|].
  split; [vm_compute; reflexivity|].
  exact (proj2 (listed_tools_are_dispatched iTick "itick_get_kline" args
                  (or_introl eq_refl) H) Hplain H30).
Defined.




(** The weather call of a fresh session, answered when the observatory
    replies. *)
Lemma dispatched_call_is_answered_witness :
  let line :=
    quoted "{'jsonrpc':'2.0','id':1,'method':'tools/call','params':{'name':'hko_current_weather','arguments':{}}}" in
  let message :=
    JObj [("jsonrpc", JStr "2.0"); ("id", JNum "1");
          ("method", JStr "tools/call");
          ("params",
           JObj [("name", JStr "hko_current_weather");
                 ("arguments", JObj [])])] in
  let call := Call "getHKOCurrentWeather" [JStr "tc"] in
  let s1 := step HKGov (start HKGov) (Data (line +++ String LF "")) in
  let s2 := step HKGov s1 (Settle 0 (Normal (text_content "sunny"))) in
  count_LF line = 0
  /\ JSON_parse line = Normal message
  /\ handleToolsCall HKGov (JNum "1") (prop message "params")
     = Pending (JNum "1") call
  /\ stdout s1 = []
  /\ responses s2 = [tool_result (JNum "1") (text_content "sunny")]
  /\ tasks s2 = [].
Proof.
  intros line message call s1 s2.
  assert (Hc : count_LF line = 0) by (vm_compute; reflexivity).
  assert (Hp : JSON_parse line = Normal message) by (vm_compute; reflexivity).
  assert (Hd : handleToolsCall HKGov (JNum "1") (prop message "params")
               = Pending (JNum "1") call) by (vm_compute; reflexivity).
  destruct (dispatched_call_is_answered HKGov [] line message call
              (Normal (text_content "sunny"))
              eq_refl eq_refl Hc Hp eq_refl Hd) as (H1 & H2 & H3 & _).
  split; [exact Hc|]. split; [exact Hp|]. split; [exact Hd|].
  split; [exact H1|]. split; [|exact H3].
  etransitivity; [exact (f_equal (map response) H2) | reflexivity].
Defined.

(** Two responses, delivered to the reader in three pieces. *)
Lemma output_reads_back_as_responses_witness :
  let number_json (literal : string) :=
    match count_LF literal with 0 => literal | S _ => "null" end in
  let messages :=
    [handleInitialize HKO (JNum "1"); method_not_found (JNum "2") "ping"] in
  let text := wire number_json messages in
  let chunks :=
    [substring 0 10 text; substring 10 200 text;
     substring 210 (String.length text - 210) text] in
  (forall literal, count_LF (number_json literal) = 0)
  /\ join_chunks chunks = text
  /\ read_chunks "" chunks = (map (message_text number_json) messages, "")
  /\ count_LF text = 2.
Proof.
  intros number_json messages text chunks.
  assert (Hn : forall literal, count_LF (number_json literal) = 0).
  { intros literal. unfold number_json.
    destruct (count_LF literal) eqn:E; [exact E | reflexivity]. }
  assert (Hj : join_chunks chunks = wire number_json messages)
    by (vm_compute; reflexivity).
  split; [exact Hn|]. split; [exact Hj|].
  exact (output_reads_back_as_responses number_json Hn messages chunks Hj).
Defined.

(** [hk-gov weather --sc], the three requests read in one chunk. *)
Lemma hk_gov_cli_gets_no_answer_witness :
  let plain (literal : string) := literal in
  let writes :=
    callMCPTool_writes plain (JStr "hko_local_forecast")
      (JObj [("language", JStr "sc")]) in
  let chunks := [join_chunks writes] in
  let events := map Data chunks ++ [End] in
  let output := wire plain (responses (run HKGov events)) in
  In ("weather", ("hko_local_forecast", "本地天氣預報")) COMMANDS
  /\ language_option ["weather"; "--sc"] = "sc"
  /\ join_chunks chunks = join_chunks writes
  /\ responses (run HKGov events)
     = [handleInitialize HKGov (JNum "1");
        handleToolsList HKGov_tools (JNum "2")]
  /\ callMCPTool_close (JNum "0") output "" = Normal (JStr output).
Proof.
  intros plain writes chunks events output.
  assert (Hin : In ("weather", ("hko_local_forecast", "本地天氣預報"))
                  COMMANDS) by (left; reflexivity).
  assert (Hj : join_chunks chunks = join_chunks writes)
    by (vm_compute; reflexivity).
  split; [exact Hin|]. split; [reflexivity|]. split; [exact Hj|].
  exact (hk_gov_cli_gets_no_answer plain eq_refl eq_refl eq_refl eq_refl
           ["weather"; "--sc"] "weather" "hko_local_forecast" "本地天氣預報"
           chunks [] Hin Hj).
Defined.

(** iTick rejects the token. *)
Lemma upstream_failure_is_a_normal_result_witness :
  let data := JObj [("code", JNum "401"); ("msg", JStr "invalid token")] in
  let answer :=
    tool_result (JNum "7")
      (text_content (failure_notice "❌ 獲取價格失敗" "invalid token")) in
  strict_ne_zero (prop data "code") = true
  /\ handleToolsCall_settled (JNum "7") (getPrice_result data) = answer
  /\ isError answer = JBool false
  /\ getPrice_result (fetched "<html>Bad Gateway</html>")
     = Normal (text_content
                 (failure_notice "❌ 獲取價格失敗" "Unknown error")).
Proof.
  intros data answer.
  assert (Hc : strict_ne_zero (prop data "code") = true) by reflexivity.
  assert (Hu : data <> JUndefined) by discriminate.
  assert (Hn : data <> JNull) by discriminate.
  destruct (upstream_failure_is_a_normal_result (fun _ => "") (JNum "7")
              data "invalid token" Hu Hn Hc eq_refl)
    as (H1 & _ & _ & _ & H5 & H6).
  split; [exact Hc|]. split; [exact H1|]. split; [apply H5|].
  apply H6. vm_compute. reflexivity.
Defined.

Lemma price_reply_without_data_fails_witness :
  let data := JObj [("code", JNum "0"); ("msg", JStr "ok")] in
  let r := tool_failure (JNum "8") (TypeError_read JUndefined "n") in
  handleToolsCall_settled (JNum "8") (getPrice_result data) = r
  /\ isError r = JBool true.
Proof.
  intros data r.
  exact (price_reply_without_data_fails (JNum "8") data "0"
           eq_refl eq_refl (or_introl eq_refl)).
Defined.

Lemma price_and_quote_share_a_request_witness :
  let args := JObj [("code", JStr "700")] in
  let asked (tool : string) :=
    match handleToolCall iTick (JStr tool) args with
    | Normal u => iTick_request u
    | Throw _ => None
    end in
  asked "itick_get_price" = Some (Normal "/quote?region=hk&code=700")
  /\ asked "itick_get_quote" = asked "itick_get_price".
Proof.
  intros args asked.
  assert (Hne : "700" <> "") by discriminate.
  destruct (price_and_quote_share_a_request args "700" eq_refl Hne eq_refl)
    as (H1 & H2 & _).
  split; [exact H1 | exact H2].
Defined.


(** [itick kline 700 1d], as in the usage text. *)
Lemma itick_cli_requests_witness :
  itick_cli_request ["kline"; "700"; "1d"]
  = Some (Normal "/kline?region=1d&code=700&period=1d&limit=30").
Proof.
  exact (proj2 (proj2 (itick_cli_requests ["kline"; "700"; "1d"] "kline"
                         eq_refl)) eq_refl).
Defined.


(** Calls that fail before any request is made are answered at once:
    a language that has no text, and a code with a space. *)
Example failure_before_the_request :
  let s :=
    run HKGov
      [Data (frame "{'jsonrpc':'2.0','id':1,'method':'tools/call','params':{'name':'hko_local_forecast','arguments':{'language':{'toString':1}}}}")] in
  let s' :=
    run iTick
      [Data (frame "{'jsonrpc':'2.0','id':2,'method':'tools/call','params':{'name':'itick_get_price','arguments':{'code':'a b'}}}")] in
  responses s = [tool_failure (JNum "1") TypeError_primitive]
  /\ tasks s = []
  /\ responses s' = [tool_failure (JNum "2") ERR_UNESCAPED_CHARACTERS]
  /\ tasks s' = [].
Proof. vm_compute. repeat split. Qed.
